(** * BBCSoundDownloader: the download worker and the session controller

    A shallow embedding of [download.py]:
    - [DownloadWorker.run] and [DownloadWorker._try_download] (the retry,
      fallback, temp-file and cancellation logic of one job), and
    - the bookkeeping of [BBCSoundDownloaderGUI] ([start_downloads],
      [start_next_downloads], [handle_download_result], [stop_downloads],
      [process_download_queue], [download_finished], [downloads_completed],
      [closeEvent]), and
    - the loading of the list ([load_csv_data], [sanitize_path]).

    The worker talks to the outside world (file system, network, clock, the
    [is_cancelled] flag written by the GUI thread).  The outside world is an
    explicit oracle: what each external call of each attempt does, and what
    each read of the flag returns.  The worker threads a [World] through its
    calls and appends everything observable to a trace. *)

From Stdlib Require Import ZArith List Bool Lia Ascii String.
From Stdlib.Strings Require Import Byte.
From stdpp Require Import base gmap strings pretty list fin_maps.
Import ListNotations.

Local Open Scope string_scope.
Local Open Scope list_scope.
Local Open Scope Z_scope.

(** ** Strings and paths *)

Definition slash : ascii := "/"%char.

(** [s.split('/')]: never empty, one more component than there are slashes. *)
Fixpoint split_slash (s : string) : list string :=
  match s with
  | EmptyString => [EmptyString]
  | String c s' =>
      if Ascii.eqb c slash then EmptyString :: split_slash s'
      else match split_slash s' with
           | h :: t => String c h :: t
           | [] => [String c EmptyString]
           end
  end.

(** [url.split('/')[2]]: [None] stands for the [IndexError] Python raises. *)
Definition url_host (url : string) : option string :=
  nth_error (split_slash url) 2.

Definition index_error : string := "list index out of range".

(** A [pathlib.Path], as far as the program looks at it: [parent] and
    [name]; [str(path)] joins them. *)
Record Path := mkPath { parent : string; name : string }.

Definition path_str (p : Path) : string := parent p +:+ "/" +:+ name p.

(** ** The file system

    A file has its bytes and its permission bits.  Names come from two
    disjoint name spaces: the paths the program is given, and the names
    [tempfile.mkstemp] makes up.  [mkstemp] promises a name that did not
    exist; here the n-th temporary name is [Temp n]. *)

Inductive FsPath :=
| Dest (s : string)
| Temp (n : nat).

Global Instance FsPath_eq_dec : EqDecision FsPath.
Proof. solve_decision. Defined.

Global Instance FsPath_countable : Countable FsPath.
Proof.
  refine (inj_countable'
            (fun p => match p with Dest s => inl s | Temp n => inr n end)
            (fun x => match x with inl s => Dest s | inr n => Temp n end) _).
  intros []; reflexivity.
Defined.

Record File := mkFile { data : list byte; mode : Z }.

Abbreviation FS := (gmap FsPath File).

Definition getsize (p : FsPath) (s : FS) : option Z :=
  match s !! p with
  | Some f => Some (Z.of_nat (length (data f)))
  | None => None
  end.

(** [open(p, 'wb')]: creates or truncates, an existing file keeps its mode. *)
Definition open_wb (p : FsPath) (s : FS) : FS :=
  match s !! p with
  | Some f => <[p := mkFile [] (mode f)]> s
  | None => <[p := mkFile [] 420]> s
  end.

Definition write_block (p : FsPath) (b : list byte) (s : FS) : FS :=
  match s !! p with
  | Some f => <[p := mkFile (data f ++ b) (mode f)]> s
  | None => s
  end.

(** [shutil.move(src, dst)] where it is [os.rename]: the destination gets
    the whole file in one step.  This is the move within one volume.  The
    temp file is made in the system temp directory ([mkstemp] is given no
    [dir], line 241); when that is on another volume than the destination
    [shutil.move] copies instead, and that case is not modelled: every
    statement about the destination below is about a move that is a
    rename. *)
Definition move (src dst : FsPath) (s : FS) : FS :=
  match s !! src with
  | Some f => <[dst := f]> (delete src s)
  | None => s
  end.

Definition chmod (p : FsPath) (m : Z) (s : FS) : FS :=
  match s !! p with
  | Some f => <[p := mkFile (data f) m]> s
  | None => s
  end.

(** ** What the worker can be observed to do *)

Inductive Event :=
| Progress (filepath_str status_text : string) (percent : Z)
    (* signals.progress.emit *)
| Finished (success : bool) (filepath_str error_msg : string)
    (* signals.finished.emit *)
| Printed (msg : string)
| FlagRead (b : bool)            (* one read of self.is_cancelled *)
| Attempt (url : string) (attempt : Z) (ok : bool)
    (* one pass through the body of the loop of _try_download has ended;
       ok: it returned True *)
| Slept (ms : Z)                 (* time.sleep *)
| FsNow (s : FS).                (* the file system after a change *)

(** ** The outside world of one attempt *)

(** [urllib.request.urlretrieve(url, temp_path, reporthook)]: either the
    connection cannot be opened, or the response announces [total_size]
    (-1 without Content-Length) and delivers [blocks], after which reading
    ends normally or raises. *)
Inductive Transfer :=
| OpenFails (e : string)
| Stream (total_size : Z) (blocks : list (list byte)) (ending : option string).

(** [None]: the call returns; [Some e]: it raises an exception whose
    [str] is [e]. *)
Record AttemptEnv := mkAttemptEnv {
  e_mkdir : option string;       (* filepath.parent.mkdir, line 204 *)
  e_chmod_dir : option string;   (* os.chmod(parent_dir, 0o755) *)
  e_request : option string;     (* urllib.request.Request *)
  e_mkstemp : option string;     (* tempfile.mkstemp *)
  e_transfer : Transfer;         (* urlretrieve *)
  e_remove : option string;      (* os.remove(temp_path) *)
  e_mkdir2 : option string;      (* filepath.parent.mkdir, line 266 *)
  e_move : option string;        (* shutil.move; when it raises, the file
                                    system is as it was *)
  e_chmod_file : option string;  (* os.chmod(filepath, 0o644) *)
}.

Record World := mkWorld {
  fs : FS;
  trace : list Event;
  reads : nat;   (* reads of is_cancelled so far *)
  tries : nat;   (* attempts begun so far *)
  temps : nat;   (* temporary names handed out so far *)
  now : Z;       (* time.time(), in milliseconds *)
}.

Definition emit (e : Event) (w : World) : World :=
  mkWorld (fs w) (trace w ++ [e]) (reads w) (tries w) (temps w) (now w).

Definition set_fs (s : FS) (w : World) : World :=
  mkWorld s (trace w ++ [FsNow s]) (reads w) (tries w) (temps w) (now w).

Definition sleep (ms : Z) (w : World) : World :=
  mkWorld (fs w) (trace w ++ [Slept ms]) (reads w) (tries w) (temps w)
          (now w + ms).

(** How a piece of Python ends: it returns, it raises, or (for the model of
    a [while] loop only) the fuel ran out. *)
Inductive Res (A : Type) :=
| Ok (a : A)
| Raise (e : string)
| Stuck.
Arguments Ok {A} a.
Arguments Raise {A} e.
Arguments Stuck {A}.

Record Job := mkJob {
  url : string;
  filepath : Path;
  fallback_urls : list string;
  timeout : Z;
  retry_count : Z;
}.

Definition DEFAULT_RETRY_COUNT : Z := 3.
Definition DEFAULT_TIMEOUT : Z := 30.

Definition block_size : Z := 8192.

Definition range_from_1 (n : Z) : list Z :=
  map Z.of_nat (seq 1 (Z.to_nat n)).

Section Worker.

(** The platform, the flag as the worker reads it (the n-th read of
    [self.is_cancelled] returns [flag n]) and the world of the n-th
    attempt. *)
Variables IS_LINUX IS_WINDOWS : bool.
Variable flag : nat -> bool.
Variable env : nat -> AttemptEnv.

Definition is_cancelled (w : World) : bool * World :=
  let b := flag (reads w) in
  (b, mkWorld (fs w) (trace w ++ [FlagRead b]) (S (reads w)) (tries w)
              (temps w) (now w)).

Variable job : Job.

Definition filepath_str : string := path_str (filepath job).
Definition dest : FsPath := Dest filepath_str.

(** [report_progress], the reporthook (lines 227-238). *)
Definition report_progress (u : string) (block_num total_size : Z)
           (w : World) : World * option string :=
  let '(c, w) := is_cancelled w in
  if c then (w, Some "Download cancelled by user")
  else if 0 <? total_size then
    match url_host u with
    | None => (w, Some index_error)
    | Some h =>
        let percent := Z.min (block_num * block_size * 100 / total_size) 100 in
        (emit (Progress filepath_str
                 ("Downloading from " +:+ h +:+ ": " +:+ name (filepath job))
                 percent) w, None)
    end
  else (w, None).

Fixpoint read_blocks (u : string) (tmp : FsPath) (total_size block_num : Z)
         (blocks : list (list byte)) (w : World) : World * option string :=
  match blocks with
  | [] => (w, None)
  | b :: rest =>
      let w := set_fs (write_block tmp b (fs w)) w in
      match report_progress u (block_num + 1) total_size w with
      | (w, Some e) => (w, Some e)
      | (w, None) => read_blocks u tmp total_size (block_num + 1) rest w
      end
  end.

Definition bytes_read (blocks : list (list byte)) : Z :=
  Z.of_nat (length (concat blocks)).

(** The response was shorter than its Content-Length. *)
Definition short_read (total_size : Z) (blocks : list (list byte)) : bool :=
  (0 <=? total_size) && (bytes_read blocks <? total_size).

(** [urlretrieve]: open the URL, open the file, call the hook with block
    0, then write and report block after block; a response shorter than
    announced raises at the end. *)
Definition urlretrieve (u : string) (tmp : FsPath) (t : Transfer)
           (w : World) : World * option string :=
  match t with
  | OpenFails e => (w, Some e)
  | Stream total_size blocks ending =>
      let w := set_fs (open_wb tmp (fs w)) w in
      match report_progress u 0 total_size w with
      | (w, Some e) => (w, Some e)
      | (w, None) =>
          match read_blocks u tmp total_size 0 blocks w with
          | (w, Some e) => (w, Some e)
          | (w, None) =>
              match ending with
              | Some e => (w, Some e)
              | None =>
                  if short_read total_size blocks
                  then (w, Some "retrieval incomplete")
                  else (w, None)
              end
          end
      end
  end.

(** Lines 254-258 and 287-291: remove the temp file if it is there, and
    ignore a failure to do so. *)
Definition remove_temp (a : AttemptEnv) (tmp : FsPath) (w : World) : World :=
  match fs w !! tmp with
  | Some _ =>
      match e_remove a with
      | None => set_fs (delete tmp (fs w)) w
      | Some _ => w
      end
  | None => w
  end.

(** The handler of the inner [try] (lines 285-295). *)
Definition inner_except (a : AttemptEnv) (tmp : FsPath) (e : string)
           (w : World) : World * Res bool :=
  let w := remove_temp a tmp w in
  let '(c, w) := is_cancelled w in
  if c then (w, Ok false) else (w, Raise e).

(** Lines 261-283, after the download and the check that follows it. *)
Definition verify_and_move (a : AttemptEnv) (tmp : FsPath) (w : World)
  : World * Res bool :=
  match getsize tmp (fs w) with
  | None => inner_except a tmp "No such file or directory" w
  | Some size =>
      if size =? 0 then inner_except a tmp "Downloaded file is empty" w
      else
        match e_mkdir2 a with
        | Some e => inner_except a tmp e w
        | None =>
            match e_move a with
            | Some e => inner_except a tmp e w
            | None =>
                let w := set_fs (move tmp dest (fs w)) w in
                let w :=
                  if negb IS_WINDOWS then
                    match e_chmod_file a with
                    | None => set_fs (chmod dest 420 (fs w)) w
                    | Some e =>
                        emit (Printed
                                ("Warning: Failed to set file permissions: "
                                   +:+ e)) w
                    end
                  else w in
                let '(c, w) := is_cancelled w in
                let w :=
                  if negb c then
                    emit (Finished true filepath_str "")
                      (emit (Progress filepath_str
                               ("Completed: " +:+ name (filepath job)) 100) w)
                  else w in
                (w, Ok true)
            end
        end
  end.

(** The inner [try] (lines 244-283). *)
Definition download_to_temp (u : string) (a : AttemptEnv) (tmp : FsPath)
           (w : World) : World * Res bool :=
  let '(c, w) := is_cancelled w in
  if c then (w, Ok false)
  else
    match urlretrieve u tmp (e_transfer a) w with
    | (w, Some e) => inner_except a tmp e w
    | (w, None) =>
        let '(c, w) := is_cancelled w in
        if c then (remove_temp a tmp w, Ok false)
        else verify_and_move a tmp w
    end.

(** The outer [try] of one attempt (lines 201-295). *)
Definition attempt_body (u : string) (a : AttemptEnv) (w : World)
  : World * Res bool :=
  match e_mkdir a with
  | Some e =>
      (emit (Progress filepath_str ("Error creating directories: " +:+ e) 0) w,
       Raise e)
  | None =>
      let w :=
        if IS_LINUX then
          match e_chmod_dir a with
          | None => w
          | Some e =>
              emit (Printed
                      ("Warning: Failed to set directory permissions: " +:+ e)) w
          end
        else w in
      match e_request a with
      | Some e => (w, Raise e)
      | None =>
          match e_mkstemp a with
          | Some e => (w, Raise e)
          | None =>
              let tmp := Temp (temps w) in
              let w := mkWorld (fs w) (trace w) (reads w) (tries w)
                               (S (temps w)) (now w) in
              let w := set_fs (<[tmp := mkFile [] 384]> (fs w)) w in
              download_to_temp u a tmp w
          end
      end
  end.

(** The backoff loop (lines 312-317).  [time.sleep(0.1)] is taken to last
    100 ms exactly, and nothing else to take time. *)
Fixpoint backoff_loop (fuel : nat) (start_time backoff_ms : Z) (w : World)
  : World * Res bool :=
  if now w - start_time <? backoff_ms then
    match fuel with
    | O => (w, Stuck)
    | S fuel' =>
        let '(c, w) := is_cancelled w in
        if c then (w, Ok true)
        else backoff_loop fuel' start_time backoff_ms (sleep 100 w)
    end
  else (w, Ok false).

Definition backoff (attempt : Z) (w : World) : World * Res bool :=
  let backoff_time := 2 ^ attempt in
  backoff_loop (Z.to_nat (10 * backoff_time)) (now w) (1000 * backoff_time) w.

(** The handler of the outer [try] (lines 297-323).  [Ok true]: go on with
    the next attempt; [Ok false]: [return False]. *)
Definition outer_except (u : string) (attempt max_attempts : Z) (w : World)
  : World * Res bool :=
  let '(c, w) := is_cancelled w in
  if c then (w, Ok false)
  else
    match url_host u with
    | None => (w, Raise index_error)
    | Some h =>
        if attempt <? max_attempts then
          let w :=
            emit (Progress filepath_str
                    ("Retry " +:+ pretty attempt +:+ "/" +:+ pretty max_attempts
                       +:+ " from " +:+ h +:+ ": " +:+ name (filepath job)) 0) w in
          match backoff attempt w with
          | (w, Ok true) => (w, Ok false)
          | (w, Ok false) => (w, Ok true)
          | (w, Raise e) => (w, Raise e)
          | (w, Stuck) => (w, Stuck)
          end
        else
          (emit (Progress filepath_str
                   ("Failed from " +:+ h +:+ ": " +:+ name (filepath job)) 0) w,
           Ok true)
    end.

(** The [for] loop of [_try_download] over the attempts still to make. *)
Fixpoint try_attempts (u : string) (max_attempts : Z) (todo : list Z)
         (w : World) : World * Res bool :=
  match todo with
  | [] => (w, Ok false)
  | attempt :: rest =>
      let '(c, w) := is_cancelled w in
      if c then (w, Ok false)
      else
        let a := env (tries w) in
        let w := mkWorld (fs w) (trace w) (reads w) (S (tries w)) (temps w)
                         (now w) in
        match attempt_body u a w with
        | (w, Ok b) => (emit (Attempt u attempt b) w, Ok b)
        | (w, Stuck) => (w, Stuck)
        | (w, Raise e) =>
            match outer_except u attempt max_attempts
                    (emit (Attempt u attempt false) w) with
            | (w, Ok true) => try_attempts u max_attempts rest w
            | (w, r) => (w, r)
            end
        end
  end.

Definition _try_download (u : string) (max_attempts : Z) (w : World)
  : World * Res bool :=
  try_attempts u max_attempts (range_from_1 max_attempts) w.

Definition cancelled_msg : Event :=
  Progress filepath_str ("Download cancelled: " +:+ name (filepath job)) 0.

(** The loop over the fallback URLs (lines 174-181).  [Ok true]: [run]
    returns from inside the loop; [Ok false]: the loop is over. *)
Fixpoint try_fallbacks (urls : list string) (w : World) : World * Res bool :=
  match urls with
  | [] => (w, Ok false)
  | fallback_url :: rest =>
      let '(c, w) := is_cancelled w in
      if c then (emit cancelled_msg w, Ok true)
      else
        match _try_download fallback_url 1 w with
        | (w, Ok true) => (w, Ok true)
        | (w, Ok false) => try_fallbacks rest w
        | (w, r) => (w, r)
        end
  end.

(** The body of the [try] of [run] (lines 152-186). *)
Definition run_body (w : World) : World * Res unit :=
  let w := emit (Progress filepath_str
                   ("Starting download: " +:+ name (filepath job)) 0) w in
  let '(c, w) := is_cancelled w in
  if c then (emit cancelled_msg w, Ok tt)
  else
    match _try_download (url job) (retry_count job) w with
    | (w, Ok true) => (w, Ok tt)
    | (w, Raise e) => (w, Raise e)
    | (w, Stuck) => (w, Stuck)
    | (w, Ok false) =>
        let '(c, w) := is_cancelled w in
        if c then (emit cancelled_msg w, Ok tt)
        else
          let after_fallbacks :=
            match fallback_urls job with
            | [] => (w, Ok false)
            | _ :: _ =>
                try_fallbacks (fallback_urls job)
                  (emit (Progress filepath_str
                           ("Primary URL failed, trying alternatives for: "
                              +:+ name (filepath job)) 0) w)
            end in
          match after_fallbacks with
          | (w, Ok true) => (w, Ok tt)
          | (w, Raise e) => (w, Raise e)
          | (w, Stuck) => (w, Stuck)
          | (w, Ok false) =>
              let '(c, w) := is_cancelled w in
              if negb c then
                (emit (Finished false filepath_str "All download URLs failed")
                   (emit (Progress filepath_str
                            ("All URLs failed for: " +:+ name (filepath job))
                            0) w), Ok tt)
              else (w, Ok tt)
          end
    end.

(** [DownloadWorker.run] (lines 148-191). *)
Definition run (w : World) : World * Res unit :=
  match run_body w with
  | (w, Raise e) =>
      let '(c, w) := is_cancelled w in
      if negb c then
        (emit (Finished false filepath_str ("Thread error: " +:+ e))
           (emit (Progress filepath_str
                    ("Error in download thread: " +:+ name (filepath job)) 0)
              w), Ok tt)
      else (w, Ok tt)
  | (w, r) => (w, r)
  end.

End Worker.

(** ** The session controller: the bookkeeping of [BBCSoundDownloaderGUI]

    Labels and progress bars are left out.  What the window does to the
    outside (log lines, message boxes, runnables handed to the thread pool)
    is appended to [gui_trace]. *)

(** A sample is the tuple [(url, filepath, fallback_urls)]. *)
Definition Sample : Type := string * Path * list string.

(** A [DownloadWorker] object: its job and its [is_cancelled] attribute. *)
Record Worker := mkWorker { w_job : Job; w_is_cancelled : bool }.

Definition new_worker (u : string) (p : Path) (fallbacks : list string)
           (retry : Z) : Worker :=
  mkWorker (mkJob u p fallbacks DEFAULT_TIMEOUT retry) false.

Definition cancel (w : Worker) : Worker := mkWorker (w_job w) true.

(** A [QSpinBox]: the value stays within the range. *)
Record SpinBox := mkSpin {
  sb_minimum : Z; sb_maximum : Z; sb_value : Z; sb_enabled : bool }.

Definition setValue (v : Z) (sb : SpinBox) : SpinBox :=
  mkSpin (sb_minimum sb) (sb_maximum sb)
         (Z.max (sb_minimum sb) (Z.min v (sb_maximum sb))) (sb_enabled sb).

Definition setEnabled (b : bool) (sb : SpinBox) : SpinBox :=
  mkSpin (sb_minimum sb) (sb_maximum sb) (sb_value sb) b.

Definition DEFAULT_THREAD_COUNT : Z := 5.

Inductive GuiEvent :=
| Log (msg : string)                          (* log_message *)
| MessageBox (kind title text : string)       (* QMessageBox *)
| PoolStart (w : Worker)                      (* thread_pool.start(worker) *)
| AllDone (finished failed : Z).
    (* downloads_completed got past its guard *)

Record GUI := mkGUI {
  samples : list Sample;
  total_count : Z;
  finished_count : Z;
  failed_count : Z;
  active_downloads : gmap string Worker;
  is_shutting_down : bool;
  thread_spinbox : SpinBox;
  retry_spinbox : SpinBox;
  start_button : bool;
  stop_button : bool;
  max_thread_count : Z;            (* of the QThreadPool *)
  download_results_queue : list (bool * string * string);
  gui_trace : list GuiEvent;
}.

(** [__init__] and [init_ui]. *)
Definition init_gui : GUI :=
  mkGUI [] 0 0 0 ∅ false
        (mkSpin 1 20 DEFAULT_THREAD_COUNT true)
        (mkSpin 1 10 DEFAULT_RETRY_COUNT true)
        false false 0 [] [].

Definition set_samples (l : list Sample) (g : GUI) : GUI :=
  mkGUI l (total_count g) (finished_count g) (failed_count g)
        (active_downloads g) (is_shutting_down g) (thread_spinbox g)
        (retry_spinbox g) (start_button g) (stop_button g)
        (max_thread_count g) (download_results_queue g) (gui_trace g).

Definition set_total (n : Z) (g : GUI) : GUI :=
  mkGUI (samples g) n (finished_count g) (failed_count g)
        (active_downloads g) (is_shutting_down g) (thread_spinbox g)
        (retry_spinbox g) (start_button g) (stop_button g)
        (max_thread_count g) (download_results_queue g) (gui_trace g).

Definition set_counts (fin fail : Z) (g : GUI) : GUI :=
  mkGUI (samples g) (total_count g) fin fail
        (active_downloads g) (is_shutting_down g) (thread_spinbox g)
        (retry_spinbox g) (start_button g) (stop_button g)
        (max_thread_count g) (download_results_queue g) (gui_trace g).

Definition set_active (m : gmap string Worker) (g : GUI) : GUI :=
  mkGUI (samples g) (total_count g) (finished_count g) (failed_count g)
        m (is_shutting_down g) (thread_spinbox g)
        (retry_spinbox g) (start_button g) (stop_button g)
        (max_thread_count g) (download_results_queue g) (gui_trace g).

Definition set_shutting_down (b : bool) (g : GUI) : GUI :=
  mkGUI (samples g) (total_count g) (finished_count g) (failed_count g)
        (active_downloads g) b (thread_spinbox g)
        (retry_spinbox g) (start_button g) (stop_button g)
        (max_thread_count g) (download_results_queue g) (gui_trace g).

Definition set_thread_spinbox (sb : SpinBox) (g : GUI) : GUI :=
  mkGUI (samples g) (total_count g) (finished_count g) (failed_count g)
        (active_downloads g) (is_shutting_down g) sb
        (retry_spinbox g) (start_button g) (stop_button g)
        (max_thread_count g) (download_results_queue g) (gui_trace g).

Definition set_retry_spinbox (sb : SpinBox) (g : GUI) : GUI :=
  mkGUI (samples g) (total_count g) (finished_count g) (failed_count g)
        (active_downloads g) (is_shutting_down g) (thread_spinbox g)
        sb (start_button g) (stop_button g)
        (max_thread_count g) (download_results_queue g) (gui_trace g).

Definition set_start_button (b : bool) (g : GUI) : GUI :=
  mkGUI (samples g) (total_count g) (finished_count g) (failed_count g)
        (active_downloads g) (is_shutting_down g) (thread_spinbox g)
        (retry_spinbox g) b (stop_button g)
        (max_thread_count g) (download_results_queue g) (gui_trace g).

Definition set_stop_button (b : bool) (g : GUI) : GUI :=
  mkGUI (samples g) (total_count g) (finished_count g) (failed_count g)
        (active_downloads g) (is_shutting_down g) (thread_spinbox g)
        (retry_spinbox g) (start_button g) b
        (max_thread_count g) (download_results_queue g) (gui_trace g).

Definition setMaxThreadCount (n : Z) (g : GUI) : GUI :=
  mkGUI (samples g) (total_count g) (finished_count g) (failed_count g)
        (active_downloads g) (is_shutting_down g) (thread_spinbox g)
        (retry_spinbox g) (start_button g) (stop_button g)
        n (download_results_queue g) (gui_trace g).

Definition set_queue (q : list (bool * string * string)) (g : GUI) : GUI :=
  mkGUI (samples g) (total_count g) (finished_count g) (failed_count g)
        (active_downloads g) (is_shutting_down g) (thread_spinbox g)
        (retry_spinbox g) (start_button g) (stop_button g)
        (max_thread_count g) q (gui_trace g).

Definition gui_emit (e : GuiEvent) (g : GUI) : GUI :=
  mkGUI (samples g) (total_count g) (finished_count g) (failed_count g)
        (active_downloads g) (is_shutting_down g) (thread_spinbox g)
        (retry_spinbox g) (start_button g) (stop_button g)
        (max_thread_count g) (download_results_queue g) (gui_trace g ++ [e]).

Definition log_message (msg : string) (g : GUI) : GUI := gui_emit (Log msg) g.

(** The four lines "Reset UI" that end a run. *)
Definition reset_ui (g : GUI) : GUI :=
  set_retry_spinbox (setEnabled true (retry_spinbox g))
    (set_thread_spinbox (setEnabled true (thread_spinbox g))
       (set_stop_button false (set_start_button true g))).

(** The URLs [load_csv_data] builds from the [location] column. *)
Definition primary_url (location : string) : string :=
  "https://sound-effects.bbcrewind.co.uk/assets/" +:+ location.

Definition fallbacks_of (location : string) : list string :=
  [ "https://sound-effects.bbcrewind.co.uk/" +:+ location;
    "http://bbcsfx.acropolis.org.uk/assets/" +:+ location ].

Definition sample_of (row : Path * string) : Sample :=
  (primary_url (snd row), fst row, fallbacks_of (snd row)).

(** [load_csv_data], from the rows it decides to download on (the CSV
    reader, the sanitizing of names and the test for files that exist are
    outside): each row is the destination path and the [location]. *)
Definition load_csv_data (rows : list (Path * string)) (g : GUI) : GUI :=
  let g := set_samples (map sample_of rows) g in
  let g := set_total (Z.of_nat (length (samples g))) g in
  if 0 <? total_count g then
    set_start_button true
      (log_message ("Found " +:+ pretty (total_count g)
                      +:+ " samples to download") g)
  else
    set_start_button false (log_message "No new samples to download" g).

(** The loop of [start_next_downloads] (lines 917-945), [n] passes left.
    The second component is the exception that ends it, if any. *)
Fixpoint launch (n : nat) (g : GUI) : GUI * option string :=
  match n with
  | O => (g, None)
  | S n' =>
      if is_shutting_down g then (g, None)
      else
        match samples g with
        | [] => (g, None)
        | (u, p, fallbacks) :: rest =>
            let g := set_samples rest g in
            let worker :=
              new_worker u p fallbacks (sb_value (retry_spinbox g)) in
            let g := set_active (<[path_str p := worker]> (active_downloads g)) g in
            match url_host u with
            | None => (g, Some index_error)
            | Some h =>
                let g := log_message ("Starting download: " +:+ name p
                                        +:+ " from " +:+ h) g in
                launch n' (gui_emit (PoolStart worker) g)
            end
        end
  end.

Definition available_threads (g : GUI) : Z :=
  sb_value (thread_spinbox g) - Z.of_nat (size (active_downloads g)).

Definition start_next_downloads (g : GUI) : GUI * option string :=
  if is_shutting_down g then (g, None)
  else
    launch (Z.to_nat (Z.min (available_threads g)
                           (Z.of_nat (length (samples g))))) g.

Definition newline : string := String (ascii_of_nat 10) EmptyString.

Definition downloads_completed (g : GUI) : GUI :=
  if is_shutting_down g then g
  else
    let g := gui_emit (AllDone (finished_count g) (failed_count g)) g in
    let g := log_message ("All downloads completed: "
                            +:+ pretty (finished_count g) +:+ " successful, "
                            +:+ pretty (failed_count g) +:+ " failed") g in
    let g := reset_ui g in
    if 0 <? finished_count g then
      if failed_count g =? 0 then
        gui_emit (MessageBox "information" "Downloads Complete"
                    ("All " +:+ pretty (finished_count g)
                       +:+ " downloads completed successfully.")) g
      else
        gui_emit (MessageBox "warning" "Downloads Complete"
                    ("Downloads completed with " +:+ pretty (failed_count g)
                       +:+ " failures." +:+ newline
                       +:+ pretty (finished_count g)
                       +:+ " files were downloaded successfully.")) g
    else g.

(** [os.path.basename]. *)
Definition basename (s : string) : string :=
  List.last (split_slash s) EmptyString.

(** The first half of [handle_download_result] (lines 819-828): count the
    result, log it, take the job off the active set. *)
Definition record_result (success : bool) (fp error_msg : string) (g : GUI)
  : GUI :=
  let g :=
    if success then
      log_message ("Download completed: " +:+ basename fp)
        (set_counts (finished_count g + 1) (failed_count g) g)
    else
      log_message ("Download failed: " +:+ basename fp +:+ " - " +:+ error_msg)
        (set_counts (finished_count g) (failed_count g + 1) g) in
  match active_downloads g !! fp with
  | Some _ => set_active (delete fp (active_downloads g)) g
  | None => g
  end.

Definition handle_download_result (success : bool) (fp error_msg : string)
           (g : GUI) : GUI * option string :=
  if is_shutting_down g then (g, None)
  else
    let g := record_result success fp error_msg g in
    let completed := finished_count g + failed_count g in
    match start_next_downloads g with
    | (g, Some e) => (g, Some e)
    | (g, None) =>
        if bool_decide (active_downloads g = ∅) && (completed =? total_count g)
        then (downloads_completed g, None)
        else (g, None)
    end.

(** [download_finished], the slot of the [finished] signal. *)
Definition download_finished (success : bool) (fp error_msg : string)
           (g : GUI) : GUI :=
  if is_shutting_down g then g
  else set_queue (download_results_queue g ++ [(success, fp, error_msg)]) g.

(** The loop of [process_download_queue], [n] passes left. *)
Fixpoint drain (n : nat) (g : GUI) : GUI :=
  match n with
  | O => g
  | S n' =>
      match download_results_queue g with
      | [] => g
      | (success, fp, error_msg) :: rest =>
          match handle_download_result success fp error_msg (set_queue rest g) with
          | (g, None) => drain n' g
          | (g, Some e) =>
              log_message ("Error processing download queue: " +:+ e) g
          end
      end
  end.

Definition process_download_queue (g : GUI) : GUI :=
  if is_shutting_down g then g else drain 10 g.

(** [start_downloads]; [mkdir] is what creating the output directory does
    ([None]: it works). *)
Definition start_downloads (mkdir : option string) (g : GUI)
  : GUI * option string :=
  match samples g with
  | [] => (log_message "No samples to download" g, None)
  | _ :: _ =>
      let g := set_retry_spinbox (setEnabled false (retry_spinbox g))
                 (set_thread_spinbox (setEnabled false (thread_spinbox g))
                    (set_stop_button true (set_start_button false g))) in
      let g := set_active ∅ (set_counts 0 0 g) in
      let g := setMaxThreadCount (sb_value (thread_spinbox g)) g in
      match mkdir with
      | Some e =>
          let error_msg := "Error creating output directory: " +:+ e in
          let g := gui_emit (MessageBox "critical" "Error" error_msg)
                     (log_message error_msg g) in
          (reset_ui g, None)
      | None =>
          let g := log_message ("Starting downloads with up to "
                                  +:+ pretty (sb_value (thread_spinbox g))
                                  +:+ " threads") g in
          start_next_downloads g
      end
  end.

(** [stop_downloads]; [reply]: the user confirms. *)
Definition stop_downloads (reply : bool) (g : GUI) : GUI :=
  if reply then
    let g := log_message "Stopping all downloads..." g in
    let g := set_active (cancel <$> active_downloads g) g in
    let g := set_samples [] g in
    let g := reset_ui g in
    log_message "All downloads stopped" g
  else g.

(** [closeEvent]; [reply]: the user confirms leaving. *)
Definition closeEvent (reply : bool) (g : GUI) : GUI :=
  let g := set_shutting_down true g in
  if bool_decide (active_downloads g = ∅) then g
  else if reply then set_active (cancel <$> active_downloads g) g
       else set_shutting_down false g.

(** The user turns a spin box: nothing happens while it is disabled. *)
Definition user_sets_threads (v : Z) (g : GUI) : GUI :=
  if sb_enabled (thread_spinbox g)
  then set_thread_spinbox (setValue v (thread_spinbox g)) g else g.

Definition user_sets_retries (v : Z) (g : GUI) : GUI :=
  if sb_enabled (retry_spinbox g)
  then set_retry_spinbox (setValue v (retry_spinbox g)) g else g.

(** ** Observations on a trace *)

(** The world a worker starts in: a file system, a clock, nothing read or
    tried yet. *)
Definition init_world (s : FS) (t : Z) : World := mkWorld s [] 0 0 0 t.

Definition finished_of (tr : list Event) : list (bool * string * string) :=
  omap (fun e => match e with
                 | Finished b p m => Some (b, p, m)
                 | _ => None
                 end) tr.

Definition attempts_of (tr : list Event) : list (string * Z * bool) :=
  omap (fun e => match e with
                 | Attempt u k ok => Some (u, k, ok)
                 | _ => None
                 end) tr.

Definition sleeps_of (tr : list Event) : list Z :=
  omap (fun e => match e with Slept ms => Some ms | _ => None end) tr.

Definition snapshots_of (tr : list Event) : list FS :=
  omap (fun e => match e with FsNow s => Some s | _ => None end) tr.

(** ** What makes an attempt succeed *)

(** The hook can format its message: it only does so when the response
    announces a positive size. *)
Definition hook_ok (u : string) (total_size : Z) : bool :=
  negb (0 <? total_size) || bool_decide (is_Some (url_host u)).

(** The transfer completes: everything up to and including [urlretrieve]
    returns. *)
Definition transfer_completes (u : string) (a : AttemptEnv) : bool :=
  match e_mkdir a, e_request a, e_mkstemp a, e_transfer a with
  | None, None, None, Stream total_size blocks None =>
      hook_ok u total_size && negb (short_read total_size blocks)
  | _, _, _, _ => false
  end.

(** The bytes a transfer delivers. *)
Definition downloaded (a : AttemptEnv) : list byte :=
  match e_transfer a with
  | Stream _ blocks _ => concat blocks
  | OpenFails _ => []
  end.

Definition file_nonempty (a : AttemptEnv) : bool :=
  negb (Z.of_nat (length (downloaded a)) =? 0).

(** The steps after the verification: the second [mkdir] and the move. *)
Definition moved (a : AttemptEnv) : bool :=
  match e_mkdir2 a, e_move a with
  | None, None => true
  | _, _ => false
  end.

(** The reads of the flag between the creation of the temp file and the
    verification: line 246, the hook before and after each block, line 253. *)
Definition reads_in_flight (a : AttemptEnv) : nat :=
  match e_transfer a with
  | Stream _ blocks _ => (3 + length blocks)%nat
  | OpenFails _ => 1%nat
  end.

(** The flag is not seen set by the [n] reads from read [from] on. *)
Definition unset_during (flag : nat -> bool) (from n : nat) : Prop :=
  forall i, (i < n)%nat -> flag (from + i)%nat = false.

Definition never_set (flag : nat -> bool) : Prop := forall n, flag n = false.

(** Once set the flag stays set: nothing in the program resets it. *)
Definition stays_set (flag : nat -> bool) : Prop :=
  forall n, flag n = true -> flag (S n) = true.

Definition attempt_ok (u : string) (a : AttemptEnv) : bool :=
  transfer_completes u a && file_nonempty a && moved a.

(** The attempts [run] would make if none succeeded, in order. *)
Definition schedule (j : Job) : list (string * Z) :=
  map (fun k => (url j, k)) (range_from_1 (retry_count j))
  ++ map (fun u => (u, 1)) (fallback_urls j).

(** Every event of [d] is of a kind in [P], and the trace grew by [d]. *)
Definition emits (P : Event -> Prop) (w w' : World) : Prop :=
  exists d, trace w' = trace w ++ d /\ Forall P d.

Definition is_chatter (e : Event) : Prop :=
  match e with
  | Progress _ _ _ | Printed _ | FlagRead _ | FsNow _ => True
  | _ => False
  end.

Definition not_finished (e : Event) : Prop :=
  match e with Finished _ _ _ => False | _ => True end.

Definition not_attempt (e : Event) : Prop :=
  match e with Attempt _ _ _ => False | _ => True end.

Definition not_slept (e : Event) : Prop :=
  match e with Slept _ => False | _ => True end.

Definition not_fs (e : Event) : Prop :=
  match e with FsNow _ => False | _ => True end.

Definition chatter_or_finished (e : Event) : Prop :=
  match e with
  | Progress _ _ _ | Printed _ | FlagRead _ | FsNow _ | Finished _ _ _ => True
  | _ => False
  end.

Definition chatter_or_slept (e : Event) : Prop :=
  match e with
  | Progress _ _ _ | Printed _ | FlagRead _ | FsNow _ | Slept _ => True
  | _ => False
  end.

(** [w'] comes after [w]: the trace grew by events of kind [P], no attempt
    was begun, and the counters did not go back. *)
Definition steps (P : Event -> Prop) (w w' : World) : Prop :=
  emits P w w' /\ tries w' = tries w
  /\ (reads w <= reads w')%nat /\ (temps w <= temps w')%nat.

(** The job has been delivered between [w] and [w']: the flag was read, the
    success signal went out unless the last read saw the flag set, and the
    destination holds a file that is not empty. *)
Definition delivered (flag : nat -> bool) (j : Job) (w w' : World) : Prop :=
  (reads w < reads w')%nat
  /\ finished_of (trace w') =
       finished_of (trace w)
       ++ (if flag (pred (reads w')) then []
           else [(true, filepath_str j, EmptyString)])
  /\ exists f, fs w' !! dest j = Some f /\ data f <> [].

(** The attempts made when nothing is cancelled, as the specification
    words them: go through the schedule, the i-th attempt meeting the i-th
    world, and stop at the first attempt that succeeds. *)
Fixpoint plan (env : nat -> AttemptEnv) (i : nat) (sched : list (string * Z))
  : list (string * Z * bool) :=
  match sched with
  | [] => []
  | (u, k) :: rest =>
      if attempt_ok u (env i) then [(u, k, true)]
      else (u, k, false) :: plan env (S i) rest
  end.

Definition succeeded (l : list (string * Z * bool)) : bool :=
  existsb (fun x => snd x) l.

(** One slice of the backoff: a look at the flag, then a sleep. *)
Definition slice : list Event := [FlagRead false; Slept 100].

(** Some read of the flag between [w] and [w'] saw it set. *)
Definition cancelled_between (flag : nat -> bool) (w w' : World) : Prop :=
  exists i, (reads w <= i < reads w')%nat /\ flag i = true.

(** No signal went out between [w] and [w']. *)
Definition silent (w w' : World) : Prop :=
  finished_of (trace w') = finished_of (trace w).

(** Between [w] and [w'] the failure signal went out with [msg], after a
    last read of the flag that saw it unset. *)
Definition failed_with (flag : nat -> bool) (j : Job) (msg : string)
           (w w' : World) : Prop :=
  (reads w < reads w')%nat /\ flag (pred (reads w')) = false
  /\ finished_of (trace w') =
       finished_of (trace w) ++ [(false, filepath_str j, msg)].

Definition lacks_host (j : Job) : Prop :=
  url_host (url j) = None
  \/ exists u, In u (fallback_urls j) /\ url_host u = None.

Definition has_hosts (j : Job) : Prop :=
  is_Some (url_host (url j))
  /\ forall u, In u (fallback_urls j) -> is_Some (url_host u).

Definition some_attempt_ok (env : nat -> AttemptEnv) : Prop :=
  exists u i, attempt_ok u (env i) = true.

Definition all_attempts_fail (env : nat -> AttemptEnv) : Prop :=
  forall u i, attempt_ok u (env i) = false.

(** The same world, but for what [os.chmod(filepath, 0o644)] does. *)
Definition with_chmod (x : option string) (a : AttemptEnv) : AttemptEnv :=
  mkAttemptEnv (e_mkdir a) (e_chmod_dir a) (e_request a) (e_mkstemp a)
               (e_transfer a) (e_remove a) (e_mkdir2 a) (e_move a) x.

(** What an attempt comes to: how it ends, the signals sent so far, the
    bytes at the destination, the reads of the flag made. *)
Definition outcome (j : Job) (x : World * Res bool)
  : Res bool * list (bool * string * string) * option (list byte) * nat :=
  (snd x, finished_of (trace (fst x)), data <$> (fs (fst x) !! dest j),
   reads (fst x)).

(** ** Some worlds to run the worker in *)

Definition demo_job : Job :=
  mkJob "https://sound-effects.bbcrewind.co.uk/assets/07070175.wav"
        (mkPath "/home/user/BBCSounds/Aircraft" "Jet taking off.wav")
        [ "https://sound-effects.bbcrewind.co.uk/07070175.wav";
          "http://bbcsfx.acropolis.org.uk/assets/07070175.wav" ]
        DEFAULT_TIMEOUT DEFAULT_RETRY_COUNT.

Definition demo_bytes : list (list byte) := [[x52; x49]; [x46; x46]].

(** Everything works: four bytes arrive in two blocks. *)
Definition world_ok : AttemptEnv :=
  mkAttemptEnv None None None None (Stream 4 demo_bytes None)
               None None None None.

Definition world_failing (e : string) : AttemptEnv :=
  mkAttemptEnv None None None None (OpenFails e) None None None None.

(** The download works, the move does not. *)
Definition world_no_move : AttemptEnv :=
  mkAttemptEnv None None None None (Stream 4 demo_bytes None)
               None None (Some "Permission denied") None.

(** The download and the move work, [chmod] does not. *)
Definition world_no_chmod : AttemptEnv :=
  with_chmod (Some "Operation not permitted") world_ok.

Definition flag_never : nat -> bool := fun _ => false.

(** The flag is set between read [n - 1] and read [n]. *)
Definition flag_from (n : nat) : nat -> bool := fun i => (n <=? i)%nat.

(** The first [n] attempts fail with a 404, the next ones work. *)
Definition fails_then_ok (n : nat) : nat -> AttemptEnv :=
  fun i => if (i <? n)%nat then world_failing "HTTP Error 404: Not Found"
           else world_ok.

(** The slices of 100 ms in a backoff of [2 ** attempt] seconds. *)
Definition slices_of (attempt : Z) : nat := Z.to_nat (10 * 2 ^ attempt).

(** ** Observations on the controller *)

Definition starts_of (tr : list GuiEvent) : list Worker :=
  omap (fun e => match e with PoolStart w => Some w | _ => None end) tr.

Definition all_done_of (tr : list GuiEvent) : list (Z * Z) :=
  omap (fun e => match e with AllDone a b => Some (a, b) | _ => None end) tr.

Definition boxes_of (tr : list GuiEvent) : list (string * string * string) :=
  omap (fun e => match e with
                 | MessageBox k t x => Some (k, t, x)
                 | _ => None
                 end) tr.

Definition sample_url (s : Sample) : string := fst (fst s).
Definition sample_path (s : Sample) : string := path_str (snd (fst s)).

(** The worker [start_next_downloads] makes of a sample. *)
Definition worker_of (retry : Z) (s : Sample) : Worker :=
  new_worker (sample_url s) (snd (fst s)) (snd s) retry.

(** Registering the workers of some samples in the active set, in order. *)
Definition register (retry : Z) (l : list Sample) (m : gmap string Worker)
  : gmap string Worker :=
  foldl (fun m s => <[sample_path s := worker_of retry s]> m) m l.

(** The concurrency limit is the value of the threads spin box. *)
Definition limit (g : GUI) : Z := sb_value (thread_spinbox g).

(** The sum the specification keeps equal to the total. *)
Definition aggregate (g : GUI) : Z :=
  finished_count g + failed_count g
  + Z.of_nat (size (active_downloads g)) + Z.of_nat (length (samples g)).

(** [start_downloads] locks the spin boxes, completion and stop unlock
    them: while they are locked a run is in progress. *)
Definition run_in_progress (g : GUI) : Prop :=
  sb_enabled (thread_spinbox g) = false.

Definition hosts_ok (l : list Sample) : Prop :=
  Forall (fun s => is_Some (url_host (sample_url s))) l.

(** What admission leaves alone. *)
Definition same_settings (g g' : GUI) : Prop :=
  total_count g' = total_count g
  /\ finished_count g' = finished_count g
  /\ failed_count g' = failed_count g
  /\ is_shutting_down g' = is_shutting_down g
  /\ thread_spinbox g' = thread_spinbox g
  /\ retry_spinbox g' = retry_spinbox g
  /\ start_button g' = start_button g
  /\ stop_button g' = stop_button g
  /\ max_thread_count g' = max_thread_count g
  /\ download_results_queue g' = download_results_queue g
  /\ all_done_of (gui_trace g') = all_done_of (gui_trace g)
  /\ boxes_of (gui_trace g') = boxes_of (gui_trace g).

(** Whatever can happen to the window: the user loads a list, turns a spin
    box, presses start or stop, closes the window; a worker's signal
    arrives; the timer ticks; a result is handled. *)
Inductive gui_step : GUI -> GUI -> Prop :=
| step_load rows g : gui_step g (load_csv_data rows g)
| step_threads v g : gui_step g (user_sets_threads v g)
| step_retries v g : gui_step g (user_sets_retries v g)
| step_start mkdir g : gui_step g (fst (start_downloads mkdir g))
| step_signal success fp e g : gui_step g (download_finished success fp e g)
| step_tick g : gui_step g (process_download_queue g)
| step_result success fp e g :
    gui_step g (fst (handle_download_result success fp e g))
| step_stop reply g : gui_step g (stop_downloads reply g)
| step_close reply g : gui_step g (closeEvent reply g).

Inductive reachable : GUI -> Prop :=
| reach_init : reachable init_gui
| reach_step g g' : reachable g -> gui_step g g' -> reachable g'.

(** A list has been loaded and is ready to start: it is not empty, the
    total is its length, no two samples share a destination, every URL has
    a host. *)
Definition loaded (g : GUI) : Prop :=
  samples g <> []
  /\ total_count g = Z.of_nat (length (samples g))
  /\ NoDup (map sample_path (samples g))
  /\ hosts_ok (samples g)
  /\ is_shutting_down g = false
  /\ 1 <= limit g.

(** The states of one run that is never stopped: it starts from a loaded
    list, and then results arrive, each for a job of the active set. *)
Inductive in_run (g0 : GUI) : GUI -> Prop :=
| run_started :
    loaded g0 -> in_run g0 (fst (start_downloads None g0))
| run_result g success fp e :
    in_run g0 g -> is_Some (active_downloads g !! fp) ->
    in_run g0 (fst (handle_download_result success fp e g)).

(** ** Some states of the controller *)

Definition demo_rows : list (Path * string) :=
  [ (mkPath "/home/user/BBCSounds/Aircraft" "Jet taking off.wav", "07070175.wav");
    (mkPath "/home/user/BBCSounds/Birds" "Blackbird.wav", "07070176.wav");
    (mkPath "/home/user/BBCSounds/Cars" "Door slam.wav", "07070177.wav") ].

(** One thread, three samples loaded. *)
Definition demo_loaded : GUI :=
  load_csv_data demo_rows (user_sets_threads 1 init_gui).

Definition demo_started : GUI := fst (start_downloads None demo_loaded).

Definition demo_stopped : GUI := stop_downloads true demo_started.

(** The job in flight had finished writing when stop was pressed: its
    result arrives afterwards. *)
Definition demo_late_result : GUI :=
  fst (handle_download_result true
         "/home/user/BBCSounds/Aircraft/Jet taking off.wav" "" demo_stopped).

(** What holds of the window whatever happens to it. *)
Definition gui_inv (g : GUI) : Prop :=
  sb_minimum (thread_spinbox g) = 1 /\ sb_maximum (thread_spinbox g) = 20
  /\ 1 <= limit g <= 20
  /\ hosts_ok (samples g)
  /\ (run_in_progress g ->
      Z.of_nat (size (active_downloads g)) <= limit g
      /\ max_thread_count g = limit g).

(** What holds during a run that is never stopped. *)
Definition run_inv (g : GUI) : Prop :=
  aggregate g = total_count g
  /\ NoDup (map sample_path (samples g))
  /\ (forall s, In s (samples g) -> active_downloads g !! sample_path s = None)
  /\ hosts_ok (samples g)
  /\ is_shutting_down g = false.

(** The condition under which the specification has completion fire. *)
Definition complete (g : GUI) : Prop :=
  samples g = [] /\ active_downloads g = ∅
  /\ finished_count g + failed_count g = total_count g.

(** ** The destination over time *)

(** The stream of an attempt ended normally and was as long as announced. *)
Definition transfer_ended (a : AttemptEnv) : bool :=
  match e_transfer a with
  | Stream total_size blocks None => negb (short_read total_size blocks)
  | _ => false
  end.

(** A file that some attempt downloaded whole, and that is not empty. *)
Definition whole_download (env : nat -> AttemptEnv) (f : File) : Prop :=
  exists i, transfer_ended (env i) = true
            /\ data f = downloaded (env i) /\ data f <> [].

(** The destination is as it was at the start ([d0]), or it holds a whole
    download. *)
Definition dest_fine (env : nat -> AttemptEnv) (d0 o : option File) : Prop :=
  o = d0 \/ exists f, o = Some f /\ whole_download env f.

Definition snapshot_fine (env : nat -> AttemptEnv) (j : Job)
           (d0 : option File) (e : Event) : Prop :=
  match e with
  | FsNow s => dest_fine env d0 (s !! dest j)
  | _ => True
  end.

Definition snapshot_same (j : Job) (o : option File) (e : Event) : Prop :=
  match e with
  | FsNow s => s !! dest j = o
  | _ => True
  end.

(** Between [w] and [w'] the destination was never written. *)
Definition untouched (j : Job) (w w' : World) : Prop :=
  emits (snapshot_same j (fs w !! dest j)) w w'
  /\ fs w' !! dest j = fs w !! dest j.

(** Between [w] and [w'] the destination was fine at every moment. *)
Definition fine (env : nat -> AttemptEnv) (j : Job) (d0 : option File)
           (w w' : World) : Prop :=
  emits (snapshot_fine env j d0) w w'
  /\ dest_fine env d0 (fs w' !! dest j).

(** [atts] follows the schedule and is cut short: some first attempts of
    the schedule, all failed, and then possibly the next one, a success. *)
Definition cut_short (sched : list (string * Z))
           (atts : list (string * Z * bool)) : Prop :=
  exists n,
    atts = map (fun x => (x, false)) (take n sched)
    \/ exists x, sched !! n = Some x
                 /\ atts = map (fun x => (x, false)) (take n sched)
                           ++ [(x, true)].

(** ** Names of folders and files: [sanitize_path] (lines 783-794)

    A [str] is a [string]; its characters are the 256 of [ascii], read as
    the code points below 256. *)

Definition code (c : ascii) : Z := Z.of_N (N_of_ascii c).

(** [str.isspace] of one character, as [str.strip] uses it. *)
Definition is_space (c : ascii) : bool :=
  let n := code c in
  ((9 <=? n) && (n <=? 13)) || ((28 <=? n) && (n <=? 32))
  || (n =? 133) || (n =? 160).

(** [s.lstrip()], [s.rstrip()] and [s.strip()]. *)
Fixpoint lstrip (s : string) : string :=
  match s with
  | EmptyString => EmptyString
  | String c s' => if is_space c then lstrip s' else s
  end.

Fixpoint rstrip (s : string) : string :=
  match s with
  | EmptyString => EmptyString
  | String c s' =>
      match rstrip s' with
      | EmptyString => if is_space c then EmptyString else String c EmptyString
      | r => String c r
      end
  end.

Definition strip (s : string) : string := lstrip (rstrip s).

(** [s.startswith('.')]. *)
Definition startswith_dot (s : string) : bool :=
  match s with
  | String c _ => Ascii.eqb c "."%char
  | EmptyString => false
  end.

(** [s[:n]]: the first [n] characters, or all but the last [-n] when [n]
    is negative. *)
Fixpoint str_take (n : nat) (s : string) : string :=
  match n, s with
  | S n', String c s' => String c (str_take n' s')
  | _, _ => EmptyString
  end.

Definition slice_to (n : Z) (s : string) : string :=
  if 0 <=? n then str_take (Z.to_nat n) s
  else str_take (Z.to_nat (Z.of_nat (String.length s) + n)) s.

Fixpoint str_map (f : ascii -> ascii) (s : string) : string :=
  match s with
  | EmptyString => EmptyString
  | String c s' => String (f c) (str_map f s')
  end.

Fixpoint str_forall (p : ascii -> bool) (s : string) : bool :=
  match s with
  | EmptyString => true
  | String c s' => p c && str_forall p s'
  end.

Section Sanitize.

Variable IS_WINDOWS : bool.

(** What [\w] says of the characters above 127 ([str.isalnum] there). *)
Variable unicode_word : ascii -> bool.

(** [\w]: letters, digits and the underscore. *)
Definition is_word (c : ascii) : bool :=
  let n := code c in
  if n <? 128 then
    ((48 <=? n) && (n <=? 57)) || ((65 <=? n) && (n <=? 90))
    || ((97 <=? n) && (n <=? 122)) || (n =? 95)
  else unicode_word c.

(** The class [\w\-&,()\. ] of the pattern. *)
Definition kept (c : ascii) : bool :=
  is_word c
  || Ascii.eqb c "-"%char || Ascii.eqb c "&"%char || Ascii.eqb c ","%char
  || Ascii.eqb c "("%char || Ascii.eqb c ")"%char || Ascii.eqb c "."%char
  || Ascii.eqb c " "%char.

(** [re.sub(r'[^\w\-&,()\. ]', '_', path)]. *)
Definition replace_bad (path : string) : string :=
  str_map (fun c => if kept c then c else "_"%char) path.

Definition sanitize_path (path : string) : string :=
  let sanitized := strip (replace_bad path) in
  if negb IS_WINDOWS then
    if startswith_dot sanitized then String "_"%char sanitized
    else sanitized
  else sanitized.

End Sanitize.

(** ** Loading the list: [load_csv_data] with its reader (lines 689-756) *)

(** A row of [csv.DictReader]: the columns of the header; a field the line
    was too short for is [None]. *)
Abbreviation Row := (gmap string (option string)).

(** What [load_csv_data] makes of one row. *)
Inductive Verdict :=
| Skipped                (* a column is missing *)
| Found                  (* the file is there already *)
| Wanted (s : Sample).

Section Load.

Variables IS_WINDOWS IS_MAC : bool.
Variable unicode_word : ascii -> bool.

(** [self.output_dir / folder / filename], and what
    [filepath.parent.exists()] and [filepath.exists()] say of it (both
    taken to return). *)
Variable joinpath : string -> string -> Path.
Variables parent_exists path_exists : Path -> bool.

(** The texts of the [TypeError]s of [re.sub] and of [+] on [None]. *)
Variables sub_error concat_error : string.

Definition DEFAULT_MAX_FILENAME_LENGTH : Z :=
  if IS_WINDOWS then 255 else if IS_MAC then 255 else 143.

(** Lines 716-718. *)
Definition file_name (description location : string) : string :=
  let suffix := "." +:+ location in
  let max_description_length :=
    DEFAULT_MAX_FILENAME_LENGTH - Z.of_nat (String.length suffix) in
  slice_to max_description_length
           (sanitize_path IS_WINDOWS unicode_word description)
  +:+ suffix.

(** The body of the loop over the rows (lines 710-738). *)
Definition load_row (row : Row) : Res Verdict :=
  match row !! "CDName", row !! "description", row !! "location" with
  | Some cdname, Some description, Some location =>
      match cdname with
      | None => Raise sub_error
      | Some cdname =>
          let folder := sanitize_path IS_WINDOWS unicode_word cdname in
          match location with
          | None => Raise concat_error
          | Some location =>
              match description with
              | None => Raise sub_error
              | Some description =>
                  let filepath :=
                    joinpath folder (file_name description location) in
                  if parent_exists filepath && path_exists filepath
                  then Ok Found
                  else Ok (Wanted (sample_of (filepath, location)))
              end
          end
      end
  | _, _, _ => Ok Skipped
  end.

(** The loop: [found_files] is counted, [self.samples] grows. *)
Fixpoint load_rows (rows : list Row) (found_files : Z) (g : GUI)
  : GUI * Res Z :=
  match rows with
  | [] => (g, Ok found_files)
  | row :: rest =>
      match load_row row with
      | Ok Skipped => load_rows rest found_files g
      | Ok Found => load_rows rest (found_files + 1) g
      | Ok (Wanted s) =>
          load_rows rest found_files (set_samples (samples g ++ [s]) g)
      | Raise e => (g, Raise e)
      | Stuck => (g, Stuck)
      end
  end.

(** [load_csv_data].  [csv_file_path] is the file chosen, if any, and
    [csv_exists] whether it is there; the reader yields [rows] and then
    ends, or raises [read_error] (a file that cannot be opened raises
    before the first row). *)
Definition load_csv_data_from (csv_file_path : option string)
           (csv_exists : bool) (rows : list Row)
           (read_error : option string) (g : GUI) : GUI :=
  match csv_file_path with
  | None =>
      gui_emit (MessageBox "warning" "No CSV File"
                  "Please select a CSV file first.") g
  | Some path =>
      if negb csv_exists then
        gui_emit (MessageBox "critical" "File Not Found"
                    ("The file " +:+ path +:+ " does not exist.")) g
      else
        let g := set_samples [] g in
        let g := log_message ("Loading sample list from " +:+ path) g in
        let '(g, r) := load_rows rows 0 g in
        let r := match r, read_error with
                 | Ok _, Some e => Raise e
                 | _, _ => r
                 end in
        match r with
        | Ok found_files =>
            let g := set_total (Z.of_nat (length (samples g))) g in
            let skip_msg :=
              if 0 <? found_files
              then " (Skipping " +:+ pretty found_files +:+ " existing files)"
              else "" in
            if 0 <? total_count g then
              set_start_button true
                (log_message ("Found " +:+ pretty (total_count g)
                                +:+ " samples to download" +:+ skip_msg) g)
            else
              set_start_button false
                (log_message ("No new samples to download" +:+ skip_msg) g)
        | Raise e =>
            let error_msg := "Failed to load samples: " +:+ e in
            gui_emit (MessageBox "critical" "Error" error_msg)
                     (log_message error_msg g)
        | Stuck => g
        end
  end.

End Load.

(** The rows a load queues, as destination and location, in order. *)
Definition wanted (l : list (Res Verdict)) : list Sample :=
  omap (fun v => match v with Ok (Wanted s) => Some s | _ => None end) l.

(** The rows whose file was there already. *)
Definition is_found (v : Res Verdict) : bool :=
  match v with Ok Found => true | _ => false end.

Definition found (l : list (Res Verdict)) : Z :=
  Z.of_nat (length (List.filter is_found l)).

(** No row raises. *)
Definition all_read (l : list (Res Verdict)) : Prop :=
  Forall (fun v => exists x, v = Ok x) l.

(** ** The queue of results *)

(** One result taken off the queue and handled. *)
Definition handled (g : GUI) (r : bool * string * string) : GUI :=
  fst (handle_download_result (fst (fst r)) (snd (fst r)) (snd r) g).

(** ** After the window is closed *)

(** What can still reach the window from the workers and the timer. *)
Inductive arrives : GUI -> GUI -> Prop :=
| arrives_signal success fp e g :
    arrives g (download_finished success fp e g)
| arrives_tick g : arrives g (process_download_queue g)
| arrives_result success fp e g :
    arrives g (fst (handle_download_result success fp e g))
| arrives_refill g : arrives g (fst (start_next_downloads g))
| arrives_completed g : arrives g (downloads_completed g).

Inductive arrivals : GUI -> GUI -> Prop :=
| arrivals_none g : arrivals g g
| arrivals_more g g' g'' : arrivals g g' -> arrives g' g'' -> arrivals g g''.

(** ** More observations on the worker *)

(** A signal names the job and is well formed: a progress carries a
    percentage, a success carries no error text. *)
Definition ev_ok (j : Job) (e : Event) : Prop :=
  match e with
  | Progress p _ percent => p = filepath_str j /\ 0 <= percent <= 100
  | Finished success p msg =>
      p = filepath_str j /\ (success = true -> msg = EmptyString)
  | _ => True
  end.

(** No temporary file is on disk. *)
Definition clean (s : FS) : Prop := forall k, s !! Temp k = None.

(** One temporary file is on disk, as [mkstemp] made it. *)
Definition one_temp (s : FS) : Prop :=
  exists k, s !! Temp k = Some (mkFile [] 384)
            /\ forall k', k' <> k -> s !! Temp k' = None.

Definition remove_works (env : nat -> AttemptEnv) : Prop :=
  forall i, e_remove (env i) = None.

(** The longest the handler of a failed attempt can sleep, in ms, summed
    over the attempts of one URL. *)
Fixpoint wait_bound (max_attempts : Z) (todo : list Z) : Z :=
  match todo with
  | [] => 0
  | attempt :: rest =>
      (if attempt <? max_attempts then 1000 * 2 ^ attempt else 0)
      + wait_bound max_attempts rest
  end.

(** ** The host of a URL *)

Fixpoint count_slash (s : string) : nat :=
  match s with
  | EmptyString => 0
  | String c s' => (if Ascii.eqb c slash then 1 else 0) + count_slash s'
  end.

Definition no_slash (s : string) : Prop := count_slash s = 0%nat.


(** ** A list to load *)

(** The output directory of the examples. *)
Definition demo_joinpath (folder filename : string) : Path :=
  mkPath ("/home/user/BBCSounds/" +:+ folder) filename.

(** One file of the list is on disk already. *)
Definition demo_exists (p : Path) : bool :=
  String.eqb (name p) "Blackbird.07070176.wav".

Definition demo_row (cdname description location : option string) : Row :=
  {[ "CDName" := cdname; "description" := description;
     "location" := location ]}.

Definition row_jet : Row :=
  demo_row (Some "Aircraft") (Some "Jet taking off") (Some "07070175.wav").

Definition row_blackbird : Row :=
  demo_row (Some "Birds") (Some "Blackbird") (Some "07070176.wav").

(** A list with no [location] column. *)
Definition row_no_location : Row :=
  {[ "CDName" := Some "Cars"; "description" := Some "Door slam" ]}.

(** A line too short for its description. *)
Definition row_short : Row :=
  demo_row (Some "Cars") None (Some "07070177.wav").

Definition demo_load (rows : list Row) (read_error : option string)
           (g : GUI) : GUI :=
  load_csv_data_from false false (fun _ => false) demo_joinpath
    (fun _ => true) demo_exists
    "expected string or bytes-like object"
    "can only concatenate str (not NoneType) to str"
    (Some "/home/user/BBCSoundEffects.csv") true rows read_error g.

Definition demo_load_row : Row -> Res Verdict :=
  load_row false false (fun _ => false) demo_joinpath
    (fun _ => true) demo_exists
    "expected string or bytes-like object"
    "can only concatenate str (not NoneType) to str".

(** The first result of the run is in: the signal has arrived. *)
Definition demo_signalled : GUI :=
  download_finished true "/home/user/BBCSounds/Aircraft/Jet taking off.wav"
                    "" demo_started.

(** ** The message at the end of a run *)

(** The box [downloads_completed] shows (lines 965-979). *)
Definition completion_box (finished failed : Z)
  : list (string * string * string) :=
  if 0 <? finished then
    if failed =? 0 then
      [("information", "Downloads Complete",
        "All " +:+ pretty finished +:+ " downloads completed successfully.")]
    else
      [("warning", "Downloads Complete",
        "Downloads completed with " +:+ pretty failed +:+ " failures."
          +:+ newline +:+ pretty finished
          +:+ " files were downloaded successfully.")]
  else [].

(** * Facts about the worker *)

(** ** Strings *)

Lemma split_slash_cons (s : string) :
  exists h t, split_slash s = h :: t.
Proof.
  induction s as [|c s [h [t IH]]]; simpl; [eauto|].
  destruct (Ascii.eqb c slash); [eauto|]. rewrite IH. eauto.
Qed.

(** The URLs [load_csv_data] builds all have a host in third place. *)
Lemma primary_url_host (location : string) :
  url_host (primary_url location) = Some "sound-effects.bbcrewind.co.uk".
Proof. reflexivity. Qed.

Lemma fallbacks_host (location u : string) :
  In u (fallbacks_of location) -> is_Some (url_host u).
Proof.
  unfold fallbacks_of. simpl. intros [<-|[<-|[]]]; unfold url_host; simpl; eauto.
Qed.

(** ** Growing traces *)

Lemma emits_refl P w : emits P w w.
Proof. exists []. split; [by rewrite app_nil_r | constructor]. Qed.

Lemma emits_trans P w1 w2 w3 : emits P w1 w2 -> emits P w2 w3 -> emits P w1 w3.
Proof.
  intros [d1 [E1 F1]] [d2 [E2 F2]]. exists (d1 ++ d2). split.
  - by rewrite E2, E1, app_assoc.
  - by apply Forall_app.
Qed.

Lemma emits_weaken (P Q : Event -> Prop) w w' :
  (forall e, P e -> Q e) -> emits P w w' -> emits Q w w'.
Proof.
  intros HPQ [d [E F]]. exists d. split; [done|].
  eapply Forall_impl; eauto.
Qed.

Lemma emits_emit (P : Event -> Prop) e w : P e -> emits P w (emit e w).
Proof. intros. exists [e]. split; [done | by constructor]. Qed.

Lemma emits_set_fs (P : Event -> Prop) s w : P (FsNow s) -> emits P w (set_fs s w).
Proof. intros. exists [FsNow s]. split; [done | by constructor]. Qed.

Lemma emits_sleep (P : Event -> Prop) ms w : P (Slept ms) -> emits P w (sleep ms w).
Proof. intros. exists [Slept ms]. split; [done | by constructor]. Qed.

Lemma omap_none {A B} (f : A -> option B) (d : list A) :
  Forall (fun x => f x = None) d -> omap f d = [].
Proof. induction 1 as [|x d Hx _ IH]; csimpl; [done|]. by rewrite Hx. Qed.

Lemma emits_finished w w' :
  emits not_finished w w' -> finished_of (trace w') = finished_of (trace w).
Proof.
  intros [d [E F]]. rewrite E. unfold finished_of. rewrite omap_app.
  rewrite (omap_none _ d); [by rewrite app_nil_r|].
  eapply Forall_impl; [exact F|]. by intros [].
Qed.

Lemma emits_attempts w w' :
  emits not_attempt w w' -> attempts_of (trace w') = attempts_of (trace w).
Proof.
  intros [d [E F]]. rewrite E. unfold attempts_of. rewrite omap_app.
  rewrite (omap_none _ d); [by rewrite app_nil_r|].
  eapply Forall_impl; [exact F|]. by intros [].
Qed.

Lemma emits_sleeps w w' :
  emits not_slept w w' -> sleeps_of (trace w') = sleeps_of (trace w).
Proof.
  intros [d [E F]]. rewrite E. unfold sleeps_of. rewrite omap_app.
  rewrite (omap_none _ d); [by rewrite app_nil_r|].
  eapply Forall_impl; [exact F|]. by intros [].
Qed.

Lemma emits_snapshots w w' :
  emits not_fs w w' -> snapshots_of (trace w') = snapshots_of (trace w).
Proof.
  intros [d [E F]]. rewrite E. unfold snapshots_of. rewrite omap_app.
  rewrite (omap_none _ d); [by rewrite app_nil_r|].
  eapply Forall_impl; [exact F|]. by intros [].
Qed.

Ltac solve_emits :=
  eexists; split;
  [ simpl; rewrite <- ?app_assoc; reflexivity
  | repeat constructor; simpl; auto ].

Ltac solve_steps :=
  split; [solve_emits | simpl; repeat split; lia].

Lemma steps_refl P w : steps P w w.
Proof. split; [apply emits_refl | repeat split; lia]. Qed.

Lemma steps_trans P w1 w2 w3 : steps P w1 w2 -> steps P w2 w3 -> steps P w1 w3.
Proof.
  intros (E1 & T1 & R1 & M1) (E2 & T2 & R2 & M2).
  split; [eapply emits_trans; eauto | repeat split; lia].
Qed.

Lemma steps_weaken (P Q : Event -> Prop) w w' :
  (forall e, P e -> Q e) -> steps P w w' -> steps Q w w'.
Proof. intros HPQ (E & T). split; [eapply emits_weaken; eauto | done]. Qed.

Lemma chatter_finished e : is_chatter e -> chatter_or_finished e.
Proof. by destruct e. Qed.

Lemma chatter_slept e : is_chatter e -> chatter_or_slept e.
Proof. by destruct e. Qed.

Lemma chatter_not_finished e : is_chatter e -> not_finished e.
Proof. by destruct e. Qed.

Lemma chatter_not_attempt e : is_chatter e -> not_attempt e.
Proof. by destruct e. Qed.

Lemma chatter_not_slept e : is_chatter e -> not_slept e.
Proof. by destruct e. Qed.

Lemma chatter_or_finished_not_attempt e : chatter_or_finished e -> not_attempt e.
Proof. by destruct e. Qed.

Lemma chatter_or_finished_not_slept e : chatter_or_finished e -> not_slept e.
Proof. by destruct e. Qed.

Lemma chatter_or_slept_not_attempt e : chatter_or_slept e -> not_attempt e.
Proof. by destruct e. Qed.

Lemma chatter_or_slept_not_finished e : chatter_or_slept e -> not_finished e.
Proof. by destruct e. Qed.

Lemma steps_chatter_finished w w' :
  steps is_chatter w w' -> finished_of (trace w') = finished_of (trace w).
Proof.
  intros (E & _). apply emits_finished.
  eapply emits_weaken; [apply chatter_not_finished | exact E].
Qed.

Lemma unset_at flag from n k :
  unset_during flag from n -> (from <= k < from + n)%nat -> flag k = false.
Proof.
  intros U Hk. replace k with (from + (k - from))%nat by lia. apply U. lia.
Qed.

Lemma unset_sub flag from n from' n' :
  unset_during flag from n -> (from <= from')%nat ->
  (from' + n' <= from + n)%nat -> unset_during flag from' n'.
Proof. intros U H1 H2 i Hi. apply (unset_at _ _ _ _ U). lia. Qed.

Lemma never_set_unset flag from n : never_set flag -> unset_during flag from n.
Proof. intros H i _. apply H. Qed.

(** ** The file system *)

Lemma open_wb_ne (p q : FsPath) (s : FS) : p <> q -> open_wb q s !! p = s !! p.
Proof. intros. unfold open_wb. destruct (s !! q); by rewrite lookup_insert_ne. Qed.

Lemma write_block_ne (p q : FsPath) b (s : FS) :
  p <> q -> write_block q b s !! p = s !! p.
Proof.
  intros. unfold write_block. destruct (s !! q); [by rewrite lookup_insert_ne | done].
Qed.

Lemma chmod_ne (p q : FsPath) m (s : FS) : p <> q -> chmod q m s !! p = s !! p.
Proof.
  intros. unfold chmod. destruct (s !! q); [by rewrite lookup_insert_ne | done].
Qed.

Lemma move_ne (p src dst : FsPath) (s : FS) :
  p <> src -> p <> dst -> move src dst s !! p = s !! p.
Proof.
  intros. unfold move. destruct (s !! src); [|done].
  rewrite lookup_insert_ne by done. by rewrite lookup_delete_ne.
Qed.

Section WorkerFacts.

Variables IS_LINUX IS_WINDOWS : bool.
Variable flag : nat -> bool.
Variable env : nat -> AttemptEnv.
Variable job : Job.

(** *** The hook and [urlretrieve] *)

Lemma report_progress_steps u bn ts w w' o :
  report_progress flag job u bn ts w = (w', o) ->
  steps is_chatter w w' /\ fs w' = fs w /\ now w' = now w
  /\ temps w' = temps w /\ reads w' = S (reads w).
Proof.
  unfold report_progress, is_cancelled. intros H.
  repeat case_match; simplify_eq; (split; [solve_steps | done]).
Qed.

(** The hook returns exactly when the flag is not set and the message can
    be formatted. *)
Lemma report_progress_None u bn ts w :
  (exists w', report_progress flag job u bn ts w = (w', None))
  <-> flag (reads w) = false /\ hook_ok u ts = true.
Proof.
  unfold report_progress, is_cancelled, hook_ok. split.
  - intros [w' H]. repeat case_match; simplify_eq; by split.
  - intros [Hf Hh]. rewrite Hf. simpl.
    destruct (0 <? ts); simpl in *; [|eauto].
    apply bool_decide_eq_true in Hh as [h Hh]. rewrite Hh. eauto.
Qed.

Lemma read_blocks_steps u tmp ts blocks : forall bn w w' o,
  read_blocks flag job u tmp ts bn blocks w = (w', o) ->
  steps is_chatter w w' /\ now w' = now w /\ temps w' = temps w
  /\ forall p, p <> tmp -> fs w' !! p = fs w !! p.
Proof.
  induction blocks as [|b rest IH]; simpl; intros bn w w' o H.
  - simplify_eq. split; [apply steps_refl | done].
  - destruct (report_progress _ _ _ _ _ _) as [w1 [e|]] eqn:E;
      apply report_progress_steps in E as (S1 & F1 & N1 & T1 & R1);
      simpl in *.
    + simplify_eq. split_and!; try done.
      * eapply steps_trans; [|exact S1]. solve_steps.
      * intros p Hp. rewrite F1. by apply write_block_ne.
    + apply IH in H as (S2 & N2 & T2 & F2). split_and!; try congruence.
      * eapply steps_trans; [|exact S2].
        eapply steps_trans; [|exact S1]. solve_steps.
      * intros p Hp. rewrite F2, F1 by done. by apply write_block_ne.
Qed.

(** When every block has been read, the temp file got all of them, and
    as many reads of the flag were made, none of which saw it set. *)
Lemma read_blocks_None u tmp ts blocks : forall bn w w' f,
  fs w !! tmp = Some f ->
  read_blocks flag job u tmp ts bn blocks w = (w', None) ->
  fs w' !! tmp = Some (mkFile (data f ++ concat blocks) (mode f))
  /\ reads w' = (reads w + length blocks)%nat
  /\ unset_during flag (reads w) (length blocks)
  /\ (blocks <> [] -> hook_ok u ts = true).
Proof.
  induction blocks as [|b rest IH]; simpl; intros bn w w' f Hf H.
  - simplify_eq. rewrite app_nil_r. destruct f.
    split_and!; try done; try (simpl; lia).
    intros i Hi. simpl in Hi. lia.
  - destruct (report_progress _ _ _ _ _ _) as [w1 [e|]] eqn:E; [done|].
    pose proof E as E'.
    apply report_progress_steps in E as (S1 & F1 & N1 & T1 & R1).
    assert (HN : exists w', report_progress flag job u (bn + 1) ts
                   (set_fs (write_block tmp b (fs w)) w) = (w', None))
      by eauto.
    apply report_progress_None in HN as [Hfl Hh]. simpl in *.
    assert (Hf1 : fs w1 !! tmp = Some (mkFile (data f ++ b) (mode f))).
    { rewrite F1. unfold write_block. rewrite Hf. by rewrite lookup_insert_eq. }
    destruct (IH _ _ _ _ Hf1 H) as (D & R & U & _). simpl in *.
    split_and!; try done.
    + by rewrite D, <- app_assoc.
    + lia.
    + intros i Hi. destruct i as [|i].
      * by rewrite Nat.add_0_r.
      * replace (reads w + S i)%nat with (reads w1 + i)%nat by lia.
        apply U. lia.
Qed.

Lemma read_blocks_complete u tmp ts blocks : forall bn w,
  unset_during flag (reads w) (length blocks) ->
  hook_ok u ts = true ->
  exists w', read_blocks flag job u tmp ts bn blocks w = (w', None).
Proof.
  induction blocks as [|b rest IH]; simpl; intros bn w U Hh; [eauto|].
  destruct (proj2 (report_progress_None u (bn + 1) ts
                     (set_fs (write_block tmp b (fs w)) w))) as [w1 E].
  { split; [|done]. simpl. specialize (U 0%nat).
    rewrite Nat.add_0_r in U. apply U. lia. }
  rewrite E. apply IH; [|done].
  apply report_progress_steps in E as (_ & _ & _ & _ & R). simpl in R.
  intros i Hi. rewrite R.
  replace (S (reads w) + i)%nat with (reads w + S i)%nat by lia.
  apply U. lia.
Qed.

Lemma urlretrieve_steps u tmp t w w' o :
  urlretrieve flag job u tmp t w = (w', o) ->
  steps is_chatter w w' /\ now w' = now w /\ temps w' = temps w
  /\ forall p, p <> tmp -> fs w' !! p = fs w !! p.
Proof.
  unfold urlretrieve. intros H.
  destruct t as [e|ts blocks ending].
  { simplify_eq. split; [apply steps_refl | done]. }
  assert (S0 : steps is_chatter w (set_fs (open_wb tmp (fs w)) w))
    by solve_steps.
  assert (F0 : forall p, p <> tmp ->
                 fs (set_fs (open_wb tmp (fs w)) w) !! p = fs w !! p).
  { intros p Hp. simpl. by apply open_wb_ne. }
  destruct (report_progress _ _ _ _ _ _) as [w1 o1] eqn:E1.
  apply report_progress_steps in E1 as (S1 & F1 & N1 & T1 & R1).
  simpl in N1, T1.
  assert (S01 : steps is_chatter w w1) by (eapply steps_trans; eauto).
  destruct o1 as [e|].
  { simplify_eq. split_and!; try done. intros p Hp. rewrite F1. by apply F0. }
  destruct (read_blocks _ _ _ _ _ _ _ _) as [w2 o2] eqn:E2.
  apply read_blocks_steps in E2 as (S2 & N2 & T2 & F2).
  assert (w' = w2) by (repeat case_match; by simplify_eq). subst w2.
  split_and!; try congruence.
  - eapply steps_trans; eauto.
  - intros p Hp. rewrite F2, F1 by done. by apply F0.
Qed.

(** [urlretrieve] returns only for a stream that ends normally and is as
    long as announced, read without the flag being seen set; the temp
    file then holds the whole stream. *)
Lemma urlretrieve_None u tmp t w w' f :
  fs w !! tmp = Some f ->
  urlretrieve flag job u tmp t w = (w', None) ->
  exists ts blocks,
    t = Stream ts blocks None
    /\ hook_ok u ts = true /\ short_read ts blocks = false
    /\ fs w' !! tmp = Some (mkFile (concat blocks) (mode f))
    /\ reads w' = (reads w + S (length blocks))%nat
    /\ unset_during flag (reads w) (S (length blocks)).
Proof.
  unfold urlretrieve. intros Hf H.
  destruct t as [e|ts blocks ending]; [done|].
  destruct (report_progress _ _ _ _ _ _) as [w1 [e|]] eqn:E1; [done|].
  assert (HN : exists w', report_progress flag job u 0 ts
                 (set_fs (open_wb tmp (fs w)) w) = (w', None)) by eauto.
  apply report_progress_None in HN as [Hfl Hh]. simpl in Hfl.
  apply report_progress_steps in E1 as (S1 & F1 & N1 & T1 & R1).
  simpl in *.
  assert (Hf1 : fs w1 !! tmp = Some (mkFile [] (mode f))).
  { rewrite F1. unfold open_wb. rewrite Hf. by rewrite lookup_insert_eq. }
  destruct (read_blocks _ _ _ _ _ _ _ _) as [w2 [e|]] eqn:E2; [done|].
  destruct (read_blocks_None _ _ _ _ _ _ _ _ Hf1 E2) as (D & R & U & _).
  simpl in D.
  destruct ending as [e|]; [done|].
  destruct (short_read ts blocks) eqn:Hs; [done|]. simplify_eq.
  exists ts, blocks. split_and!; try done.
  - lia.
  - intros i Hi. destruct i as [|i].
    + by rewrite Nat.add_0_r.
    + replace (reads w + S i)%nat with (reads w1 + i)%nat by lia.
      apply U. lia.
Qed.

Lemma urlretrieve_complete u tmp ts blocks w :
  hook_ok u ts = true -> short_read ts blocks = false ->
  unset_during flag (reads w) (S (length blocks)) ->
  exists w', urlretrieve flag job u tmp (Stream ts blocks None) w = (w', None).
Proof.
  intros Hh Hs U. unfold urlretrieve.
  destruct (proj2 (report_progress_None u 0 ts
                     (set_fs (open_wb tmp (fs w)) w))) as [w1 E1].
  { split; [|done]. simpl. specialize (U 0%nat).
    rewrite Nat.add_0_r in U. apply U. lia. }
  rewrite E1.
  apply report_progress_steps in E1 as (_ & _ & _ & _ & R). simpl in R.
  destruct (read_blocks_complete u tmp ts blocks 0 w1) as [w2 E2]; [|done|].
  { intros i Hi. rewrite R.
    replace (S (reads w) + i)%nat with (reads w + S i)%nat by lia.
    apply U. lia. }
  rewrite E2. rewrite Hs. eauto.
Qed.

(** *** Cleaning up *)

Lemma remove_temp_steps a tmp w :
  steps is_chatter w (remove_temp a tmp w)
  /\ now (remove_temp a tmp w) = now w
  /\ reads (remove_temp a tmp w) = reads w
  /\ forall p, p <> tmp -> fs (remove_temp a tmp w) !! p = fs w !! p.
Proof.
  unfold remove_temp. repeat case_match; simpl;
    (split; [first [solve_steps | apply steps_refl] |]); split_and!; try done.
  intros p Hp. by rewrite lookup_delete_ne.
Qed.

(** The temp file is gone when [os.remove] works. *)
Lemma remove_temp_gone a tmp w :
  e_remove a = None -> fs (remove_temp a tmp w) !! tmp = None.
Proof.
  intros Hr. unfold remove_temp. rewrite Hr.
  destruct (fs w !! tmp) eqn:E; simpl; [apply lookup_delete_eq | done].
Qed.

Lemma inner_except_steps a tmp e w w' r :
  inner_except flag a tmp e w = (w', r) ->
  steps is_chatter w w' /\ now w' = now w
  /\ (r = Ok false \/ r = Raise e)
  /\ (forall p, p <> tmp -> fs w' !! p = fs w !! p)
  /\ (e_remove a = None -> fs w' !! tmp = None).
Proof.
  unfold inner_except, is_cancelled. intros H.
  destruct (remove_temp_steps a tmp w) as (S1 & N1 & R1 & F1).
  pose proof (remove_temp_gone a tmp w) as G1.
  destruct (flag _); simplify_eq; simpl; split_and!; auto;
    (eapply steps_trans; [exact S1|]; solve_steps).
Qed.

(** *** Verifying and moving *)

Local Abbreviation dest := (dest job).
Local Abbreviation filepath_str := (filepath_str job).

Lemma dest_not_temp n : dest <> Temp n.
Proof. done. Qed.

Lemma verify_and_move_steps a tmp w w' r :
  verify_and_move IS_WINDOWS flag job a tmp w = (w', r) ->
  steps chatter_or_finished w w' /\ now w' = now w
  /\ (r = Ok true \/ r = Ok false \/ exists e, r = Raise e).
Proof.
  unfold verify_and_move, is_cancelled. intros H.
  assert (IE : forall e w0, steps chatter_or_finished w w0 -> now w0 = now w ->
            inner_except flag a tmp e w0 = (w', r) ->
            steps chatter_or_finished w w' /\ now w' = now w
            /\ (r = Ok true \/ r = Ok false \/ exists e, r = Raise e)).
  { intros e w0 S0 N0 E. apply inner_except_steps in E as (S1 & N1 & R1 & _).
    split_and!; [|congruence|destruct R1; eauto].
    eapply steps_trans; [exact S0|].
    eapply steps_weaken; [apply chatter_finished | exact S1]. }
  repeat case_match; simplify_eq;
    try (eapply IE; [apply steps_refl | done | eassumption]);
    (split_and!; [solve_steps | done | auto]).
Qed.

(** The attempt is a success only when the file is not empty and the
    two steps after the verification work; the destination then has the
    bytes of the temp file, and the signal goes out unless the flag is
    seen set by the last read. *)
Lemma verify_and_move_true a n w w' f :
  fs w !! Temp n = Some f ->
  verify_and_move IS_WINDOWS flag job a (Temp n) w = (w', Ok true) ->
  data f <> [] /\ moved a = true
  /\ reads w' = S (reads w)
  /\ (exists m, fs w' !! dest = Some (mkFile (data f) m))
  /\ fs w' !! Temp n = None
  /\ finished_of (trace w') =
       finished_of (trace w)
       ++ (if flag (reads w) then [] else [(true, filepath_str, "")]).
Proof.
  unfold verify_and_move, getsize, moved. intros Hf H. rewrite Hf in H.
  destruct (Z.of_nat (length (data f)) =? 0) eqn:Hz.
  { apply inner_except_steps in H as (_ & _ & [?|?] & _); done. }
  destruct (e_mkdir2 a) as [e|].
  { apply inner_except_steps in H as (_ & _ & [?|?] & _); done. }
  destruct (e_move a) as [e|].
  { apply inner_except_steps in H as (_ & _ & [?|?] & _); done. }
  assert (Hd : data f <> []).
  { intros E. rewrite E in Hz. done. }
  assert (Hm : move (Temp n) dest (fs w) !! dest = Some f
               /\ move (Temp n) dest (fs w) !! Temp n = None).
  { unfold move. rewrite Hf. rewrite lookup_insert_eq.
    rewrite lookup_insert_ne by done. by rewrite lookup_delete_eq. }
  destruct Hm as [Hm1 Hm2].
  unfold is_cancelled in H.
  destruct (negb IS_WINDOWS); [destruct (e_chmod_file a) as [e|]|];
    simpl in H; destruct (flag (reads w)) eqn:Hfl; simpl in H;
    simplify_eq; simpl; split_and!; try done; eauto;
    try (unfold chmod; rewrite Hm1; rewrite ?lookup_insert_eq;
         rewrite ?lookup_insert_ne by done; eauto);
    unfold finished_of; rewrite ?omap_app; simpl;
    rewrite ?app_nil_r, <- ?app_assoc; try done;
    exists (mode f); by destruct f.
Qed.

(** Conversely. *)
Lemma verify_and_move_complete a n w f :
  fs w !! Temp n = Some f -> data f <> [] -> moved a = true ->
  exists w', verify_and_move IS_WINDOWS flag job a (Temp n) w = (w', Ok true).
Proof.
  unfold verify_and_move, getsize, moved. intros Hf Hd Hm. rewrite Hf.
  destruct (Z.of_nat (length (data f)) =? 0) eqn:Hz.
  { apply Z.eqb_eq in Hz. destruct (data f); [done | simpl in Hz; lia]. }
  destruct (e_mkdir2 a); [done|]. destruct (e_move a); [done|].
  unfold is_cancelled. simpl. eauto.
Qed.

(** When the attempt is no success, no signal went out and the
    destination is as it was. *)
Lemma verify_and_move_frame a n w w' r :
  verify_and_move IS_WINDOWS flag job a (Temp n) w = (w', r) ->
  r <> Ok true ->
  finished_of (trace w') = finished_of (trace w)
  /\ (forall p, p <> Temp n -> fs w' !! p = fs w !! p)
  /\ (e_remove a = None -> fs w' !! Temp n = None)
  /\ (r = Ok false -> exists i, (reads w <= i < reads w')%nat /\ flag i = true).
Proof.
  unfold verify_and_move. intros H Hr.
  assert (IE : forall e, inner_except flag a (Temp n) e w = (w', r) ->
    finished_of (trace w') = finished_of (trace w)
    /\ (forall p, p <> Temp n -> fs w' !! p = fs w !! p)
    /\ (e_remove a = None -> fs w' !! Temp n = None)
    /\ (r = Ok false -> exists i, (reads w <= i < reads w')%nat /\ flag i = true)).
  { intros e E. pose proof E as E'.
    apply inner_except_steps in E as (S1 & N1 & R1 & F1 & G1).
    split_and!; try done.
    - apply emits_finished. eapply emits_weaken; [apply chatter_not_finished|].
      apply S1.
    - intros ->. unfold inner_except, is_cancelled in E'.
      destruct (remove_temp_steps a (Temp n) w) as (_ & _ & R & _).
      destruct (flag (reads (remove_temp a (Temp n) w))) eqn:Hfl;
        simplify_eq. simpl. exists (reads (remove_temp a (Temp n) w)).
      split; [lia | done]. }
  repeat case_match; eauto; by simplify_eq.
Qed.

(** *** One attempt *)

Lemma download_to_temp_steps u a tmp w w' r :
  download_to_temp IS_WINDOWS flag job u a tmp w = (w', r) ->
  steps chatter_or_finished w w' /\ now w' = now w
  /\ (r = Ok true \/ r = Ok false \/ exists e, r = Raise e).
Proof.
  unfold download_to_temp, is_cancelled. intros H.
  destruct (flag (reads w)) eqn:Hfl.
  { simplify_eq. split_and!; [solve_steps | done | auto]. }
  match type of H with context [urlretrieve _ _ _ _ _ ?w0] =>
    assert (S0 : steps chatter_or_finished w w0) by solve_steps;
    assert (N0 : now w0 = now w) by done
  end.
  destruct (urlretrieve _ _ _ _ _ _) as [w1 o1] eqn:E1.
  apply urlretrieve_steps in E1 as (S1 & N1 & T1 & F1).
  apply (steps_weaken _ _ _ _ chatter_finished) in S1.
  assert (S01 := steps_trans _ _ _ _ S0 S1). clear S0 S1.
  destruct o1 as [e|].
  { apply inner_except_steps in H as (S2 & N2 & R2 & _).
    apply (steps_weaken _ _ _ _ chatter_finished) in S2.
    split_and!; [eapply steps_trans; eauto | simpl in *; congruence | destruct R2; eauto]. }
  simpl in H. destruct (flag (reads w1)) eqn:Hfl1.
  { simplify_eq.
    match goal with |- context [remove_temp a tmp ?w0] =>
      destruct (remove_temp_steps a tmp w0) as (S2 & N2 & _) end.
    apply (steps_weaken _ _ _ _ chatter_finished) in S2.
    split_and!; [|simpl in *; congruence|auto].
    eapply steps_trans; [exact S01|]. eapply steps_trans; [|exact S2].
    solve_steps. }
  apply verify_and_move_steps in H as (S2 & N2 & R2).
  split_and!; [|simpl in *; congruence|done].
  eapply steps_trans; [exact S01|]. eapply steps_trans; [|exact S2].
  solve_steps.
Qed.

Lemma download_to_temp_true u a n w w' f :
  fs w !! Temp n = Some f ->
  download_to_temp IS_WINDOWS flag job u a (Temp n) w = (w', Ok true) ->
  exists ts blocks,
    e_transfer a = Stream ts blocks None
    /\ hook_ok u ts = true /\ short_read ts blocks = false
    /\ concat blocks <> [] /\ moved a = true
    /\ unset_during flag (reads w) (3 + length blocks)
    /\ reads w' = (reads w + 4 + length blocks)%nat
    /\ (exists m, fs w' !! dest = Some (mkFile (concat blocks) m))
    /\ fs w' !! Temp n = None
    /\ finished_of (trace w') =
         finished_of (trace w)
         ++ (if flag (reads w + 3 + length blocks)%nat then []
             else [(true, filepath_str, "")]).
Proof.
  unfold download_to_temp, is_cancelled. intros Hf H.
  destruct (flag (reads w)) eqn:Hfl; [done|].
  destruct (urlretrieve _ _ _ _ _ _) as [w1 [e|]] eqn:E1.
  { apply inner_except_steps in H as (_ & _ & [?|?] & _); done. }
  pose proof (urlretrieve_steps _ _ _ _ _ _ E1) as (S1 & _).
  apply steps_chatter_finished in S1. simpl in S1.
  eapply urlretrieve_None in E1 as (ts & blocks & Ht & Hh & Hs & Hf1 & R1 & U1);
    [|simpl; exact Hf].
  simpl in H, R1, U1. destruct (flag (reads w1)) eqn:Hfl1; [done|].
  eapply verify_and_move_true in H as (Hd & Hm & R2 & D2 & G2 & Fin);
    [|simpl; exact Hf1].
  simpl in *. exists ts, blocks. split_and!; try done.
  - intros i Hi. destruct i as [|i]; [by rewrite Nat.add_0_r|].
    destruct (decide (i = S (length blocks))) as [->|Hne].
    + by replace (reads w + S (S (length blocks)))%nat with (reads w1) by lia.
    + replace (reads w + S i)%nat with (S (reads w) + i)%nat by lia.
      apply U1. lia.
  - lia.
  - replace (reads w + 3 + length blocks)%nat with (S (reads w1)) by lia.
    rewrite Fin. unfold finished_of in *. rewrite !omap_app in *.
    simpl in *. rewrite !app_nil_r in *. by rewrite S1.
Qed.

Lemma download_to_temp_complete u a n w f ts blocks :
  fs w !! Temp n = Some f ->
  e_transfer a = Stream ts blocks None ->
  hook_ok u ts = true -> short_read ts blocks = false ->
  concat blocks <> [] -> moved a = true ->
  unset_during flag (reads w) (3 + length blocks) ->
  exists w', download_to_temp IS_WINDOWS flag job u a (Temp n) w = (w', Ok true).
Proof.
  intros Hf Ht Hh Hs Hd Hm U. unfold download_to_temp, is_cancelled.
  rewrite (unset_at _ _ _ (reads w) U) by lia.
  rewrite Ht.
  match goal with |- context [urlretrieve _ _ _ _ _ ?w0] =>
    destruct (urlretrieve_complete u (Temp n) ts blocks w0 Hh Hs) as [w1 E1]
  end.
  { eapply unset_sub; [exact U | simpl; lia | simpl; lia]. }
  rewrite E1.
  eapply urlretrieve_None in E1 as (ts' & blocks' & Ht' & _ & _ & Hf1 & R1 & _);
    [|simpl; exact Hf].
  simplify_eq. simpl in *.
  rewrite (unset_at _ _ _ (reads w1) U) by lia.
  eapply verify_and_move_complete; [simpl; exact Hf1 | done | done].
Qed.

(** When the attempt is no success: no signal, every file but the temp
    file as it was, and the temp file gone, unless the flag was seen set
    by the very first read (line 246) or [os.remove] failed. *)
Lemma download_to_temp_frame u a n w w' r :
  download_to_temp IS_WINDOWS flag job u a (Temp n) w = (w', r) ->
  r <> Ok true ->
  finished_of (trace w') = finished_of (trace w)
  /\ (forall p, p <> Temp n -> fs w' !! p = fs w !! p)
  /\ (e_remove a = None -> flag (reads w) = false -> fs w' !! Temp n = None)
  /\ (r = Ok false -> exists i, (reads w <= i < reads w')%nat /\ flag i = true).
Proof.
  unfold download_to_temp, is_cancelled. intros H Hr.
  destruct (flag (reads w)) eqn:Hfl.
  { simplify_eq. simpl. split_and!; try done.
    - unfold finished_of. rewrite omap_app. simpl. by rewrite app_nil_r.
    - intros _. exists (reads w). split; [lia|done]. }
  destruct (urlretrieve _ _ _ _ _ _) as [w1 o1] eqn:E1.
  apply urlretrieve_steps in E1 as (S1 & N1 & T1 & F1).
  assert (Fin1 : finished_of (trace w1) = finished_of (trace w)).
  { erewrite emits_finished; [|eapply emits_weaken;
                                [apply chatter_not_finished | apply S1]].
    simpl. unfold finished_of. rewrite omap_app. simpl. by rewrite app_nil_r. }
  destruct S1 as (_ & _ & R1 & _). simpl in R1, F1.
  destruct o1 as [e|].
  { pose proof H as H'.
    apply inner_except_steps in H as (S2 & N2 & R2 & F2 & G2).
    split_and!; auto.
    - erewrite emits_finished; [done|]. eapply emits_weaken;
        [apply chatter_not_finished | apply S2].
    - intros p Hp. rewrite F2, F1; done.
    - intros ->. unfold inner_except, is_cancelled in H'.
      destruct (remove_temp_steps a (Temp n) w1) as (_ & _ & R & _).
      destruct (flag (reads (remove_temp a (Temp n) w1))) eqn:Hfl2;
        simplify_eq. simpl. exists (reads (remove_temp a (Temp n) w1)).
      split; [lia | done]. }
  simpl in H. destruct (flag (reads w1)) eqn:Hfl1.
  { simplify_eq. match goal with |- context [remove_temp a ?t ?w0] =>
      destruct (remove_temp_steps a t w0) as (S2 & N2 & R2 & F2);
      pose proof (remove_temp_gone a t w0) as G2 end.
    split_and!; auto.
    - erewrite emits_finished; [|eapply emits_weaken;
                                  [apply chatter_not_finished | apply S2]].
      simpl. unfold finished_of in *. rewrite omap_app. simpl.
      by rewrite app_nil_r.
    - intros p Hp. rewrite F2, <- F1; done.
    - intros _. exists (reads w1). simpl in R2. split; [lia | done]. }
  apply verify_and_move_frame in H as (Fin2 & F2 & G2 & C2); [|done].
  simpl in *. split_and!; auto.
  - rewrite Fin2. unfold finished_of in *. rewrite omap_app. simpl.
    by rewrite app_nil_r.
  - intros p Hp. rewrite F2, <- F1; done.
  - intros Hrf. destruct (C2 Hrf) as (i & Hi & Hfi). exists i.
    split; [lia | done].
Qed.

Lemma attempt_body_steps u a w w' r :
  attempt_body IS_LINUX IS_WINDOWS flag job u a w = (w', r) ->
  steps chatter_or_finished w w' /\ now w' = now w
  /\ (r = Ok true \/ r = Ok false \/ exists e, r = Raise e).
Proof.
  unfold attempt_body. intros H.
  destruct (e_mkdir a) as [e|].
  { simplify_eq. split_and!; [solve_steps | done | eauto]. }
  match type of H with context [if IS_LINUX then ?x else w] =>
    assert (S0 : steps chatter_or_finished w (if IS_LINUX then x else w)
                 /\ now (if IS_LINUX then x else w) = now w)
      by (destruct IS_LINUX; [destruct (e_chmod_dir a)|];
          (split; [first [solve_steps | apply steps_refl] | done]));
    destruct S0 as [S0 N0]; revert H S0 N0; generalize (if IS_LINUX then x else w)
  end.
  intros w0 H S0 N0.
  destruct (e_request a) as [e1|]; [simplify_eq; split_and!; by eauto|].
  destruct (e_mkstemp a) as [e2|]; [simplify_eq; split_and!; by eauto|].
  apply download_to_temp_steps in H as (S1 & N1 & R1).
  split_and!; [|simpl in *; congruence|done].
  eapply steps_trans; [exact S0|]. eapply steps_trans; [|exact S1].
  solve_steps.
Qed.

(** The world in which the download of an attempt starts has the same
    clock, flag reads and files as the one before, but for the new temp
    file; it has no more signals. *)
Lemma attempt_body_unfold u a w :
  e_mkdir a = None -> e_request a = None -> e_mkstemp a = None ->
  exists w0,
    attempt_body IS_LINUX IS_WINDOWS flag job u a w
    = download_to_temp IS_WINDOWS flag job u a (Temp (temps w)) w0
    /\ reads w0 = reads w
    /\ fs w0 = <[Temp (temps w) := mkFile [] 384]> (fs w)
    /\ finished_of (trace w0) = finished_of (trace w).
Proof.
  intros H1 H2 H3. unfold attempt_body. rewrite H1, H2, H3.
  destruct IS_LINUX; [destruct (e_chmod_dir a)|];
    (eexists; split; [reflexivity|]); simpl;
    unfold finished_of; rewrite ?omap_app; simpl; by rewrite ?app_nil_r.
Qed.

Lemma downloaded_nonempty a ts blocks ending :
  e_transfer a = Stream ts blocks ending ->
  file_nonempty a = true <-> concat blocks <> [].
Proof.
  intros Ht. unfold file_nonempty, downloaded. rewrite Ht.
  destruct (concat blocks) eqn:E; simpl; split; done.
Qed.

(** An attempt is a success only when the transfer completes, the file
    is not empty, the flag is not seen set in flight, and the file can be
    moved. *)
Lemma attempt_body_true u a w w' :
  attempt_body IS_LINUX IS_WINDOWS flag job u a w = (w', Ok true) ->
  transfer_completes u a = true /\ file_nonempty a = true
  /\ moved a = true
  /\ unset_during flag (reads w) (reads_in_flight a)
  /\ reads w' = S (reads w + reads_in_flight a)
  /\ (exists m, fs w' !! dest = Some (mkFile (downloaded a) m))
  /\ fs w' !! Temp (temps w) = None
  /\ finished_of (trace w') =
       finished_of (trace w)
       ++ (if flag (reads w + reads_in_flight a)%nat then []
           else [(true, filepath_str, "")]).
Proof.
  intros H.
  destruct (e_mkdir a) as [e|] eqn:H1;
    [unfold attempt_body in H; rewrite H1 in H; done|].
  destruct (e_request a) as [e|] eqn:H2;
    [unfold attempt_body in H; rewrite H1, H2 in H; done|].
  destruct (e_mkstemp a) as [e|] eqn:H3;
    [unfold attempt_body in H; rewrite H1, H2, H3 in H; done|].
  destruct (attempt_body_unfold u a w H1 H2 H3) as (w0 & E & R0 & F0 & Fin0).
  rewrite E in H.
  eapply download_to_temp_true in H
    as (ts & blocks & Ht & Hh & Hs & Hd & Hm & U & R & D & G & Fin);
    [|rewrite F0; apply lookup_insert_eq].
  unfold transfer_completes, reads_in_flight, downloaded.
  rewrite H1, H2, H3, Ht, Hh, Hs. rewrite R0 in *. rewrite Fin0 in Fin.
  split_and!; try done.
  - by apply (downloaded_nonempty a ts blocks None).
  - lia.
  - by replace (reads w + (3 + length blocks))%nat
      with (reads w + 3 + length blocks)%nat by lia.
Qed.

Lemma attempt_body_complete u a w :
  transfer_completes u a = true -> file_nonempty a = true ->
  moved a = true -> unset_during flag (reads w) (reads_in_flight a) ->
  exists w', attempt_body IS_LINUX IS_WINDOWS flag job u a w = (w', Ok true).
Proof.
  unfold transfer_completes, reads_in_flight. intros Ht Hn Hm U.
  destruct (e_mkdir a) eqn:H1; [done|].
  destruct (e_request a) eqn:H2; [done|].
  destruct (e_mkstemp a) eqn:H3; [done|].
  destruct (e_transfer a) as [e|ts blocks [e|]] eqn:H4; try done.
  apply andb_true_iff in Ht as [Hh Hs]. apply negb_true_iff in Hs.
  destruct (attempt_body_unfold u a w H1 H2 H3) as (w0 & E & R0 & F0 & _).
  rewrite E. eapply download_to_temp_complete; eauto.
  - rewrite F0. apply lookup_insert_eq.
  - by apply (downloaded_nonempty a ts blocks None).
  - by rewrite R0.
Qed.

(** An attempt that is no success sends no signal and leaves every file
    but its temp file alone; it ends by [return False] only when the
    flag was seen set. *)
Lemma attempt_body_frame u a w w' r :
  attempt_body IS_LINUX IS_WINDOWS flag job u a w = (w', r) ->
  r <> Ok true ->
  finished_of (trace w') = finished_of (trace w)
  /\ (forall p, p <> Temp (temps w) -> fs w' !! p = fs w !! p)
  /\ (r = Ok false -> exists i, (reads w <= i < reads w')%nat /\ flag i = true).
Proof.
  intros H Hr.
  assert (Early : forall w1 e, steps is_chatter w w1 -> fs w1 = fs w ->
            (w1, @Raise bool e) = (w', r) ->
            finished_of (trace w') = finished_of (trace w)
            /\ (forall p, p <> Temp (temps w) -> fs w' !! p = fs w !! p)
            /\ (r = Ok false ->
                exists i, (reads w <= i < reads w')%nat /\ flag i = true)).
  { intros w1 e S1 F1 E. simplify_eq. split_and!; try done.
    - by apply steps_chatter_finished.
    - intros p _. by rewrite F1. }
  destruct (e_mkdir a) as [e|] eqn:H1.
  { unfold attempt_body in H. rewrite H1 in H.
    eapply Early; [| |exact H]; [solve_steps | done]. }
  destruct (e_request a) as [e|] eqn:H2.
  { unfold attempt_body in H. rewrite H1, H2 in H.
    eapply Early; [| |exact H];
      destruct IS_LINUX; [destruct (e_chmod_dir a)| | |]; simpl; try done;
      first [solve_steps | apply steps_refl | destruct (e_chmod_dir a); done]. }
  destruct (e_mkstemp a) as [e|] eqn:H3.
  { unfold attempt_body in H. rewrite H1, H2, H3 in H.
    eapply Early; [| |exact H];
      destruct IS_LINUX; [destruct (e_chmod_dir a)| | |]; simpl; try done;
      first [solve_steps | apply steps_refl | destruct (e_chmod_dir a); done]. }
  destruct (attempt_body_unfold u a w H1 H2 H3) as (w0 & E & R0 & F0 & Fin0).
  rewrite E in H.
  apply download_to_temp_frame in H as (Fin & F & _ & C); [|done].
  split_and!.
  - congruence.
  - intros p Hp. rewrite F, F0 by done. by rewrite lookup_insert_ne.
  - intros Hrf. destruct (C Hrf) as (i & Hi & Hfi). exists i.
    split; [lia | done].
Qed.

(** *** Backing off *)

Lemma backoff_loop_steps fuel start ms : forall w w' r,
  backoff_loop flag fuel start ms w = (w', r) ->
  ms - (now w - start) <= 100 * Z.of_nat fuel ->
  steps chatter_or_slept w w' /\ fs w' = fs w
  /\ (r = Ok true \/ r = Ok false)
  /\ (r = Ok true ->
      exists i, (reads w <= i < reads w')%nat /\ flag i = true).
Proof.
  induction fuel as [|fuel IH]; intros w w' r H Hfuel; simpl in H.
  - destruct (now w - start <? ms) eqn:Hlt; [apply Z.ltb_lt in Hlt; lia|].
    simplify_eq. split_and!; [apply steps_refl | done | auto | done].
  - destruct (now w - start <? ms) eqn:Hlt.
    2:{ simplify_eq. split_and!; [apply steps_refl | done | auto | done]. }
    unfold is_cancelled in H. destruct (flag (reads w)) eqn:Hfl.
    + simplify_eq. split_and!; [solve_steps | done | auto |].
      intros _. exists (reads w). simpl. split; [lia | done].
    + apply IH in H as (S1 & F1 & R1 & C1); [|simpl; lia].
      split_and!; [|done|done|].
      * eapply steps_trans; [|exact S1]. solve_steps.
      * intros Hr. destruct (C1 Hr) as (i & Hi & Hfi). exists i.
        simpl in Hi. split; [lia | done].
Qed.

(** With the flag unset, the loop makes as many slices as are left. *)
Lemma backoff_loop_full fuel start ms : forall w,
  now w - start = ms - 100 * Z.of_nat fuel ->
  unset_during flag (reads w) fuel ->
  exists w',
    backoff_loop flag fuel start ms w = (w', Ok false)
    /\ trace w' = trace w ++ concat (repeat slice fuel)
    /\ now w' = now w + 100 * Z.of_nat fuel
    /\ reads w' = (reads w + fuel)%nat.
Proof.
  induction fuel as [|fuel IH]; intros w Hnow U; simpl.
  - replace (now w - start <? ms) with false
      by (symmetry; apply Z.ltb_ge; lia).
    exists w. split_and!; [done | by rewrite app_nil_r | lia | lia].
  - replace (now w - start <? ms) with true
      by (symmetry; apply Z.ltb_lt; lia).
    unfold is_cancelled. rewrite (unset_at _ _ _ (reads w) U) by lia.
    match goal with |- context [backoff_loop _ _ _ _ ?w0] =>
      destruct (IH w0) as (w' & E & T & N & R) end.
    { simpl. lia. }
    { eapply unset_sub; [exact U | simpl; lia | simpl; lia]. }
    exists w'. simpl in *. split_and!; [done | | lia | lia].
    rewrite T. by rewrite <- !app_assoc.
Qed.

(** With the flag seen set by the read that follows [j] slices, the loop
    ends there. *)
Lemma backoff_loop_cancel fuel start ms : forall w j,
  now w - start = ms - 100 * Z.of_nat fuel ->
  (j < fuel)%nat ->
  unset_during flag (reads w) j -> flag (reads w + j)%nat = true ->
  exists w',
    backoff_loop flag fuel start ms w = (w', Ok true)
    /\ trace w' = trace w ++ concat (repeat slice j) ++ [FlagRead true]
    /\ now w' = now w + 100 * Z.of_nat j
    /\ reads w' = S (reads w + j).
Proof.
  induction fuel as [|fuel IH]; intros w j Hnow Hj U Hset; [lia|]. simpl.
  replace (now w - start <? ms) with true
    by (symmetry; apply Z.ltb_lt; lia).
  unfold is_cancelled. destruct j as [|j].
  - rewrite Nat.add_0_r in Hset. rewrite Hset. eexists.
    split_and!; [done | done | simpl; lia | simpl; lia].
  - rewrite (unset_at _ _ _ (reads w) U) by lia.
    match goal with |- context [backoff_loop _ _ _ _ ?w0] =>
      destruct (IH w0 j) as (w' & E & T & N & R) end.
    { simpl. lia. }
    { lia. }
    { eapply unset_sub; [exact U | simpl; lia | simpl; lia]. }
    { simpl. rewrite <- Hset. f_equal. lia. }
    exists w'. simpl in *. split_and!; [done | | lia | lia].
    rewrite T. by rewrite <- !app_assoc.
Qed.

Lemma pow2_slices attempt :
  1000 * 2 ^ attempt = 100 * Z.of_nat (Z.to_nat (10 * 2 ^ attempt)).
Proof.
  assert (0 <= 2 ^ attempt).
  { destruct (Z.le_gt_cases 0 attempt).
    - apply Z.pow_nonneg. lia.
    - rewrite Z.pow_neg_r by lia. lia. }
  lia.
Qed.

Lemma backoff_steps attempt w w' r :
  backoff flag attempt w = (w', r) ->
  steps chatter_or_slept w w' /\ fs w' = fs w
  /\ (r = Ok true \/ r = Ok false)
  /\ (r = Ok true ->
      exists i, (reads w <= i < reads w')%nat /\ flag i = true).
Proof.
  unfold backoff. intros H. eapply backoff_loop_steps; [exact H|].
  rewrite <- pow2_slices. lia.
Qed.

(** *** The handler of a failed attempt *)

Lemma outer_except_steps u attempt max w w' r :
  outer_except flag job u attempt max w = (w', r) ->
  steps chatter_or_slept w w' /\ fs w' = fs w
  /\ (r = Ok true \/ r = Ok false
      \/ (r = Raise index_error /\ url_host u = None))
  /\ (r = Ok false ->
      exists i, (reads w <= i < reads w')%nat /\ flag i = true)
  /\ (max <= attempt -> sleeps_of (trace w') = sleeps_of (trace w)).
Proof.
  unfold outer_except, is_cancelled. intros H.
  destruct (flag (reads w)) eqn:Hfl.
  { simplify_eq. split_and!; [solve_steps | done | auto | |].
    - intros _. exists (reads w). simpl. split; [lia | done].
    - intros _. simpl. unfold sleeps_of. rewrite omap_app. simpl.
      by rewrite app_nil_r. }
  destruct (url_host u) as [h|] eqn:Hh.
  2:{ simplify_eq. split_and!; [solve_steps | done | auto | done |].
      intros _. simpl. unfold sleeps_of. rewrite omap_app. simpl.
      by rewrite app_nil_r. }
  destruct (attempt <? max) eqn:Hlt.
  - destruct (backoff _ _ _) as [w1 r1] eqn:E.
    apply backoff_steps in E as (S1 & F1 & R1 & C1).
    assert (S01 : steps chatter_or_slept w w1).
    { eapply steps_trans; [|exact S1]. solve_steps. }
    apply Z.ltb_lt in Hlt.
    destruct R1 as [->| ->]; simplify_eq;
      (split_and!; [done | done | auto | | lia]); [|done].
    intros _. destruct C1 as (i & Hi & Hfi); [done|]. exists i.
    simpl in Hi. split; [lia | done].
  - simplify_eq. split_and!; [solve_steps | done | auto | done |].
    intros _. simpl. unfold sleeps_of. rewrite !omap_app. simpl.
    by rewrite !app_nil_r.
Qed.

(** With the flag unset and a host in the URL, the handler lets the loop
    go on. *)
Lemma outer_except_goes_on u attempt max w w' r :
  never_set flag -> is_Some (url_host u) ->
  outer_except flag job u attempt max w = (w', r) -> r = Ok true.
Proof.
  intros Hns [h Hh] H.
  apply outer_except_steps in H as (_ & _ & R & C & _).
  destruct R as [?|[->|[_ ?]]]; [done| |congruence].
  destruct C as (i & _ & Hi); [done|]. rewrite Hns in Hi. done.
Qed.

(** *** The loop over the attempts *)

Lemma fin_snoc tr e :
  not_finished e -> finished_of (tr ++ [e]) = finished_of tr.
Proof.
  intros He. unfold finished_of. rewrite omap_app. simpl.
  destruct e; simpl; try done; by rewrite app_nil_r.
Qed.

Lemma delivered_after w0 w w' :
  (reads w0 <= reads w)%nat ->
  finished_of (trace w) = finished_of (trace w0) ->
  delivered flag job w w' -> delivered flag job w0 w'.
Proof.
  intros R F (R1 & F1 & D1). split_and!; [lia | by rewrite F1, F | done].
Qed.

(** However the flag and the world behave, [_try_download] returns
    [True] having delivered the job, or it returns [False] or raises
    (and then only the [IndexError] of a URL without host) without any
    signal. *)
Lemma try_attempts_general u max todo : forall w w' r,
  try_attempts IS_LINUX IS_WINDOWS flag env job u max todo w = (w', r) ->
  (reads w <= reads w')%nat /\ (tries w <= tries w')%nat
  /\ ((r = Ok true /\ delivered flag job w w'
       /\ (tries w < tries w')%nat
       /\ attempt_ok u (env (pred (tries w'))) = true)
      \/ ((r = Ok false \/ (r = Raise index_error /\ url_host u = None))
          /\ finished_of (trace w') = finished_of (trace w))).
Proof.
  induction todo as [|k rest IH]; intros w w' r H; simpl in H.
  { simplify_eq. split_and!; [lia | lia | right; auto]. }
  unfold is_cancelled in H. destruct (flag (reads w)) eqn:Hfl.
  { simplify_eq. simpl. split_and!; [lia | lia | right].
    split; [auto | by apply fin_snoc]. }
  match type of H with context [attempt_body _ _ _ _ _ ?a ?w0] =>
    set (a0 := a) in *; set (w1 := w0) in *;
    destruct (attempt_body IS_LINUX IS_WINDOWS flag job u a0 w1)
      as [w2 rb] eqn:E
  end.
  assert (Fin1 : finished_of (trace w1) = finished_of (trace w))
    by (by apply fin_snoc).
  pose proof (attempt_body_steps _ _ _ _ _ E) as ((_ & T2 & R2 & _) & _ & Rb).
  simpl in T2, R2.
  destruct Rb as [->|[->|[e ->]]].
  - (* the attempt returned True *)
    simplify_eq.
    apply attempt_body_true in E as (Ht & Hn & Hm & U & R & D & _ & Fin).
    simpl in *. split_and!; [lia | lia | left].
    split_and!; [done | | lia |].
    + split_and!; simpl; [lia | |].
      * rewrite fin_snoc by done. rewrite Fin, Fin1. rewrite R. simpl.
        by replace (S (reads w) + reads_in_flight a0)%nat
          with (S (reads w + reads_in_flight a0)) by lia.
      * destruct D as [m D]. eexists. split; [exact D|]. simpl.
        unfold file_nonempty in Hn. intros E0. rewrite E0 in Hn. done.
    + rewrite T2. simpl. change (env (tries w)) with a0.
      unfold attempt_ok. by rewrite Ht, Hn, Hm.
  - (* the attempt returned False *)
    simplify_eq.
    apply attempt_body_frame in E as (Fin & _); [|done].
    simpl. split_and!; [lia | lia | right].
    split; [auto|]. rewrite fin_snoc by done. congruence.
  - (* the attempt raised *)
    apply attempt_body_frame in E as (Fin & _); [|done].
    destruct (outer_except _ _ _ _ _ _) as [w3 ro] eqn:Eo.
    apply outer_except_steps in Eo as (S3 & _ & Ro & _).
    assert (Fin3 : finished_of (trace w3) = finished_of (trace w)).
    { erewrite emits_finished; [|eapply emits_weaken;
        [apply chatter_or_slept_not_finished | apply S3]].
      simpl. rewrite fin_snoc by done. congruence. }
    destruct S3 as (_ & T3 & R3 & _). simpl in T3, R3.
    destruct Ro as [->|[->|[-> Hh]]].
    + apply IH in H as (R4 & T4 & [(-> & D4 & T4' & A4)|(R & Fin4)]).
      * split_and!; [lia | lia | left]. split_and!; [done | | lia | done].
        eapply delivered_after; [|exact Fin3|exact D4]. lia.
      * split_and!; [lia | lia | right]. split; [done | congruence].
    + simplify_eq. split_and!; [lia | lia | right]. auto.
    + simplify_eq. split_and!; [lia | lia | right]. auto.
Qed.

(** *** The fallbacks and [run] *)

Lemma try_fallbacks_general urls : forall w w' r,
  try_fallbacks IS_LINUX IS_WINDOWS flag env job urls w = (w', r) ->
  (reads w <= reads w')%nat
  /\ ((r = Ok true /\ delivered flag job w w' /\ some_attempt_ok env)
      \/ (r = Ok true /\ silent w w' /\ cancelled_between flag w w')
      \/ (r = Ok false /\ silent w w')
      \/ (r = Raise index_error /\ silent w w'
          /\ exists u, In u urls /\ url_host u = None)).
Proof.
  induction urls as [|fu rest IH]; intros w w' r H; simpl in H.
  { simplify_eq. split; [lia|]. right. right. left. by split. }
  unfold is_cancelled in H. destruct (flag (reads w)) eqn:Hfl.
  { simplify_eq. simpl. split; [lia|]. right. left. split_and!; [done| |].
    - unfold silent. simpl. rewrite !fin_snoc; done.
    - exists (reads w). simpl. split; [lia | done]. }
  unfold _try_download in H.
  destruct (try_attempts _ _ _ _ _ _ _ _ _) as [w1 r1] eqn:E.
  apply try_attempts_general in E as (R1 & _ & C1). simpl in R1.
  destruct C1 as [(-> & D1 & _ & A1)|([->|[-> Hh]] & Fin1)].
  - simplify_eq. split; [lia|]. left. split_and!; [done | | by eexists _, _].
    eapply delivered_after; [| |exact D1]; simpl; [lia | by apply fin_snoc].
  - apply IH in H as (R2 & C2). split; [lia|].
    assert (Fin01 : finished_of (trace w1) = finished_of (trace w))
      by (rewrite Fin1; simpl; by apply fin_snoc).
    destruct C2 as [(-> & D2 & A2)|[(-> & S2 & (i & Hi & Hfi))|
                   [(-> & S2)|(-> & S2 & (u' & Hu' & Hh'))]]].
    + left. split_and!; [done | | done].
      eapply delivered_after; [|exact Fin01|exact D2]. lia.
    + right. left. split_and!; [done | unfold silent in *; congruence |].
      exists i. split; [lia | done].
    + right. right. left. split; [done | unfold silent in *; congruence].
    + right. right. right. split_and!; [done | unfold silent in *; congruence |].
      exists u'. split; [by right | done].
  - simplify_eq. split; [lia|]. right. right. right.
    split_and!; [done | | exists fu; split; [by left | done]].
    unfold silent. rewrite Fin1. simpl. by apply fin_snoc.
Qed.

Lemma run_body_general w w' r :
  run_body IS_LINUX IS_WINDOWS flag env job w = (w', r) ->
  (reads w <= reads w')%nat
  /\ ((r = Ok tt /\ delivered flag job w w' /\ some_attempt_ok env)
      \/ (r = Ok tt /\ silent w w' /\ cancelled_between flag w w')
      \/ (r = Ok tt
          /\ failed_with flag job "All download URLs failed" w w')
      \/ (r = Raise index_error /\ silent w w' /\ lacks_host job)).
Proof.
  unfold run_body, is_cancelled. intros H. simpl in H.
  destruct (flag (reads w)) eqn:Hfl.
  { simplify_eq. simpl. split; [lia|]. right. left. split_and!; [done| |].
    - unfold silent. simpl. rewrite !fin_snoc; done.
    - exists (reads w). simpl. split; [lia | done]. }
  unfold _try_download in H.
  destruct (try_attempts _ _ _ _ _ _ _ _ _) as [w1 r1] eqn:E.
  apply try_attempts_general in E as (R1 & _ & C1). simpl in R1.
  assert (F0 : forall x, finished_of x = finished_of
                 ((x ++ [Progress filepath_str
                           ("Starting download: " +:+ name (filepath job)) 0])
                    ++ [FlagRead false])).
  { intros x. rewrite !fin_snoc; done. }
  destruct C1 as [(-> & D1 & _ & A1)|([->|[-> Hh]] & Fin1)].
  - simplify_eq. split; [lia|]. left. split_and!; [done | | by eexists _, _].
    eapply delivered_after; [| |exact D1]; simpl; [lia | by rewrite <- F0].
  - simpl in Fin1. rewrite <- F0 in Fin1.
    destruct (flag (reads w1)) eqn:Hfl1.
    { simplify_eq. simpl. split; [lia|]. right. left. split_and!; [done| |].
      - unfold silent. simpl. rewrite !fin_snoc; done.
      - exists (reads w1). simpl. split; [lia | done]. }
    match type of H with context [match fallback_urls job with _ => _ end] =>
      destruct (match fallback_urls job with
                | [] => _ | _ :: _ => _ end) as [w2 r2] eqn:E2
    end.
    assert (G2 : (S (reads w1) <= reads w2)%nat
      /\ ((r2 = Ok true /\ delivered flag job w w2 /\ some_attempt_ok env)
          \/ (r2 = Ok true /\ silent w w2 /\ cancelled_between flag w w2)
          \/ (r2 = Ok false /\ silent w w2)
          \/ (r2 = Raise index_error /\ silent w w2 /\ lacks_host job))).
    { destruct (fallback_urls job) as [|fu rest] eqn:Efb.
      - simplify_eq. simpl. split; [lia|]. right. right. left.
        split; [done|]. unfold silent. simpl. by rewrite fin_snoc.
      - apply try_fallbacks_general in E2 as (R2 & C2). simpl in R2.
        split; [done|].
        assert (Fin02 : forall w3, silent
                  (emit (Progress filepath_str
                           ("Primary URL failed, trying alternatives for: "
                              +:+ name (filepath job)) 0)
                     {| fs := fs w1; trace := trace w1 ++ [FlagRead false];
                        reads := S (reads w1); tries := tries w1;
                        temps := temps w1; now := now w1 |}) w3 ->
                  silent w w3).
        { unfold silent. simpl. intros w3 ->. rewrite !fin_snoc; done. }
        destruct C2 as [(-> & D2 & A2)|[(-> & S2 & (i & Hi & Hfi))|
                       [(-> & S2)|(-> & S2 & (u' & Hu' & Hh'))]]].
        + left. split_and!; [done | | done].
          eapply delivered_after; [| |exact D2]; simpl; [lia|].
          rewrite !fin_snoc; done.
        + right. left. split_and!; [done | by apply Fin02 |].
          exists i. simpl in Hi. split; [lia | done].
        + right. right. left. split; [done | by apply Fin02].
        + right. right. right. split_and!; [done | by apply Fin02 |].
          right. exists u'. by rewrite Efb. }
    clear E2. destruct G2 as (R2 & C2).
    destruct C2 as [(-> & D2 & A2)|[(-> & S2 & (i & Hi & Hfi))|
                   [(-> & S2)|(-> & S2 & L2)]]].
    + simplify_eq. split; [lia|]. left. done.
    + simplify_eq. split; [lia|]. right. left. split_and!; [done..|].
      by exists i.
    + destruct (flag (reads w2)) eqn:Hfl2; simpl in H; simplify_eq; simpl;
        (split; [lia|]); right.
      * left. split_and!; [done| |].
        -- unfold silent in *. simpl. by rewrite fin_snoc.
        -- exists (reads w2). simpl. split; [lia | done].
      * right. left. split; [done|]. split_and!; simpl; [lia | done |].
        unfold silent in S2. unfold finished_of in *.
        rewrite !omap_app. simpl. rewrite !app_nil_r. by rewrite S2.
    + simplify_eq. split; [lia|]. right. right. right. done.
  - simplify_eq. split; [lia|]. right. right. right.
    split_and!; [done | | by left].
    unfold silent. rewrite Fin1. simpl. by rewrite <- F0.
Qed.

(** [run] never raises, and it ends in one of four ways. *)
Lemma run_general w w' r :
  run IS_LINUX IS_WINDOWS flag env job w = (w', r) ->
  r = Ok tt
  /\ ((delivered flag job w w' /\ some_attempt_ok env)
      \/ (silent w w' /\ cancelled_between flag w w')
      \/ failed_with flag job "All download URLs failed" w w'
      \/ (failed_with flag job ("Thread error: " +:+ index_error) w w'
          /\ lacks_host job)).
Proof.
  unfold run. intros H.
  destruct (run_body _ _ _ _ _ _) as [w1 r1] eqn:E.
  apply run_body_general in E as (R1 & C1).
  destruct C1 as [(-> & D1 & A1)|[(-> & S1 & K1)|[(-> & F1)|(-> & S1 & L1)]]];
    simplify_eq; auto.
  unfold is_cancelled in H.
  destruct (flag (reads w1)) eqn:Hfl; simpl in H; simplify_eq;
    (split; [done|]); right.
  - left. split.
    + unfold silent in *. simpl. by rewrite fin_snoc.
    + exists (reads w1). simpl. split; [lia | done].
  - right. right. split; [|done]. split_and!; simpl; [lia | done |].
    unfold silent in S1. unfold finished_of in *.
    rewrite !omap_app. simpl. rewrite !app_nil_r. by rewrite S1.
Qed.

(** *** With the flag never set: the plan is carried out *)

Lemma att_snoc tr e :
  not_attempt e -> attempts_of (tr ++ [e]) = attempts_of tr.
Proof.
  intros He. unfold attempts_of. rewrite omap_app. simpl.
  destruct e; simpl; try done; by rewrite app_nil_r.
Qed.

Lemma att_snoc_attempt tr u k ok :
  attempts_of (tr ++ [Attempt u k ok]) = attempts_of tr ++ [(u, k, ok)].
Proof. unfold attempts_of. by rewrite omap_app. Qed.

Lemma attempt_body_attempts u a w w' r :
  attempt_body IS_LINUX IS_WINDOWS flag job u a w = (w', r) ->
  attempts_of (trace w') = attempts_of (trace w)
  /\ sleeps_of (trace w') = sleeps_of (trace w).
Proof.
  intros H. apply attempt_body_steps in H as ((E & _) & _). split.
  - apply emits_attempts. eapply emits_weaken; [|exact E].
    apply chatter_or_finished_not_attempt.
  - apply emits_sleeps. eapply emits_weaken; [|exact E].
    apply chatter_or_finished_not_slept.
Qed.

(** With the flag unset an attempt returns [True] or raises, as
    [attempt_ok] says. *)
Lemma attempt_body_never_set u a w w' r :
  never_set flag ->
  attempt_body IS_LINUX IS_WINDOWS flag job u a w = (w', r) ->
  if attempt_ok u a then r = Ok true else exists e, r = Raise e.
Proof.
  intros Hns H. destruct (attempt_ok u a) eqn:Hok.
  - unfold attempt_ok in Hok.
    apply andb_true_iff in Hok as [Hok Hm].
    apply andb_true_iff in Hok as [Ht Hn].
    destruct (attempt_body_complete u a w Ht Hn Hm) as [w2 E];
      [by apply never_set_unset|]. congruence.
  - pose proof (attempt_body_steps _ _ _ _ _ H) as (_ & _ & [->|[->|?]]);
      [| |done].
    + apply attempt_body_true in H as (Ht & Hn & Hm & _).
      unfold attempt_ok in Hok. by rewrite Ht, Hn, Hm in Hok.
    + apply attempt_body_frame in H as (_ & _ & C); [|done].
      destruct C as (i & _ & Hi); [done|]. by rewrite Hns in Hi.
Qed.

Lemma try_attempts_plan u max todo :
  never_set flag -> is_Some (url_host u) ->
  forall w w' r,
    try_attempts IS_LINUX IS_WINDOWS flag env job u max todo w = (w', r) ->
    let p := plan env (tries w) (map (fun k => (u, k)) todo) in
    attempts_of (trace w') = attempts_of (trace w) ++ p
    /\ tries w' = (tries w + length p)%nat
    /\ r = Ok (succeeded p)
    /\ (succeeded p = false -> length p = length todo).
Proof.
  intros Hns Hh. induction todo as [|k rest IH]; intros w w' r H; simpl in H.
  { simplify_eq. simpl. split_and!; [by rewrite app_nil_r | lia | done | done]. }
  unfold is_cancelled in H. rewrite Hns in H.
  match type of H with context [attempt_body _ _ _ _ _ ?a ?w0] =>
    set (w1 := w0) in *;
    destruct (attempt_body IS_LINUX IS_WINDOWS flag job u a w1)
      as [w2 rb] eqn:E
  end.
  simpl in E.
  pose proof (attempt_body_never_set _ _ _ _ _ Hns E) as Hr.
  pose proof (attempt_body_attempts _ _ _ _ _ E) as [A2 _].
  pose proof (attempt_body_steps _ _ _ _ _ E) as ((_ & T2 & _) & _).
  simpl in A2, T2. rewrite att_snoc in A2 by done.
  simpl. destruct (attempt_ok u (env (tries w))) eqn:Hok.
  - subst rb. simplify_eq. simpl.
    rewrite att_snoc_attempt, A2. split_and!; [done | lia | done | done].
  - destruct Hr as [e ->].
    destruct (outer_except _ _ _ _ _ _) as [w3 ro] eqn:Eo.
    pose proof (outer_except_goes_on _ _ _ _ _ _ Hns Hh Eo) as ->.
    apply outer_except_steps in Eo as ((E3 & T3 & _) & _).
    assert (A3 : attempts_of (trace w3)
                 = attempts_of (trace w) ++ [(u, k, false)]).
    { erewrite emits_attempts; [|eapply emits_weaken;
        [apply chatter_or_slept_not_attempt | exact E3]].
      simpl. by rewrite att_snoc_attempt, A2. }
    simpl in T3.
    apply IH in H as (A4 & T4 & R4 & L4).
    replace (tries w3) with (S (tries w)) in * by lia.
    simpl. split_and!; [by rewrite A4, A3, <- app_assoc | lia | done |].
    intros Hs. rewrite L4; done.
Qed.

Lemma plan_app i l1 l2 :
  plan env i (l1 ++ l2) =
  if succeeded (plan env i l1) then plan env i l1
  else plan env i l1 ++ plan env (i + length (plan env i l1)) l2.
Proof.
  revert i. induction l1 as [|[u k] l1 IH]; intros i; simpl.
  { by rewrite Nat.add_0_r. }
  destruct (attempt_ok u (env i)); simpl; [done|].
  rewrite IH. destruct (succeeded (plan env (S i) l1)); [done|].
  simpl. do 3 f_equal. lia.
Qed.

Lemma try_fallbacks_plan urls :
  never_set flag -> (forall u, In u urls -> is_Some (url_host u)) ->
  forall w w' r,
    try_fallbacks IS_LINUX IS_WINDOWS flag env job urls w = (w', r) ->
    let p := plan env (tries w) (map (fun u => (u, 1)) urls) in
    attempts_of (trace w') = attempts_of (trace w) ++ p
    /\ r = Ok (succeeded p).
Proof.
  intros Hns. induction urls as [|fu rest IH]; intros Hh w w' r H; simpl in H.
  { simplify_eq. simpl. by rewrite app_nil_r. }
  unfold is_cancelled in H. rewrite Hns in H. unfold _try_download in H.
  destruct (try_attempts _ _ _ _ _ _ _ _ _) as [w1 r1] eqn:E.
  apply try_attempts_plan in E as (A1 & T1 & -> & L1);
    [|done|apply Hh; by left].
  simpl in A1, T1, L1, H. rewrite att_snoc in A1 by done. simpl.
  destruct (attempt_ok fu (env (tries w))) eqn:Hok; simpl in *.
  - by simplify_eq.
  - apply IH in H as (A2 & R2); [|intros u Hu; apply Hh; by right].
    replace (tries w1) with (S (tries w)) in * by lia.
    split; [|done]. rewrite A2, A1. by rewrite <- app_assoc.
Qed.

Lemma run_plan w :
  never_set flag -> has_hosts job ->
  attempts_of (trace (run IS_LINUX IS_WINDOWS flag env job w).1)
  = attempts_of (trace w) ++ plan env (tries w) (schedule job).
Proof.
  intros Hns [Hh Hfb]. unfold run.
  destruct (run_body _ _ _ _ _ _) as [w1 r1] eqn:E.
  assert (G : attempts_of (trace w1)
              = attempts_of (trace w) ++ plan env (tries w) (schedule job)
              /\ exists x, r1 = Ok x).
  2:{ destruct G as [G [x ->]]. done. }
  unfold run_body, is_cancelled in E. simpl in E. rewrite Hns in E.
  unfold _try_download in E.
  destruct (try_attempts _ _ _ _ _ _ _ _ _) as [w2 r2] eqn:E2.
  apply try_attempts_plan in E2 as (A2 & T2 & -> & L2); [|done..].
  simpl in A2, T2, L2. rewrite !att_snoc in A2 by done.
  unfold schedule. rewrite plan_app.
  fold (range_from_1 (retry_count job)) in *.
  destruct (succeeded _) eqn:Hs.
  { simplify_eq. eauto. }
  rewrite Hns in E.
  destruct (fallback_urls job) as [|fu rest] eqn:Efb.
  { simpl in E. rewrite Hns in E. simpl in E. simplify_eq. simpl.
    rewrite !att_snoc by done. rewrite app_nil_r. eauto. }
  match type of E with context [try_fallbacks _ _ _ _ _ _ ?w0] =>
    assert (T0 : tries w0 = tries w2) by done;
    assert (A0 : attempts_of (trace w0) = attempts_of (trace w2))
      by (simpl; by rewrite !att_snoc by done);
    generalize dependent w0
  end.
  intros w0 E T0 A0.
  destruct (try_fallbacks _ _ _ _ _ _ _) as [w3 r3] eqn:E3.
  apply try_fallbacks_plan in E3 as (A3 & ->); [|done..].
  rewrite T0, A0, T2, A2, <- app_assoc in A3. rewrite T0, T2 in E.
  destruct (succeeded (plan env _ (map _ (fu :: rest)))).
  { simplify_eq. eauto. }
  unfold is_cancelled in E. rewrite Hns in E. simpl in E. simplify_eq.
  simpl. rewrite !att_snoc by done. eauto.
Qed.

End WorkerFacts.

(** * The destination is never seen half written *)

Section DestFacts.

Variables IS_LINUX IS_WINDOWS : bool.
Variable flag : nat -> bool.
Variable env : nat -> AttemptEnv.
Variable job : Job.

Local Abbreviation dest := (dest job).

Lemma temp_not_dest n : Temp n <> dest.
Proof. intros E. discriminate E. Qed.

Lemma untouched_refl w : untouched job w w.
Proof. split; [apply emits_refl | done]. Qed.

Lemma untouched_trans w1 w2 w3 :
  untouched job w1 w2 -> untouched job w2 w3 -> untouched job w1 w3.
Proof.
  intros [E1 F1] [E2 F2]. split; [|congruence].
  eapply emits_trans; [exact E1|]. by rewrite <- F1.
Qed.

Lemma untouched_emit e w :
  not_fs e -> untouched job w (emit e w).
Proof.
  intros He. split; [|done]. apply emits_emit. by destruct e.
Qed.

Lemma untouched_set_fs s w :
  s !! dest = fs w !! dest -> untouched job w (set_fs s w).
Proof. intros Hs. split; [|done]. by apply emits_set_fs. Qed.

Lemma untouched_read w : untouched job w (is_cancelled flag w).2.
Proof. split; [|done]. exists [FlagRead (flag (reads w))]. by repeat constructor. Qed.

Lemma untouched_sleep ms w : untouched job w (sleep ms w).
Proof. split; [|done]. by apply emits_sleep. Qed.

Lemma fine_of_untouched d0 w w' :
  dest_fine env d0 (fs w !! dest) -> untouched job w w' ->
  fine env job d0 w w'.
Proof.
  intros Hd [E F]. split; [|by rewrite F].
  eapply emits_weaken; [|exact E]. intros [] He; simpl in *; try done.
  by rewrite He.
Qed.

Lemma fine_trans d0 w1 w2 w3 :
  fine env job d0 w1 w2 -> fine env job d0 w2 w3 -> fine env job d0 w1 w3.
Proof. intros [E1 _] [E2 F2]. split; [by eapply emits_trans | done]. Qed.

Lemma fine_untouched d0 w1 w2 w3 :
  fine env job d0 w1 w2 -> untouched job w2 w3 -> fine env job d0 w1 w3.
Proof.
  intros H12 H23. eapply fine_trans; [exact H12|].
  apply fine_of_untouched; [apply H12 | done].
Qed.

(** *** What never writes the destination *)

Lemma report_progress_untouched u bn ts w w' o :
  report_progress flag job u bn ts w = (w', o) -> untouched job w w'.
Proof.
  unfold report_progress. intros H.
  pose proof (untouched_read w) as R.
  destruct (is_cancelled flag w) as [c w1]. simpl in R.
  destruct c; [by simplify_eq|].
  destruct (0 <? ts); [|by simplify_eq].
  destruct (url_host u); simplify_eq; [|done].
  eapply untouched_trans; [exact R|]. by apply untouched_emit.
Qed.

Lemma read_blocks_untouched u tmp ts blocks : forall bn w w' o,
  tmp <> dest ->
  read_blocks flag job u tmp ts bn blocks w = (w', o) -> untouched job w w'.
Proof.
  induction blocks as [|b rest IH]; simpl; intros bn w w' o Hne H.
  { simplify_eq. apply untouched_refl. }
  assert (U0 : untouched job w (set_fs (write_block tmp b (fs w)) w)).
  { apply untouched_set_fs. by apply write_block_ne. }
  destruct (report_progress _ _ _ _ _ _) as [w1 o1] eqn:E.
  apply report_progress_untouched in E.
  assert (U1 := untouched_trans _ _ _ U0 E).
  destruct o1; [by simplify_eq|].
  eapply untouched_trans; [exact U1|]. by eapply IH.
Qed.

Lemma urlretrieve_untouched u tmp t w w' o :
  tmp <> dest ->
  urlretrieve flag job u tmp t w = (w', o) -> untouched job w w'.
Proof.
  unfold urlretrieve. intros Hne H.
  destruct t as [e|ts blocks ending].
  { simplify_eq. apply untouched_refl. }
  assert (U0 : untouched job w (set_fs (open_wb tmp (fs w)) w)).
  { apply untouched_set_fs. by apply open_wb_ne. }
  destruct (report_progress _ _ _ _ _ _) as [w1 o1] eqn:E1.
  apply report_progress_untouched in E1.
  assert (U1 := untouched_trans _ _ _ U0 E1).
  destruct o1; [by simplify_eq|].
  destruct (read_blocks _ _ _ _ _ _ _ _) as [w2 o2] eqn:E2.
  apply read_blocks_untouched in E2; [|done].
  assert (U2 := untouched_trans _ _ _ U1 E2).
  assert (w' = w2) by (repeat case_match; by simplify_eq). by subst.
Qed.

Lemma remove_temp_untouched a tmp w :
  tmp <> dest -> untouched job w (remove_temp a tmp w).
Proof.
  intros Hne. unfold remove_temp.
  destruct (fs w !! tmp); [|apply untouched_refl].
  destruct (e_remove a); [apply untouched_refl|].
  apply untouched_set_fs. by rewrite lookup_delete_ne.
Qed.

Lemma inner_except_untouched a tmp e w w' r :
  tmp <> dest ->
  inner_except flag a tmp e w = (w', r) -> untouched job w w'.
Proof.
  unfold inner_except. intros Hne H.
  pose proof (remove_temp_untouched a tmp w Hne) as U0.
  pose proof (untouched_read (remove_temp a tmp w)) as U1.
  destruct (is_cancelled flag _) as [c w1]. simpl in U1.
  assert (w' = w1) by (destruct c; by simplify_eq). subst.
  by eapply untouched_trans.
Qed.

Lemma backoff_loop_untouched fuel start ms : forall w w' r,
  backoff_loop flag fuel start ms w = (w', r) -> untouched job w w'.
Proof.
  induction fuel as [|fuel IH]; intros w w' r H; simpl in H.
  - destruct (_ <? _); simplify_eq; apply untouched_refl.
  - destruct (_ <? _); [|simplify_eq; apply untouched_refl].
    pose proof (untouched_read w) as U0.
    unfold is_cancelled in U0. simpl in U0.
    destruct (flag (reads w)); [by simplify_eq|].
    eapply untouched_trans; [exact U0|].
    eapply untouched_trans; [apply (untouched_sleep 100)|]. by eapply IH.
Qed.

Lemma outer_except_untouched u attempt max w w' r :
  outer_except flag job u attempt max w = (w', r) -> untouched job w w'.
Proof.
  unfold outer_except. intros H.
  pose proof (untouched_read w) as U0.
  destruct (is_cancelled flag w) as [c w1]. simpl in U0.
  destruct c; [by simplify_eq|].
  destruct (url_host u); [|by simplify_eq].
  destruct (attempt <? max).
  - unfold backoff in H.
    destruct (backoff_loop _ _ _ _ _) as [w2 r2] eqn:E.
    apply backoff_loop_untouched in E.
    assert (w' = w2) by (destruct r2 as [[]| |]; by simplify_eq). subst.
    eapply untouched_trans; [exact U0|].
    eapply untouched_trans; [|exact E]. by apply untouched_emit.
  - simplify_eq. eapply untouched_trans; [exact U0|]. by apply untouched_emit.
Qed.

(** *** The move *)

Lemma verify_and_move_fine d0 a n w w' r f :
  fs w !! Temp n = Some f ->
  (data f <> [] -> whole_download env f) ->
  dest_fine env d0 (fs w !! dest) ->
  verify_and_move IS_WINDOWS flag job a (Temp n) w = (w', r) ->
  fine env job d0 w w'.
Proof.
  unfold verify_and_move, getsize. intros Hf Hwhole Hd H. rewrite Hf in H.
  assert (IE : forall e, inner_except flag a (Temp n) e w = (w', r) ->
                         fine env job d0 w w').
  { intros e E. apply fine_of_untouched; [done|].
    eapply inner_except_untouched; [apply temp_not_dest | exact E]. }
  destruct (Z.of_nat (length (data f)) =? 0) eqn:Hz; [exact (IE _ H)|].
  destruct (e_mkdir2 a); [exact (IE _ H)|].
  destruct (e_move a); [exact (IE _ H)|].
  assert (Hne : data f <> []) by (intros E; by rewrite E in Hz).
  specialize (Hwhole Hne).
  assert (Hm : move (Temp n) dest (fs w) !! dest = Some f).
  { unfold move. rewrite Hf. by rewrite lookup_insert_eq. }
  assert (Hc : chmod dest 420 (move (Temp n) dest (fs w)) !! dest
               = Some (mkFile (data f) 420)).
  { unfold chmod. rewrite Hm. by rewrite lookup_insert_eq. }
  assert (W' : whole_download env (mkFile (data f) 420)).
  { destruct Hwhole as (i & ? & ? & ?). by exists i. }
  unfold is_cancelled in H.
  destruct (negb IS_WINDOWS); [destruct (e_chmod_file a)|];
    simpl in H; destruct (flag (reads w)); simpl in H; simplify_eq;
    (split;
     [eexists; split; [simpl; rewrite <- ?app_assoc; reflexivity|];
      repeat first [apply Forall_nil_2 | apply Forall_cons_2];
      simpl; rewrite ?Hc, ?Hm; try done; right; eauto
     | simpl; rewrite ?Hc, ?Hm; right; eauto]).
Qed.

Lemma download_to_temp_fine d0 u i n w w' r f :
  fs w !! Temp n = Some f ->
  dest_fine env d0 (fs w !! dest) ->
  download_to_temp IS_WINDOWS flag job u (env i) (Temp n) w = (w', r) ->
  fine env job d0 w w'.
Proof.
  unfold download_to_temp. intros Hf Hd H.
  pose proof (untouched_read w) as U0.
  destruct (is_cancelled flag w) as [c w1] eqn:Ec.
  assert (Hf1 : fs w1 !! Temp n = Some f)
    by (unfold is_cancelled in Ec; by simplify_eq).
  simpl in U0. destruct c.
  { simplify_eq. by apply fine_of_untouched. }
  destruct (urlretrieve _ _ _ _ _ _) as [w2 o2] eqn:E2.
  pose proof (urlretrieve_untouched _ _ _ _ _ _ (temp_not_dest n) E2) as U2.
  assert (U02 := untouched_trans _ _ _ U0 U2).
  destruct o2 as [e|].
  { apply fine_of_untouched; [done|].
    eapply untouched_trans; [exact U02|].
    eapply inner_except_untouched; [apply temp_not_dest | exact H]. }
  eapply urlretrieve_None in E2
    as (ts & blocks & Ht & _ & Hs & Hf2 & _ & _); [|exact Hf1].
  pose proof (untouched_read w2) as U3.
  destruct (is_cancelled flag w2) as [c w3] eqn:Ec3.
  assert (Hf3 : fs w3 !! Temp n = Some (mkFile (concat blocks) (mode f)))
    by (unfold is_cancelled in Ec3; by simplify_eq).
  simpl in U3. assert (U03 := untouched_trans _ _ _ U02 U3).
  destruct c.
  { simplify_eq. apply fine_of_untouched; [done|].
    eapply untouched_trans; [exact U03|].
    apply remove_temp_untouched, temp_not_dest. }
  eapply fine_trans; [by apply fine_of_untouched|].
  eapply verify_and_move_fine; [exact Hf3 | | | exact H].
  - simpl. intros Hne. exists i. unfold transfer_ended, downloaded.
    rewrite Ht, Hs. done.
  - destruct U03 as [_ ->]. done.
Qed.

Lemma attempt_body_fine d0 u i w w' r :
  dest_fine env d0 (fs w !! dest) ->
  attempt_body IS_LINUX IS_WINDOWS flag job u (env i) w = (w', r) ->
  fine env job d0 w w'.
Proof.
  unfold attempt_body. intros Hd H.
  destruct (e_mkdir (env i)).
  { simplify_eq. apply fine_of_untouched; [done|]. by apply untouched_emit. }
  match type of H with context [if IS_LINUX then ?x else w] =>
    assert (U0 : untouched job w (if IS_LINUX then x else w))
      by (destruct IS_LINUX; [destruct (e_chmod_dir (env i))|];
          first [apply untouched_refl | by apply untouched_emit]);
    revert H U0; generalize (if IS_LINUX then x else w)
  end.
  intros w0 H U0.
  destruct (e_request (env i)); [simplify_eq; by apply fine_of_untouched|].
  destruct (e_mkstemp (env i)); [simplify_eq; by apply fine_of_untouched|].
  eapply fine_trans; [apply fine_of_untouched; [done | exact U0]|].
  destruct U0 as [_ F0].
  match type of H with context [download_to_temp _ _ _ _ _ _ ?w1] =>
    assert (U1 : untouched job w0 w1)
      by (split; [solve_emits; by rewrite lookup_insert_ne
                 | simpl; by rewrite lookup_insert_ne])
  end.
  eapply fine_trans; [apply fine_of_untouched; [by rewrite F0 | exact U1]|].
  eapply download_to_temp_fine; [| |exact H].
  - simpl. apply lookup_insert_eq.
  - destruct U1 as [_ ->]. by rewrite F0.
Qed.

(** *** The loops *)

Lemma try_attempts_fine d0 u max todo : forall w w' r,
  dest_fine env d0 (fs w !! dest) ->
  try_attempts IS_LINUX IS_WINDOWS flag env job u max todo w = (w', r) ->
  fine env job d0 w w'.
Proof.
  induction todo as [|k rest IH]; intros w w' r Hd H; simpl in H.
  { simplify_eq. apply fine_of_untouched; [done | apply untouched_refl]. }
  pose proof (untouched_read w) as U0.
  unfold is_cancelled in H, U0. simpl in U0.
  destruct (flag (reads w)).
  { simplify_eq. by apply fine_of_untouched. }
  match type of H with context [attempt_body _ _ _ _ _ _ ?w0] =>
    assert (U1 : untouched job w w0) by exact U0;
    destruct (attempt_body IS_LINUX IS_WINDOWS flag job u
                (env (tries w)) w0) as [w2 rb] eqn:E
  end.
  apply (attempt_body_fine d0) in E; [|destruct U1 as [_ ->]; done].
  assert (F2 := fine_trans _ _ _ _ (fine_of_untouched _ _ _ Hd U1) E).
  destruct rb as [b|e|]; [| |by simplify_eq].
  { simplify_eq. eapply fine_untouched; [exact F2|]. by apply untouched_emit. }
  destruct (outer_except _ _ _ _ _ _) as [w3 ro] eqn:Eo.
  apply outer_except_untouched in Eo.
  assert (F3 : fine env job d0 w w3).
  { eapply fine_untouched; [|exact Eo].
    eapply fine_untouched; [exact F2|]. by apply untouched_emit. }
  destruct ro as [[]|e'|]; try (by simplify_eq).
  eapply fine_trans; [exact F3|]. eapply IH; [apply F3 | exact H].
Qed.

Lemma try_fallbacks_fine d0 urls : forall w w' r,
  dest_fine env d0 (fs w !! dest) ->
  try_fallbacks IS_LINUX IS_WINDOWS flag env job urls w = (w', r) ->
  fine env job d0 w w'.
Proof.
  induction urls as [|fu rest IH]; intros w w' r Hd H; simpl in H.
  { simplify_eq. apply fine_of_untouched; [done | apply untouched_refl]. }
  pose proof (untouched_read w) as U0.
  unfold is_cancelled in H, U0. simpl in U0.
  destruct (flag (reads w)).
  { simplify_eq. apply fine_of_untouched; [done|].
    eapply untouched_trans; [exact U0|]. by apply untouched_emit. }
  unfold _try_download in H.
  destruct (try_attempts _ _ _ _ _ _ _ _ _) as [w1 r1] eqn:E.
  apply (try_attempts_fine d0) in E; [|destruct U0 as [_ ->]; done].
  assert (F1 := fine_trans _ _ _ _ (fine_of_untouched _ _ _ Hd U0) E).
  destruct r1 as [[]|e|]; try (by simplify_eq).
  eapply fine_trans; [exact F1|]. eapply IH; [apply F1 | exact H].
Qed.

Lemma run_fine d0 w :
  dest_fine env d0 (fs w !! dest) ->
  fine env job d0 w (run IS_LINUX IS_WINDOWS flag env job w).1.
Proof.
  intros Hd. unfold run.
  destruct (run_body _ _ _ _ _ _) as [w1 r1] eqn:E.
  assert (F1 : fine env job d0 w w1).
  { unfold run_body in E.
    match type of E with context [is_cancelled flag ?w0] =>
      assert (U0 : untouched job w w0) by (by apply untouched_emit);
      pose proof (untouched_read w0) as U1;
      destruct (is_cancelled flag w0) as [c w2]
    end.
    simpl in U1. assert (U2 := untouched_trans _ _ _ U0 U1).
    destruct c.
    { simplify_eq. apply fine_of_untouched; [done|].
      eapply untouched_trans; [exact U2|]. by apply untouched_emit. }
    unfold _try_download in E.
    destruct (try_attempts _ _ _ _ _ _ _ _ _) as [w3 r3] eqn:E3.
    apply (try_attempts_fine d0) in E3; [|destruct U2 as [_ ->]; done].
    assert (F3 := fine_trans _ _ _ _ (fine_of_untouched _ _ _ Hd U2) E3).
    destruct r3 as [[]|e|]; try (by simplify_eq).
    pose proof (untouched_read w3) as U4.
    destruct (is_cancelled flag w3) as [c4 w4]. simpl in U4.
    assert (F4 := fine_untouched _ _ _ _ F3 U4).
    destruct c4.
    { simplify_eq. eapply fine_untouched; [exact F4|]. by apply untouched_emit. }
    match type of E with context [match fallback_urls job with _ => _ end] =>
      destruct (match fallback_urls job with
                | [] => _ | _ :: _ => _ end) as [w5 r5] eqn:E5
    end.
    assert (F5 : fine env job d0 w w5).
    { destruct (fallback_urls job).
      - by simplify_eq.
      - eapply fine_trans; [|eapply try_fallbacks_fine; [|exact E5]].
        + eapply fine_untouched; [exact F4|]. by apply untouched_emit.
        + simpl. apply F4. }
    destruct r5 as [[]|e|]; try (by simplify_eq).
    pose proof (untouched_read w5) as U6.
    destruct (is_cancelled flag w5) as [c6 w6]. simpl in U6.
    assert (F6 := fine_untouched _ _ _ _ F5 U6).
    destruct c6; simpl in E; simplify_eq; [done|].
    eapply fine_untouched; [exact F6|].
    eapply untouched_trans; by apply untouched_emit. }
  destruct r1 as [x|e|]; [done| |done].
  pose proof (untouched_read w1) as U2.
  destruct (is_cancelled flag w1) as [c w2]. simpl in U2.
  assert (F2 := fine_untouched _ _ _ _ F1 U2).
  destruct c; simpl; [done|].
  eapply fine_untouched; [exact F2|].
  eapply untouched_trans; by apply untouched_emit.
Qed.


End DestFacts.

(** * The claims about the worker *)

(** ** Schedules cut short *)

Lemma take_min {A} (n : nat) (l : list A) :
  take (n `min` length l) l = take n l.
Proof.
  destruct (le_lt_dec n (length l)).
  - by rewrite Nat.min_l.
  - rewrite Nat.min_r by lia. by rewrite firstn_all, take_ge by lia.
Qed.

Lemma cut_short_left (l1 l2 : list (string * Z)) n :
  cut_short (l1 ++ l2) (map (fun x => (x, false)) (take n l1)).
Proof.
  exists (n `min` length l1)%nat. left.
  rewrite take_app_le by lia. by rewrite take_min.
Qed.

Lemma cut_short_left_ok (l1 l2 : list (string * Z)) n x :
  l1 !! n = Some x ->
  cut_short (l1 ++ l2) (map (fun x => (x, false)) (take n l1) ++ [(x, true)]).
Proof.
  intros Hx. pose proof (lookup_lt_Some _ _ _ Hx) as Hn.
  exists n. right. exists x. split.
  - by rewrite lookup_app_l.
  - by rewrite take_app_le by lia.
Qed.

Lemma cut_short_right (l1 l2 : list (string * Z)) m :
  cut_short (l1 ++ l2)
    (map (fun x => (x, false)) l1 ++ map (fun x => (x, false)) (take m l2)).
Proof.
  exists (length l1 + m)%nat. left. by rewrite take_app_add, map_app.
Qed.

Lemma cut_short_right_ok (l1 l2 : list (string * Z)) m x :
  l2 !! m = Some x ->
  cut_short (l1 ++ l2)
    (map (fun x => (x, false)) l1 ++ map (fun x => (x, false)) (take m l2)
     ++ [(x, true)]).
Proof.
  intros Hx. exists (length l1 + m)%nat. right. exists x. split.
  - rewrite lookup_app_r by lia. by replace (_ + m - _)%nat with m by lia.
  - by rewrite take_app_add, map_app, <- app_assoc.
Qed.

Section WorkerClaims.

Variables IS_LINUX IS_WINDOWS : bool.
Variable flag : nat -> bool.
Variable env : nat -> AttemptEnv.
Variable job : Job.

Local Abbreviation run' := (run IS_LINUX IS_WINDOWS flag env job).

Lemma stays_set_later i k :
  stays_set flag -> (i <= k)%nat -> flag i = true -> flag k = true.
Proof.
  intros Hm Hik Hi. induction Hik as [|k _ IH]; [done|]. by apply Hm.
Qed.

(** C2, as the code has it.  A worker that never sees its flag set sends
    exactly one [finished] signal.  A worker that sees it set, at
    whatever moment, sends none at all: neither a failure nor a separate
    "cancelled" result. *)
Theorem finished_once_unless_cancelled (s : FS) (t : Z) :
  let w' := (run' (init_world s t)).1 in
  ((forall i, (i < reads w')%nat -> flag i = false) ->
   exists x, finished_of (trace w') = [x])
  /\ (stays_set flag ->
      (exists i, (i < reads w')%nat /\ flag i = true) ->
      finished_of (trace w') = []).
Proof.
  intros w'. subst w'.
  destruct (run' (init_world s t)) as [w' r] eqn:E. simpl.
  apply run_general in E as (_ & C). unfold silent in C. simpl in C. split.
  - intros Hnot.
    destruct C as [((R & F & _) & _)|[(_ & (i & Hi & Hfi))|
                  [(R & L & F)|((R & L & F) & _)]]]; simpl in *; eauto.
    + rewrite Hnot in F by lia. eauto.
    + rewrite Hnot in Hfi by lia. done.
  - intros Hm (i & Hi & Hfi).
    assert (Hlast : flag (pred (reads w')) = true)
      by (eapply stays_set_later; [done | | exact Hfi]; lia).
    destruct C as [((R & F & _) & _)|[(S0 & _)|
                  [(R & L & F)|((R & L & F) & _)]]]; simpl in *;
      try congruence.
    by rewrite Hlast in F.
Qed.

(** C5, as the code has it.  [run] never raises.  When the flag is never
    set and no attempt can succeed, it sends exactly one failure signal,
    whose message is a fixed text: "All download URLs failed", or the
    "Thread error" of the [IndexError] that a URL without a host
    provokes.  The errors met on the way are not in it. *)
Theorem failure_reported_once (s : FS) (t : Z) :
  let x := run' (init_world s t) in
  x.2 = Ok tt
  /\ (never_set flag -> all_attempts_fail env ->
      exists msg,
        finished_of (trace x.1) = [(false, filepath_str job, msg)]
        /\ (msg = "All download URLs failed"
            \/ (msg = "Thread error: list index out of range"
                /\ lacks_host job))).
Proof.
  intros x. subst x.
  destruct (run' (init_world s t)) as [w' r] eqn:E. simpl.
  apply run_general in E as (-> & C). split; [done|].
  intros Hns Hfail.
  destruct C as [(_ & (u & i & Hok))|[(_ & (i & _ & Hfi))|
                [(_ & _ & F)|((_ & _ & F) & L)]]]; simpl in *.
  - by rewrite Hfail in Hok.
  - by rewrite Hns in Hfi.
  - eauto.
  - eauto.
Qed.

(** *** The order of the attempts, whatever happens *)

Lemma try_attempts_orderly u max todo : forall w w' r,
  try_attempts IS_LINUX IS_WINDOWS flag env job u max todo w = (w', r) ->
  (reads w <= reads w')%nat
  /\ exists n,
      (r = Ok true
       /\ exists k, todo !! n = Some k
            /\ attempts_of (trace w') =
                 attempts_of (trace w)
                 ++ map (fun k => (u, k, false)) (take n todo)
                 ++ [(u, k, true)])
      \/ (r <> Ok true /\ (n <= length todo)%nat
          /\ attempts_of (trace w') =
               attempts_of (trace w)
               ++ map (fun k => (u, k, false)) (take n todo)
          /\ (r = Ok false ->
              n = length todo \/ cancelled_between flag w w')).
Proof.
  induction todo as [|k rest IH]; intros w w' r H; simpl in H.
  { simplify_eq. split; [lia|]. exists 0%nat. right.
    split_and!; [done | done | by rewrite app_nil_r | by left]. }
  unfold is_cancelled in H. destruct (flag (reads w)) eqn:Hfl.
  { simplify_eq. simpl. split; [lia|]. exists 0%nat. right.
    split_and!; [done | simpl; lia | by rewrite att_snoc, app_nil_r |].
    intros _. right. exists (reads w). simpl. split; [lia | done]. }
  match type of H with context [attempt_body _ _ _ _ _ ?a ?w0] =>
    destruct (attempt_body IS_LINUX IS_WINDOWS flag job u a w0)
      as [w2 rb] eqn:E
  end.
  pose proof E as E1. apply attempt_body_attempts in E1 as [A2 _].
  pose proof E as E2.
  apply attempt_body_steps in E2 as ((_ & _ & R2 & _) & _ & Rb).
  simpl in A2, R2. rewrite att_snoc in A2 by done.
  destruct Rb as [->|[->|[e ->]]].
  - simplify_eq. simpl. split; [lia|]. exists 0%nat. left.
    split; [done|]. exists k. split; [done|].
    by rewrite att_snoc_attempt, A2.
  - apply attempt_body_frame in E as (_ & _ & C); [|done].
    destruct C as (i & Hi & Hfi); [done|]. simpl in Hi.
    simplify_eq. simpl. split; [lia|]. exists 1%nat. right.
    split_and!; [done | simpl; lia | by rewrite att_snoc_attempt, A2 |].
    intros _. right. exists i. simpl. split; [lia | done].
  - destruct (outer_except _ _ _ _ _ _) as [w3 ro] eqn:Eo.
    apply outer_except_steps in Eo as ((E3 & _ & R3 & _) & _ & Ro & C3 & _).
    assert (A3 : attempts_of (trace w3)
                 = attempts_of (trace w) ++ [(u, k, false)]).
    { erewrite emits_attempts; [|eapply emits_weaken;
        [apply chatter_or_slept_not_attempt | exact E3]].
      simpl. by rewrite att_snoc_attempt, A2. }
    simpl in R3.
    destruct Ro as [->|[->|[-> Hh]]].
    + apply IH in H as (R4 & n & Hn). split; [lia|]. exists (S n).
      destruct Hn as [(-> & k' & Hk' & A4)|(Hr & Hle & A4 & C4)].
      * left. split; [done|]. exists k'. split; [done|].
        rewrite A4, A3. simpl. by rewrite <- !app_assoc.
      * right. split_and!; [done | simpl; lia | |].
        -- rewrite A4, A3. simpl. by rewrite <- !app_assoc.
        -- intros Hf. destruct (C4 Hf) as [->|(i & Hi & Hfi)];
             [by left|]. right. exists i. split; [lia | done].
    + simplify_eq. split; [lia|]. exists 1%nat. right.
      split_and!; [done | simpl; lia | by rewrite A3 |].
      intros _. right. destruct C3 as (i & Hi & Hfi); [done|].
      exists i. simpl in Hi. split; [lia | done].
    + simplify_eq. split; [lia|]. exists 1%nat. right.
      split_and!; [done | simpl; lia | by rewrite A3 | done].
Qed.

Lemma try_fallbacks_orderly urls :
  stays_set flag ->
  forall w w' r,
    try_fallbacks IS_LINUX IS_WINDOWS flag env job urls w = (w', r) ->
    exists n,
      attempts_of (trace w') =
        attempts_of (trace w) ++ map (fun u => (u, 1, false)) (take n urls)
      \/ exists fu, urls !! n = Some fu
                    /\ attempts_of (trace w') =
                         attempts_of (trace w)
                         ++ map (fun u => (u, 1, false)) (take n urls)
                         ++ [(fu, 1, true)].
Proof.
  intros Hm. induction urls as [|fu rest IH]; intros w w' r H; simpl in H.
  { simplify_eq. exists 0%nat. left. by rewrite app_nil_r. }
  unfold is_cancelled in H. destruct (flag (reads w)) eqn:Hfl.
  { simplify_eq. simpl. exists 0%nat. left.
    by rewrite !att_snoc, app_nil_r. }
  unfold _try_download in H.
  destruct (try_attempts _ _ _ _ _ _ _ _ _) as [w1 r1] eqn:E.
  apply try_attempts_orderly in E as (R1 & n & Hn).
  simpl in R1, Hn. rewrite att_snoc in Hn by done.
  destruct Hn as [(-> & k & Hk & A1)|(Hr & Hle & A1 & C1)].
  { simplify_eq. destruct n as [|n]; vm_compute in Hk; [|by destruct n].
    simplify_eq. exists 0%nat. right. exists fu. split; [done|].
    by rewrite A1. }
  assert (T : map (fun k => (fu, k, false)) (take n (range_from_1 1))
              = map (fun u => (u, 1, false)) (take n (fu :: rest)))
    by (destruct n as [|[|n]]; [done | done | lia]).
  rewrite T in A1. clear T.
  destruct r1 as [[]|e|]; try done.
  2,3: simplify_eq; exists n; by left.
  assert (Hset : cancelled_between flag w w1 -> flag (reads w1) = true).
  { intros (i & Hi & Hfi).
    eapply stays_set_later; [done | | exact Hfi]. lia. }
  destruct rest as [|fu2 rest2]; simpl in H.
  { simplify_eq. exists n. by left. }
  unfold is_cancelled in H. destruct (flag (reads w1)) eqn:Hfl1.
  { simplify_eq. simpl. exists n. left. by rewrite !att_snoc. }
  destruct C1 as [->|(i & Hi & Hfi)]; [done | |].
  2:{ assert (false = true); [|done].
      apply Hset. exists i. simpl in Hi. split; [lia | done]. }
  assert (H' : try_fallbacks IS_LINUX IS_WINDOWS flag env job
                 (fu2 :: rest2) w1 = (w', r)).
  { simpl. unfold is_cancelled. by rewrite Hfl1. }
  apply IH in H' as [m Hm']. exists (S m). simpl in A1.
  destruct Hm' as [A2|(fu' & Hfu' & A2)]; [left|right; exists fu'; split; [done|]];
    rewrite A2, A1; simpl; by rewrite <- ?app_assoc.
Qed.

Lemma cut_short_primary n :
  cut_short (schedule job)
    (map (fun k => (url job, k, false))
         (take n (range_from_1 (retry_count job)))).
Proof.
  unfold schedule. rewrite <- (map_map (fun k => (url job, k))
                                (fun x => (x, false))), <- firstn_map.
  apply cut_short_left.
Qed.

Lemma cut_short_primary_ok n k :
  range_from_1 (retry_count job) !! n = Some k ->
  cut_short (schedule job)
    (map (fun k => (url job, k, false))
         (take n (range_from_1 (retry_count job)))
     ++ [(url job, k, true)]).
Proof.
  intros Hk. unfold schedule.
  rewrite <- (map_map (fun k => (url job, k)) (fun x => (x, false))),
    <- firstn_map.
  apply cut_short_left_ok.
  change (map ?f ?l !! n) with ((f <$> l) !! n).
  by rewrite list_lookup_fmap, Hk.
Qed.

Lemma cut_short_fallback m :
  cut_short (schedule job)
    (map (fun k => (url job, k, false)) (range_from_1 (retry_count job))
     ++ map (fun u => (u, 1, false)) (take m (fallback_urls job))).
Proof.
  unfold schedule.
  rewrite <- (map_map (fun k => (url job, k)) (fun x => (x, false))).
  rewrite <- (map_map (fun u : string => (u, 1)) (fun x => (x, false))),
    <- firstn_map.
  apply cut_short_right.
Qed.

Lemma cut_short_fallback_ok m fu :
  fallback_urls job !! m = Some fu ->
  cut_short (schedule job)
    (map (fun k => (url job, k, false)) (range_from_1 (retry_count job))
     ++ map (fun u => (u, 1, false)) (take m (fallback_urls job))
     ++ [(fu, 1, true)]).
Proof.
  intros Hfu. unfold schedule.
  rewrite <- (map_map (fun k => (url job, k)) (fun x => (x, false))).
  rewrite <- (map_map (fun u : string => (u, 1)) (fun x => (x, false))),
    <- firstn_map.
  apply cut_short_right_ok.
  change (map ?f ?l !! m) with ((f <$> l) !! m).
  by rewrite list_lookup_fmap, Hfu.
Qed.

Lemma run_body_orderly w w1 r :
  stays_set flag ->
  run_body IS_LINUX IS_WINDOWS flag env job w = (w1, r) ->
  exists d,
    attempts_of (trace w1) = attempts_of (trace w) ++ d
    /\ cut_short (schedule job) d.
Proof.
  intros Hm H. unfold run_body, is_cancelled in H. simpl in H.
  destruct (flag (reads w)) eqn:Hfl.
  { simplify_eq. exists []. simpl. rewrite !att_snoc, app_nil_r by done.
    split; [done|]. apply (cut_short_primary 0). }
  unfold _try_download in H.
  destruct (try_attempts _ _ _ _ _ _ _ _ _) as [w2 r2] eqn:E.
  apply try_attempts_orderly in E as (R2 & n & Hn).
  simpl in R2, Hn. rewrite !att_snoc in Hn by done.
  destruct Hn as [(-> & k & Hk & A2)|(Hr & Hle & A2 & C2)].
  { simplify_eq. eexists. split; [exact A2|].
    by apply cut_short_primary_ok. }
  destruct r2 as [[]|e|]; try done.
  2,3: simplify_eq; eexists; split; [exact A2 | apply cut_short_primary].
  destruct (flag (reads w2)) eqn:Hfl2.
  { simplify_eq. simpl. rewrite !att_snoc by done.
    eexists; split; [exact A2 | apply cut_short_primary]. }
  destruct C2 as [->|(i & Hi & Hfi)]; [done | |].
  2:{ assert (Hx : flag (reads w2) = true)
        by (eapply stays_set_later; [done | | exact Hfi]; simpl in Hi; lia).
      congruence. }
  rewrite firstn_all in A2.
  assert (G : forall w3 r3 m,
            (attempts_of (trace w3) =
               attempts_of (trace w)
               ++ map (fun k => (url job, k, false))
                      (range_from_1 (retry_count job))
               ++ map (fun u => (u, 1, false)) (take m (fallback_urls job))
             \/ exists fu, fallback_urls job !! m = Some fu
                  /\ attempts_of (trace w3) =
                       attempts_of (trace w)
                       ++ map (fun k => (url job, k, false))
                              (range_from_1 (retry_count job))
                       ++ map (fun u => (u, 1, false))
                              (take m (fallback_urls job))
                       ++ [(fu, 1, true)]) ->
            match r3 with
            | Ok true => (w3, Ok tt)
            | Raise e => (w3, Raise e)
            | Stuck => (w3, Stuck)
            | Ok false =>
                let '(c, w) := is_cancelled flag w3 in
                if negb c then
                  (emit (Finished false (filepath_str job)
                           "All download URLs failed")
                     (emit (Progress (filepath_str job)
                              ("All URLs failed for: "
                                 +:+ name (filepath job)) 0) w), Ok tt)
                else (w, Ok tt)
            end = (w1, r) ->
            exists d,
              attempts_of (trace w1) = attempts_of (trace w) ++ d
              /\ cut_short (schedule job) d).
  { intros w3 r3 m A3 H3.
    assert (A1 : attempts_of (trace w1) = attempts_of (trace w3)).
    { destruct r3 as [[]|e|]; try by simplify_eq.
      unfold is_cancelled in H3. destruct (flag (reads w3));
        simpl in H3; simplify_eq; simpl; by rewrite !att_snoc. }
    destruct A3 as [A3|(fu & Hfu & A3)]; rewrite A1, A3;
      eexists; (split; [reflexivity|]).
    - apply cut_short_fallback.
    - by apply cut_short_fallback_ok. }
  destruct (fallback_urls job) as [|fb rest] eqn:Efb.
  - eapply (G _ (Ok false) 0%nat); [|exact H].
    left. simpl. rewrite att_snoc by done. rewrite A2.
    by rewrite app_nil_r.
  - destruct (try_fallbacks _ _ _ _ _ _ _) as [w3 r3] eqn:E3.
    apply try_fallbacks_orderly in E3 as [m A3]; [|done].
    simpl in A3. rewrite !att_snoc in A3 by done. rewrite A2 in A3.
    eapply (G w3 r3 m); [|exact H].
    destruct A3 as [A3|(fu & Hfu & A3)]; [left|right; exists fu; split; [done|]];
      rewrite A3; by rewrite <- !app_assoc.
Qed.

Lemma run_orderly w :
  stays_set flag ->
  exists d,
    attempts_of (trace (run' w).1) = attempts_of (trace w) ++ d
    /\ cut_short (schedule job) d.
Proof.
  intros Hm. unfold run.
  destruct (run_body _ _ _ _ _ _) as [w1 r1] eqn:E.
  apply run_body_orderly in E as (d & A & Hc); [|done].
  exists d. split; [|done].
  destruct r1 as [x|e|]; simpl; [done| |done].
  unfold is_cancelled. destruct (flag (reads w1)); simpl;
    by rewrite ?att_snoc.
Qed.

(** C3.  Whatever the outcomes of the attempts, and with a flag that
    stays set once it is set, the attempts made follow the schedule
    [primary x retry_count], then each fallback once: they are its first
    [n] attempts, all failed, possibly followed by the next one, a
    success.  With the flag never set and a host in every URL, they are
    all of the schedule up to and including the first attempt that
    succeeds.  In particular, when the primary URL fails every time and
    the first fallback works, these are [retry_count] failed attempts on
    the primary URL and then one successful attempt on the fallback. *)
Theorem attempts_follow_schedule (s : FS) (t : Z) :
  let atts := attempts_of (trace (run' (init_world s t)).1) in
  (stays_set flag -> cut_short (schedule job) atts)
  /\ (never_set flag -> has_hosts job ->
      atts = plan env 0 (schedule job)
      /\ (forall fb rest,
            fallback_urls job = fb :: rest ->
            (forall i, (i < Z.to_nat (retry_count job))%nat ->
                       attempt_ok (url job) (env i) = false) ->
            attempt_ok fb (env (Z.to_nat (retry_count job))) = true ->
            atts = map (fun k => (url job, k, false))
                       (range_from_1 (retry_count job))
                   ++ [(fb, 1, true)])).
Proof.
  intros atts. subst atts. split.
  { intros Hm. destruct (run_orderly (init_world s t) Hm) as (d & A & Hc).
    by rewrite A. }
  intros Hns Hh. rewrite run_plan by done. simpl.
  split; [done|]. intros fb rest Hfb Hfail Hok.
  unfold schedule. rewrite Hfb. unfold range_from_1.
  generalize (Z.to_nat (retry_count job)) Hfail Hok. clear.
  intros n. change 0%nat with (1 - 1)%nat at 1.
  assert (G : forall b, (forall i, (i < n)%nat ->
                attempt_ok (url job) (env (b + i)) = false) ->
              attempt_ok fb (env (b + n)) = true ->
              plan env b
                (map (fun k => (url job, k)) (map Z.of_nat (seq (S b) n))
                 ++ map (fun u => (u, 1)) (fb :: rest))
              = map (fun k => (url job, k, false))
                    (map Z.of_nat (seq (S b) n)) ++ [(fb, 1, true)]).
  { induction n as [|n IH]; intros b Hfail Hok; simpl.
    - rewrite Nat.add_0_r in Hok. by rewrite Hok.
    - specialize (Hfail 0%nat ltac:(lia)) as H0.
      rewrite Nat.add_0_r in H0. rewrite H0. f_equal.
      apply IH.
      + intros i Hi. replace (S b + i)%nat with (b + S i)%nat by lia.
        apply Hfail. lia.
      + by replace (S b + n)%nat with (b + S n)%nat by lia. }
  intros Hfail Hok. simpl. apply (G 0%nat); done.
Qed.

(** *** Success of an attempt *)

(** C7, as the code has it.  An attempt returns [True] exactly when the
    transfer completes, the file is not empty, the flag is not seen set
    in flight, and moreover the directory can be made again and the file
    moved.  A job that reports success has a destination file that is
    not empty. *)
Theorem attempt_succeeds_iff (u : string) (a : AttemptEnv) (w : World)
        (s : FS) (t : Z) :
  ((attempt_body IS_LINUX IS_WINDOWS flag job u a w).2 = Ok true
   <-> transfer_completes u a = true /\ file_nonempty a = true
       /\ unset_during flag (reads w) (reads_in_flight a)
       /\ moved a = true)
  /\ (forall p m,
        In (true, p, m) (finished_of (trace (run' (init_world s t)).1)) ->
        exists f, fs (run' (init_world s t)).1 !! dest job = Some f
                  /\ data f <> []).
Proof.
  split.
  - split.
    + destruct (attempt_body _ _ _ _ _ _ _) as [w' r] eqn:E. simpl.
      intros ->. by apply attempt_body_true in E as (? & ? & ? & ? & _).
    + intros (Ht & Hn & U & Hm).
      destruct (attempt_body_complete IS_LINUX IS_WINDOWS flag job u a w)
        as [w' E]; try done. by rewrite E.
  - intros p m Hin.
    destruct (run' (init_world s t)) as [w' r] eqn:E. simpl in *.
    apply run_general in E as (_ & C). unfold silent in C. simpl in C.
    destruct C as [((_ & _ & D) & _)|[(S0 & _)|
                  [(_ & _ & F)|((_ & _ & F) & _)]]].
    + done.
    + by rewrite S0 in Hin.
    + rewrite F in Hin. simpl in Hin. destruct Hin as [?|[]]. done.
    + rewrite F in Hin. simpl in Hin. destruct Hin as [?|[]]. done.
Qed.

(** *** Permissions *)

Lemma verify_and_move_chmod win' x a tmp w :
  tmp <> dest job ->
  outcome job (verify_and_move IS_WINDOWS flag job (with_chmod x a) tmp w)
  = outcome job (verify_and_move win' flag job a tmp w).
Proof.
  intros Hne. unfold verify_and_move. simpl.
  destruct (getsize tmp (fs w)) as [size|] eqn:Hg; [|done].
  destruct (size =? 0); [done|].
  destruct (e_mkdir2 a); [done|]. destruct (e_move a); [done|].
  unfold getsize in Hg. destruct (fs w !! tmp) as [f|] eqn:Hf; [|done].
  assert (Hm : move tmp (dest job) (fs w) !! dest job = Some f).
  { unfold move. rewrite Hf. by rewrite lookup_insert_eq. }
  assert (Hc : data <$> (chmod (dest job) 420 (move tmp (dest job) (fs w))
                           !! dest job) = Some (data f)).
  { unfold chmod. rewrite Hm. by rewrite lookup_insert_eq. }
  unfold outcome, is_cancelled.
  destruct IS_WINDOWS, win', x, (e_chmod_file a); simpl;
    destruct (flag (reads w)); simpl;
    rewrite ?Hc, ?Hm; unfold finished_of; rewrite ?omap_app; simpl;
    by rewrite ?app_nil_r.
Qed.

Lemma download_to_temp_chmod win' x u a tmp w :
  tmp <> dest job ->
  outcome job (download_to_temp IS_WINDOWS flag job u (with_chmod x a) tmp w)
  = outcome job (download_to_temp win' flag job u a tmp w).
Proof.
  intros Hne. unfold download_to_temp.
  change (e_transfer (with_chmod x a)) with (e_transfer a).
  change (inner_except flag (with_chmod x a)) with (inner_except flag a).
  change (remove_temp (with_chmod x a)) with (remove_temp a).
  destruct (is_cancelled flag w) as [[] w1]; [done|].
  destruct (urlretrieve _ _ _ _ _ _) as [w2 [e|]]; [done|].
  destruct (is_cancelled flag w2) as [[] w3]; [done|].
  by apply verify_and_move_chmod.
Qed.

Lemma attempt_body_chmod win' x u a w :
  outcome job (attempt_body IS_LINUX IS_WINDOWS flag job u (with_chmod x a) w)
  = outcome job (attempt_body IS_LINUX win' flag job u a w).
Proof.
  unfold attempt_body. simpl.
  destruct (e_mkdir a); [done|]. destruct (e_request a); [done|].
  destruct (e_mkstemp a); [done|]. by apply download_to_temp_chmod.
Qed.

(** C10.  What [os.chmod] does to the destination, and whether it is
    called at all, changes nothing to how an attempt ends, to the signals
    sent or to the bytes at the destination.  So an attempt whose
    transfer completes with a file that is not empty, that is moved and
    not cancelled, leaves the file at the destination and reports
    success, whatever happens to the permissions. *)
Theorem chmod_does_not_matter (win' : bool) (x : option string)
        (u : string) (a : AttemptEnv) (w : World) :
  outcome job (attempt_body IS_LINUX IS_WINDOWS flag job u (with_chmod x a) w)
  = outcome job (attempt_body IS_LINUX win' flag job u a w)
  /\ (transfer_completes u a = true -> file_nonempty a = true ->
      moved a = true ->
      unset_during flag (reads w) (S (reads_in_flight a)) ->
      exists w' m,
        attempt_body IS_LINUX IS_WINDOWS flag job u (with_chmod x a) w
        = (w', Ok true)
        /\ fs w' !! dest job = Some (mkFile (downloaded a) m)
        /\ finished_of (trace w') =
             finished_of (trace w) ++ [(true, filepath_str job, "")]).
Proof.
  split; [apply attempt_body_chmod|].
  intros Ht Hn Hm U.
  destruct (attempt_body_complete IS_LINUX IS_WINDOWS flag job u
              (with_chmod x a) w) as [w' E]; try done.
  { eapply unset_sub; [exact U | lia | unfold reads_in_flight; simpl; lia]. }
  pose proof E as E'.
  apply attempt_body_true in E' as (_ & _ & _ & _ & _ & [m D] & _ & F).
  exists w', m. split_and!; [done | done |].
  rewrite F.
  change (reads_in_flight (with_chmod x a)) with (reads_in_flight a).
  by rewrite (unset_at _ _ _ (reads w + reads_in_flight a)%nat U) by lia.
Qed.

(** *** Backoff *)

Lemma sleeps_snoc tr e :
  not_slept e -> sleeps_of (tr ++ [e]) = sleeps_of tr.
Proof.
  intros He. unfold sleeps_of. rewrite omap_app. simpl.
  destruct e; simpl; try done; by rewrite app_nil_r.
Qed.

Lemma sleeps_slices n : sleeps_of (concat (repeat slice n)) = repeat 100 n.
Proof. induction n as [|n IH]; [done|]. simpl. by rewrite <- IH. Qed.

Lemma try_attempts_no_sleep u max todo :
  Forall (fun k => max <= k) todo ->
  forall w,
    sleeps_of (trace (try_attempts IS_LINUX IS_WINDOWS flag env job
                        u max todo w).1)
    = sleeps_of (trace w).
Proof.
  induction 1 as [|k rest Hk _ IH]; intros w; simpl; [done|].
  unfold is_cancelled. destruct (flag (reads w)); simpl.
  { by rewrite sleeps_snoc. }
  match goal with |- context [attempt_body _ _ _ _ _ ?a ?w0] =>
    destruct (attempt_body IS_LINUX IS_WINDOWS flag job u a w0)
      as [w2 rb] eqn:E
  end.
  apply attempt_body_attempts in E as [_ S2]. simpl in S2.
  rewrite sleeps_snoc in S2 by done.
  destruct rb as [b|e|]; simpl; [by rewrite sleeps_snoc | | done].
  destruct (outer_except _ _ _ _ _ _) as [w3 ro] eqn:Eo.
  apply outer_except_steps in Eo as (_ & _ & _ & _ & S3).
  specialize (S3 Hk). simpl in S3. rewrite sleeps_snoc in S3 by done.
  destruct ro as [[]|e'|]; simpl; rewrite ?IH; congruence.
Qed.

Lemma try_fallbacks_no_sleep urls : forall w,
  sleeps_of (trace (try_fallbacks IS_LINUX IS_WINDOWS flag env job urls w).1)
  = sleeps_of (trace w).
Proof.
  induction urls as [|fu rest IH]; intros w; simpl; [done|].
  unfold is_cancelled. destruct (flag (reads w)); simpl.
  { by rewrite !sleeps_snoc. }
  unfold _try_download.
  match goal with |- context [try_attempts _ _ _ _ _ ?u ?m ?l ?w0] =>
    pose proof (try_attempts_no_sleep u m l
                  ltac:(repeat constructor; simpl; lia) w0) as S1;
    destruct (try_attempts IS_LINUX IS_WINDOWS flag env job u m l w0)
      as [w1 r1]
  end.
  simpl in S1. rewrite sleeps_snoc in S1 by done.
  destruct r1 as [[]|e|]; simpl; try done. by rewrite IH.
Qed.


End WorkerClaims.

(** * Facts about the controller *)

Lemma sample_of_hosts rows : hosts_ok (map sample_of rows).
Proof.
  unfold hosts_ok. induction rows as [|r rows IH]; simpl; constructor; [|done].
  unfold sample_url, sample_of. simpl. rewrite primary_url_host. eauto.
Qed.

Lemma same_settings_refl g : same_settings g g.
Proof. unfold same_settings. tauto. Qed.

Lemma same_settings_trans g1 g2 g3 :
  same_settings g1 g2 -> same_settings g2 g3 -> same_settings g1 g3.
Proof.
  unfold same_settings. intros H1 H2.
  destruct H1 as (?&?&?&?&?&?&?&?&?&?&?&?).
  destruct H2 as (?&?&?&?&?&?&?&?&?&?&?&?).
  split_and!; congruence.
Qed.

(** ** The active set *)

Lemma register_snoc retry l s m :
  register retry (l ++ [s]) m
  = <[sample_path s := worker_of retry s]> (register retry l m).
Proof. unfold register. by rewrite foldl_app. Qed.

Lemma register_cons retry s l m :
  register retry (s :: l) m
  = register retry l (<[sample_path s := worker_of retry s]> m).
Proof. done. Qed.

Lemma size_register_le retry l : forall m,
  (size (register retry l m) <= size m + length l)%nat.
Proof.
  induction l as [|s l IH]; intros m; [simpl; lia|].
  rewrite register_cons. etransitivity; [apply IH|].
  destruct (m !! sample_path s) eqn:E.
  - rewrite map_size_insert_Some by eauto. simpl. lia.
  - rewrite map_size_insert_None by done. simpl. lia.
Qed.

Lemma register_lookup_ne retry l k : forall m,
  ~ In k (map sample_path l) -> register retry l m !! k = m !! k.
Proof.
  induction l as [|s l IH]; intros m Hk; [done|].
  rewrite register_cons. simpl in Hk.
  rewrite IH by tauto. rewrite lookup_insert_ne; [done|]. tauto.
Qed.

Lemma register_lookup_in retry l s : forall m,
  In s l -> is_Some (register retry l m !! sample_path s).
Proof.
  induction l as [|s' l IH] using rev_ind; intros m Hs; [done|].
  rewrite register_snoc. apply in_app_or in Hs as [Hs|[->|[]]].
  - destruct (decide (sample_path s' = sample_path s)) as [->|Hne].
    + rewrite lookup_insert_eq. eauto.
    + rewrite lookup_insert_ne by done. by apply IH.
  - rewrite lookup_insert_eq. eauto.
Qed.

Lemma size_register_fresh retry l : forall m,
  NoDup (map sample_path l) ->
  (forall s, In s l -> m !! sample_path s = None) ->
  size (register retry l m) = (size m + length l)%nat.
Proof.
  induction l as [|s l IH]; intros m Hnd Hfresh; [simpl; lia|].
  rewrite register_cons. simpl in Hnd.
  inversion Hnd as [|? ? Hs Hnd']; subst.
  rewrite IH; [| done |].
  - rewrite map_size_insert_None; [simpl; lia|]. apply Hfresh. by left.
  - intros s' Hs'. rewrite lookup_insert_ne.
    + apply Hfresh. by right.
    + intros E. apply Hs. rewrite E. apply list_elem_of_In, in_map_iff.
      by exists s'.
Qed.

Lemma register_nonempty retry l m : l <> [] -> register retry l m <> ∅.
Proof.
  destruct l as [|s l]; [done|]. intros _ E.
  pose proof (register_lookup_in retry (s :: l) s m ltac:(by left)) as [x Hx].
  rewrite E in Hx. by rewrite lookup_empty in Hx.
Qed.

(** ** Admission *)

Lemma starts_snoc_log tr msg : starts_of (tr ++ [Log msg]) = starts_of tr.
Proof. unfold starts_of. rewrite omap_app. simpl. by rewrite app_nil_r. Qed.

Lemma starts_snoc_start tr w :
  starts_of (tr ++ [PoolStart w]) = starts_of tr ++ [w].
Proof. unfold starts_of. by rewrite omap_app. Qed.

(** The loop takes in the first samples of the backlog, as many as it has
    passes or as there are: it takes them off the backlog, registers them
    and hands them to the pool, in order. *)
Lemma launch_spec n : forall g,
  is_shutting_down g = false -> hosts_ok (samples g) ->
  let k := Nat.min n (length (samples g)) in
  let retry := sb_value (retry_spinbox g) in
  exists g',
    launch n g = (g', None)
    /\ samples g' = drop k (samples g)
    /\ active_downloads g' =
         register retry (take k (samples g)) (active_downloads g)
    /\ starts_of (gui_trace g') =
         starts_of (gui_trace g) ++ map (worker_of retry) (take k (samples g))
    /\ same_settings g g'.
Proof.
  induction n as [|n IH]; intros g Hsd Hh; simpl.
  { exists g. split_and!; simpl; rewrite ?drop_0, ?app_nil_r; try done;
      apply same_settings_refl. }
  rewrite Hsd. destruct (samples g) as [|[[u p] f] rest] eqn:Es; simpl.
  { exists g. rewrite Es.
    split_and!; simpl; rewrite ?drop_0, ?app_nil_r; try done;
      apply same_settings_refl. }
  inversion Hh as [|? ? [h Hu] Hrest]; subst. unfold sample_url in Hu.
  simpl in Hu. rewrite Hu.
  match goal with |- context [launch n ?g0] =>
    destruct (IH g0) as (g' & E & S' & A' & T' & F'); [done | done |]
  end.
  simpl in *. exists g'. rewrite E.
  split_and!; [done | done | done | |].
  - rewrite T'. rewrite starts_snoc_start, starts_snoc_log.
    by rewrite <- app_assoc.
  - eapply same_settings_trans; [|exact F'].
    unfold same_settings, all_done_of, boxes_of. simpl.
    rewrite !omap_app. simpl. rewrite !app_nil_r. tauto.
Qed.

Lemma start_next_downloads_spec g :
  is_shutting_down g = false -> hosts_ok (samples g) ->
  let k := Z.to_nat (Z.min (available_threads g)
                           (Z.of_nat (length (samples g)))) in
  let retry := sb_value (retry_spinbox g) in
  exists g',
    start_next_downloads g = (g', None)
    /\ samples g' = drop k (samples g)
    /\ active_downloads g' =
         register retry (take k (samples g)) (active_downloads g)
    /\ starts_of (gui_trace g') =
         starts_of (gui_trace g) ++ map (worker_of retry) (take k (samples g))
    /\ same_settings g g'.
Proof.
  intros Hsd Hh k retry. unfold start_next_downloads. rewrite Hsd.
  destruct (launch_spec k g Hsd Hh) as (g' & E & S' & A' & T' & F').
  fold k. replace (Nat.min k (length (samples g))) with k in * by (subst k; lia).
  exists g'. done.
Qed.

Lemma start_next_downloads_shut g :
  is_shutting_down g = true -> start_next_downloads g = (g, None).
Proof. intros H. unfold start_next_downloads. by rewrite H. Qed.

Lemma hosts_ok_drop k l : hosts_ok l -> hosts_ok (drop k l).
Proof. unfold hosts_ok. apply Forall_drop. Qed.

(** ** Handling a result *)

Lemma record_result_spec success fp e g :
  let g' := record_result success fp e g in
  samples g' = samples g
  /\ active_downloads g' = delete fp (active_downloads g)
  /\ finished_count g' = (if success then finished_count g + 1
                          else finished_count g)
  /\ failed_count g' = (if success then failed_count g
                        else failed_count g + 1)
  /\ total_count g' = total_count g
  /\ is_shutting_down g' = is_shutting_down g
  /\ thread_spinbox g' = thread_spinbox g
  /\ retry_spinbox g' = retry_spinbox g
  /\ max_thread_count g' = max_thread_count g
  /\ starts_of (gui_trace g') = starts_of (gui_trace g)
  /\ all_done_of (gui_trace g') = all_done_of (gui_trace g).
Proof.
  intros g'. subst g'. unfold record_result.
  destruct success; simpl;
    (destruct (active_downloads g !! fp) eqn:E;
     [|rewrite (delete_id _ _ E)]); simpl;
    unfold starts_of, all_done_of; rewrite !omap_app; simpl;
    rewrite !app_nil_r; split_and!; done.
Qed.

Lemma downloads_completed_spec g :
  let g' := downloads_completed g in
  samples g' = samples g
  /\ active_downloads g' = active_downloads g
  /\ finished_count g' = finished_count g
  /\ failed_count g' = failed_count g
  /\ total_count g' = total_count g
  /\ is_shutting_down g' = is_shutting_down g
  /\ limit g' = limit g
  /\ sb_minimum (thread_spinbox g') = sb_minimum (thread_spinbox g)
  /\ sb_maximum (thread_spinbox g') = sb_maximum (thread_spinbox g)
  /\ starts_of (gui_trace g') = starts_of (gui_trace g)
  /\ (is_shutting_down g = false ->
      sb_enabled (thread_spinbox g') = true
      /\ all_done_of (gui_trace g') =
           all_done_of (gui_trace g)
           ++ [(finished_count g, failed_count g)]).
Proof.
  intros g'. subst g'. unfold downloads_completed, limit.
  destruct (is_shutting_down g) eqn:Hsd; [split_and!; done|]. simpl.
  destruct (0 <? finished_count g); [destruct (failed_count g =? 0)|]; simpl;
    unfold starts_of, all_done_of; rewrite !omap_app; simpl;
    rewrite !app_nil_r; split_and!; done.
Qed.

(** The result of [handle_download_result], unfolded: the state after the
    refill, and whether completion fired. *)
Lemma handle_download_result_spec success fp e g :
  is_shutting_down g = false -> hosts_ok (samples g) ->
  let g1 := record_result success fp e g in
  let k := Z.to_nat (Z.min (available_threads g1)
                           (Z.of_nat (length (samples g)))) in
  exists g2,
    start_next_downloads g1 = (g2, None)
    /\ samples g2 = drop k (samples g)
    /\ active_downloads g2 =
         register (sb_value (retry_spinbox g)) (take k (samples g))
                  (delete fp (active_downloads g))
    /\ same_settings g1 g2
    /\ starts_of (gui_trace g2) =
         starts_of (gui_trace g)
         ++ map (worker_of (sb_value (retry_spinbox g))) (take k (samples g))
    /\ handle_download_result success fp e g =
         (if bool_decide (active_downloads g2 = ∅)
             && (finished_count g2 + failed_count g2 =? total_count g2)
          then downloads_completed g2 else g2, None).
Proof.
  intros Hsd Hh g1 k.
  destruct (record_result_spec success fp e g)
    as (S1 & A1 & Fi1 & Fa1 & T1 & Sd1 & Th1 & Re1 & M1 & St1 & D1).
  fold g1 in S1, A1, Fi1, Fa1, T1, Sd1, Th1, Re1, M1, St1, D1.
  destruct (start_next_downloads_spec g1) as (g2 & E & S2 & A2 & St2 & F2).
  { congruence. }
  { by rewrite S1. }
  rewrite S1, Re1, A1, St1 in *. fold k in S2, A2, St2.
  exists g2. split_and!; try done.
  unfold handle_download_result. rewrite Hsd. fold g1. rewrite E.
  destruct F2 as (T2 & Fi2 & Fa2 & _). rewrite Fi2, Fa2, T2.
  by destruct (_ && _).
Qed.

(** ** What every reachable state satisfies *)

Lemma size_delete_le (fp : string) (m : gmap string Worker) :
  (size (delete fp m) <= size m)%nat.
Proof.
  destruct (m !! fp) eqn:E.
  - rewrite map_size_delete_Some by eauto. lia.
  - rewrite map_size_delete_None by done. lia.
Qed.

Lemma handle_download_result_inv success fp e g :
  gui_inv g ->
  gui_inv (handle_download_result success fp e g).1
  /\ (handle_download_result success fp e g).2 = None.
Proof.
  intros Inv. destruct (is_shutting_down g) eqn:Hsd.
  { unfold handle_download_result. rewrite Hsd. done. }
  destruct Inv as (Hmin & Hmax & Hlim & Hh & Hrun).
  destruct (handle_download_result_spec success fp e g Hsd Hh)
    as (g2 & _ & S2 & A2 & F2 & _ & E).
  rewrite E. simpl. split; [|done].
  destruct (record_result_spec success fp e g)
    as (_ & A1 & _ & _ & _ & Sd1 & Th1 & _ & M1 & _).
  destruct F2 as (_ & _ & _ & Sd2 & Th2 & _ & _ & _ & M2 & _).
  assert (Inv2 : gui_inv g2).
  { unfold gui_inv, limit, run_in_progress in *.
    rewrite Th2, Th1, M2, M1, S2, A2.
    split_and!; try done; try lia; [by apply hosts_ok_drop|].
    intros Hr. destruct (Hrun Hr) as [Hsz Hmt]. split; [|done].
    pose proof (size_register_le (sb_value (retry_spinbox g))
      (take (Z.to_nat (Z.min (available_threads (record_result success fp e g))
                             (Z.of_nat (length (samples g))))) (samples g))
      (delete fp (active_downloads g))) as Hle.
    rewrite length_take in Hle.
    pose proof (size_delete_le fp (active_downloads g)).
    unfold available_threads in Hle |- *. rewrite A1, Th1 in Hle |- *. lia. }
  destruct (_ && _); [|done].
  destruct (downloads_completed_spec g2)
    as (Sc & Ac & _ & _ & _ & Sdc & Lc & Minc & Maxc & _ & En).
  destruct Inv2 as (Hmin2 & Hmax2 & Hlim2 & Hh2 & Hrun2).
  unfold gui_inv. rewrite Minc, Maxc, Lc, Sc.
  split_and!; try done; try lia.
  intros Hr. destruct En as [En _]; [congruence|].
  unfold run_in_progress in Hr. congruence.
Qed.

Lemma gui_inv_log msg g : gui_inv g -> gui_inv (log_message msg g).
Proof. done. Qed.

Lemma gui_inv_queue q g : gui_inv g -> gui_inv (set_queue q g).
Proof. done. Qed.

Lemma drain_inv n : forall g, gui_inv g -> gui_inv (drain n g).
Proof.
  induction n as [|n IH]; intros g Inv; simpl; [done|].
  destruct (download_results_queue g) as [|[[success fp] e] rest]; [done|].
  destruct (handle_download_result_inv success fp e (set_queue rest g))
    as [Inv' E']; [done|].
  destruct (handle_download_result _ _ _ _) as [g' [x|]]; simpl in *;
    [done | by apply IH].
Qed.

Lemma start_downloads_inv mkdir g :
  gui_inv g ->
  gui_inv (start_downloads mkdir g).1 /\ (start_downloads mkdir g).2 = None.
Proof.
  intros Inv. unfold start_downloads.
  destruct (samples g) as [|s0 rest] eqn:Es; [done|].
  destruct Inv as (Hmin & Hmax & Hlim & Hh & Hrun).
  destruct mkdir as [e|].
  { simpl. split; [|done]. unfold gui_inv, limit, run_in_progress in *. simpl.
    split_and!; try done; lia. }
  match goal with |- context [start_next_downloads ?g0] => set (g1 := g0) end.
  assert (Inv1 : gui_inv g1).
  { unfold gui_inv, limit, run_in_progress in *. subst g1. simpl.
    rewrite map_size_empty. split_and!; try done; lia. }
  destruct (is_shutting_down g) eqn:Hsd.
  { rewrite start_next_downloads_shut by done. done. }
  destruct (start_next_downloads_spec g1) as (g2 & E & S2 & A2 & _ & F2);
    [done | by subst g1 |].
  rewrite E. simpl. split; [|done].
  destruct F2 as (_ & _ & _ & Sd2 & Th2 & _ & _ & _ & M2 & _).
  destruct Inv1 as (Hmin1 & Hmax1 & Hlim1 & Hh1 & Hrun1).
  unfold gui_inv, limit, run_in_progress in *.
  rewrite Th2, M2, S2, A2.
  split_and!; try done; try lia; [by apply hosts_ok_drop|].
  intros Hr. destruct (Hrun1 Hr) as [Hsz Hmt]. split; [|done].
  match goal with |- context [register ?r ?l ?m] =>
    pose proof (size_register_le r l m) as Hle end.
  rewrite length_take in Hle. unfold available_threads in Hle.
  unfold available_threads. lia.
Qed.

Lemma gui_step_inv g g' : gui_inv g -> gui_step g g' -> gui_inv g'.
Proof.
  intros Inv Hstep. destruct Hstep.
  - (* load_csv_data *)
    destruct Inv as (Hmin & Hmax & Hlim & Hh & Hrun).
    unfold load_csv_data. simpl.
    destruct (0 <? _); unfold gui_inv, limit, run_in_progress in *; simpl;
      split_and!; try done; try lia; apply sample_of_hosts.
  - (* the threads spin box *)
    destruct Inv as (Hmin & Hmax & Hlim & Hh & Hrun).
    unfold user_sets_threads.
    destruct (sb_enabled (thread_spinbox g)) eqn:En;
      [|unfold gui_inv; done].
    unfold gui_inv, limit, run_in_progress in *. simpl.
    rewrite Hmin, Hmax, En. split_and!; try done; lia.
  - (* the retries spin box *)
    unfold user_sets_retries. by destruct (sb_enabled (retry_spinbox g)).
  - by apply start_downloads_inv.
  - unfold download_finished. by destruct (is_shutting_down g).
  - unfold process_download_queue. destruct (is_shutting_down g); [done|].
    by apply drain_inv.
  - by apply handle_download_result_inv.
  - (* stop_downloads *)
    destruct Inv as (Hmin & Hmax & Hlim & Hh & Hrun).
    unfold stop_downloads. destruct reply; [|unfold gui_inv; done].
    unfold gui_inv, limit, run_in_progress in *. simpl.
    split_and!; try done; try lia. constructor.
  - (* closeEvent *)
    destruct Inv as (Hmin & Hmax & Hlim & Hh & Hrun).
    unfold closeEvent. simpl.
    destruct (bool_decide _); [unfold gui_inv; done|].
    destruct reply; [|unfold gui_inv; done].
    unfold gui_inv, limit, run_in_progress in *. simpl.
    rewrite map_size_fmap. split_and!; try done; lia.
Qed.

Lemma reachable_inv g : reachable g -> gui_inv g.
Proof.
  induction 1 as [|g g' _ IH Hstep]; [|by eapply gui_step_inv].
  unfold gui_inv, limit, run_in_progress, init_gui. simpl.
  split_and!; try done; try lia. constructor.
Qed.

(** ** A run that is never stopped *)

Lemma NoDup_take_drop (k : nat) (l : list Sample) :
  NoDup (map sample_path l) ->
  NoDup (map sample_path (take k l))
  /\ NoDup (map sample_path (drop k l))
  /\ (forall s, In s (drop k l) -> ~ In (sample_path s) (map sample_path (take k l))).
Proof.
  intros Hnd. rewrite <- (take_drop k l) in Hnd at 1.
  rewrite map_app in Hnd. apply NoDup_app in Hnd as (H1 & H2 & H3).
  split_and!; [done | done |].
  intros s Hs Hin. apply (H2 (sample_path s)).
  - by apply list_elem_of_In.
  - apply list_elem_of_In, in_map_iff. by exists s.
Qed.

(** Refilling from a state where the backlog and the active set are
    disjoint keeps the sum: what leaves the backlog enters the active
    set. *)
Lemma refill_keeps_sum retry k (l : list Sample) (m : gmap string Worker) :
  NoDup (map sample_path l) ->
  (forall s, In s l -> m !! sample_path s = None) ->
  (size (register retry (take k l) m) + length (drop k l)
   = size m + length l)%nat
  /\ NoDup (map sample_path (drop k l))
  /\ (forall s, In s (drop k l) ->
        register retry (take k l) m !! sample_path s = None).
Proof.
  intros Hnd Hfresh.
  destruct (NoDup_take_drop k l Hnd) as (H1 & H2 & H3).
  split_and!; [|done|].
  - rewrite size_register_fresh; [| done |].
    + rewrite <- (take_drop k l) at 3. rewrite length_app. lia.
    + intros s Hs. apply Hfresh.
      rewrite <- (take_drop k l). apply in_or_app. by left.
  - intros s Hs. rewrite register_lookup_ne by by apply H3.
    apply Hfresh. rewrite <- (take_drop k l). apply in_or_app. by right.
Qed.

Lemma handle_result_run_inv success fp e g :
  run_inv g -> is_Some (active_downloads g !! fp) ->
  let g' := (handle_download_result success fp e g).1 in
  run_inv g'
  /\ ((all_done_of (gui_trace g') =
         all_done_of (gui_trace g) ++ [(finished_count g', failed_count g')]
       /\ complete g')
      \/ (all_done_of (gui_trace g') = all_done_of (gui_trace g)
          /\ ~ complete g')).
Proof.
  intros (Hbal & Hnd & Hfresh & Hh & Hsd) Hfp g'. subst g'.
  destruct (handle_download_result_spec success fp e g Hsd Hh)
    as (g2 & _ & S2 & A2 & F2 & _ & E).
  rewrite E. simpl.
  destruct (record_result_spec success fp e g)
    as (_ & A1 & Fi1 & Fa1 & T1 & Sd1 & _ & _ & _ & _ & D1).
  destruct F2 as (T2 & Fi2 & Fa2 & Sd2 & _ & _ & _ & _ & _ & _ & D2 & _).
  match type of A2 with context [take ?k0 _] => set (k := k0) in * end.
  destruct (refill_keeps_sum (sb_value (retry_spinbox g)) k (samples g)
              (delete fp (active_downloads g)) Hnd) as (Hsum & Hnd2 & Hfresh2).
  { intros s Hs. rewrite lookup_delete_ne; [by apply Hfresh|].
    intros ->. destruct Hfp as [x Hx]. rewrite Hfresh in Hx; done. }
  assert (Hsz : size (active_downloads g)
                = S (size (delete fp (active_downloads g)))).
  { destruct Hfp as [x Hx].
    rewrite <- (insert_delete_id (active_downloads g) fp x Hx) at 1.
    rewrite map_size_insert_None; [done | apply lookup_delete_eq]. }
  assert (Inv2 : run_inv g2).
  { unfold run_inv, aggregate in *.
    rewrite S2, A2, Fi2, Fa2, T2, Sd2, Fi1, Fa1, T1, Sd1.
    split_and!; try done; [|by apply hosts_ok_drop].
    destruct success; lia. }
  destruct (bool_decide (active_downloads g2 = ∅)) eqn:Hempty; simpl.
  2:{ split; [done|]. right. split; [congruence|].
      intros (_ & Ha & _). apply bool_decide_eq_false in Hempty. done. }
  destruct (finished_count g2 + failed_count g2 =? total_count g2) eqn:Hall.
  2:{ split; [done|]. right. split; [congruence|].
      intros (_ & _ & Hc). apply Z.eqb_neq in Hall. done. }
  apply bool_decide_eq_true in Hempty. apply Z.eqb_eq in Hall.
  destruct (downloads_completed_spec g2)
    as (Sc & Ac & Fic & Fac & Tc & Sdc & _ & _ & _ & _ & En).
  destruct En as [_ Dc]; [congruence|].
  destruct Inv2 as (Hbal2 & Hnd2' & Hfresh2' & Hh2 & Hsd2).
  assert (Hs2 : samples g2 = []).
  { unfold aggregate in Hbal2. rewrite Hempty, map_size_empty in Hbal2.
    destruct (samples g2); [done | simpl in Hbal2; lia]. }
  split.
  - unfold run_inv, aggregate. rewrite Sc, Ac, Fic, Fac, Tc, Sdc.
    split_and!; done.
  - left. split.
    + rewrite Dc, Fic, Fac. congruence.
    + unfold complete. rewrite Sc, Ac, Fic, Fac, Tc. done.
Qed.

Lemma start_run_inv g0 : loaded g0 -> run_inv (start_downloads None g0).1.
Proof.
  intros (Hne & Htot & Hnd & Hh & Hsd & Hlim). unfold start_downloads.
  destruct (samples g0) as [|s0 rest] eqn:Es; [done|].
  match goal with |- context [start_next_downloads ?g0] => set (g1 := g0) end.
  destruct (start_next_downloads_spec g1) as (g2 & E & S2 & A2 & _ & F2);
    [done | by subst g1; simpl; rewrite Es |].
  rewrite E. simpl.
  destruct F2 as (T2 & Fi2 & Fa2 & Sd2 & _).
  match type of A2 with context [take ?k0 _] => set (k := k0) in * end.
  subst g1. simpl in *.
  destruct (refill_keeps_sum (sb_value (retry_spinbox g0)) k (samples g0) ∅)
    as (Hsum & Hnd2 & Hfresh2); [by rewrite Es | done |].
  rewrite map_size_empty in Hsum.
  unfold run_inv, aggregate. rewrite S2, A2, Fi2, Fa2, T2, Sd2.
  assert (Hlen : length (samples g0) = S (length rest)) by (by rewrite Es).
  split_and!; try done; [lia | apply hosts_ok_drop; by rewrite Es].
Qed.

Lemma in_run_inv g0 g : in_run g0 g -> run_inv g.
Proof.
  induction 1 as [Hl|g success fp e _ IH Hfp].
  - by apply start_run_inv.
  - by apply handle_result_run_inv.
Qed.

(** * The claims about the controller *)

Lemma register_all_in retry l m s :
  In s l -> is_Some (register retry l m !! sample_path s).
Proof. apply register_lookup_in. Qed.



(** C9, as the code has it.  [start_downloads] validates nothing and never
    raises.  The window keeps the limit within 1..20 and builds every
    sample with its primary URL.  With no samples it only logs; when the
    output directory cannot be made it says so in a message box, before
    any worker is started, and starts none; otherwise it starts the first
    [min(limit, samples)] workers. *)
Theorem start_downloads_never_raises (mkdir : option string) (g : GUI) :
  reachable g ->
  let g' := (start_downloads mkdir g).1 in
  (start_downloads mkdir g).2 = None
  /\ 1 <= limit g <= 20
  /\ hosts_ok (samples g)
  /\ (samples g = [] -> g' = log_message "No samples to download" g)
  /\ (forall e, samples g <> [] -> mkdir = Some e ->
        boxes_of (gui_trace g') =
          boxes_of (gui_trace g)
          ++ [("critical", "Error", "Error creating output directory: " +:+ e)]
        /\ starts_of (gui_trace g') = starts_of (gui_trace g)
        /\ ~ run_in_progress g')
  /\ (samples g <> [] -> mkdir = None -> is_shutting_down g = false ->
        starts_of (gui_trace g') =
          starts_of (gui_trace g)
          ++ map (worker_of (sb_value (retry_spinbox g)))
                 (take (Z.to_nat (Z.min (limit g)
                                        (Z.of_nat (length (samples g)))))
                       (samples g))
        /\ boxes_of (gui_trace g') = boxes_of (gui_trace g)).
Proof.
  intros Hr g'. subst g'.
  pose proof (reachable_inv g Hr) as Inv.
  destruct (start_downloads_inv mkdir g Inv) as [_ E].
  destruct Inv as (_ & _ & Hlim & Hh & _).
  split_and!; try done; try lia.
  - intros Hs. unfold start_downloads. by rewrite Hs.
  - intros e Hs ->. unfold start_downloads.
    destruct (samples g); [done|]. simpl.
    unfold boxes_of, starts_of, run_in_progress. rewrite !omap_app. simpl.
    rewrite !app_nil_r. split_and!; done.
  - intros Hs -> Hsd. unfold start_downloads.
    destruct (samples g) as [|s0 rest] eqn:Es; [done|].
    match goal with |- context [start_next_downloads ?g0] => set (g1 := g0) end.
    destruct (start_next_downloads_spec g1) as (g2 & E2 & _ & _ & T2 & F2);
      [done | by subst g1; simpl; rewrite Es |].
    rewrite E2. simpl.
    destruct F2 as (_ & _ & _ & _ & _ & _ & _ & _ & _ & _ & _ & B2).
    subst g1. unfold available_threads in T2. simpl in T2, B2.
    rewrite map_size_empty, Z.sub_0_r in T2. rewrite Es in T2.
    unfold starts_of, boxes_of in *.
    rewrite ?omap_app in T2. rewrite ?omap_app in B2.
    simpl in T2, B2. rewrite ?app_nil_r in T2. rewrite ?app_nil_r in B2.
    done.
Qed.

(** * The claims at work on concrete worlds *)

Lemma never_set_flag_never : never_set flag_never.
Proof. intros n. reflexivity. Qed.

Lemma stays_set_flag_from k : stays_set (flag_from k).
Proof.
  intros n H. unfold flag_from in *.
  apply Nat.leb_le in H. apply Nat.leb_le. lia.
Qed.

Lemma has_hosts_demo_job : has_hosts demo_job.
Proof.
  split; [by eexists|]. intros u [<-|[<-|[]]]; by eexists.
Qed.

(** C1.  The code misses the clean-up in one place.  The flag is set just
    after [mkstemp] has made the temp file, so that the read of line 246
    sees it: [_try_download] returns at once and the temp file stays
    behind, though [os.remove] would have worked.  (The destination is
    never touched, and no signal is sent.) *)
Theorem temp_file_left_behind :
  let w' := (run true false (flag_from 2) (fun _ => world_ok) demo_job
               (init_world ∅ 0)).1 in
  e_remove world_ok = None
  /\ fs w' !! Temp 0 = Some (mkFile [] 384)
  /\ fs w' !! dest demo_job = None
  /\ finished_of (trace w') = [].
Proof. vm_compute. done. Qed.

(** C2 as stated fails: the flag is set while the first attempt is
    reading its second block.  The job was not cancelled before it
    started, half the file had been written, and yet no [finished] signal
    is sent at all. *)
Lemma cancelled_in_flight_no_result :
  let w' := (run true false (flag_from 4) (fun _ => world_ok) demo_job
               (init_world ∅ 0)).1 in
  flag_from 4 0 = false
  /\ attempts_of (trace w') = [(url demo_job, 1, false)]
  /\ omap (fun s : FS => data <$> s !! Temp 0) (snapshots_of (trace w'))
     = [[]; []; [x52; x49]]
  /\ finished_of (trace w') = [].
Proof. vm_compute. done. Qed.

Lemma finished_once_witness :
  (exists x,
      finished_of (trace (run true false flag_never (fun _ => world_ok)
                            demo_job (init_world ∅ 0)).1) = [x])
  /\ finished_of (trace (run true false (flag_from 4) (fun _ => world_ok)
                           demo_job (init_world ∅ 0)).1) = [].
Proof.
  split.
  - apply (proj1 (finished_once_unless_cancelled true false flag_never
                    (fun _ => world_ok) demo_job ∅ 0)).
    intros i _. reflexivity.
  - apply (proj2 (finished_once_unless_cancelled true false (flag_from 4)
                    (fun _ => world_ok) demo_job ∅ 0)).
    + apply stays_set_flag_from.
    + exists 4%nat. split; [vm_compute; lia | reflexivity].
Defined.

(** C3 at work: three failures on the primary URL, then the first
    fallback; and a run cancelled on the way stops inside the schedule. *)
Lemma attempts_follow_schedule_witness :
  attempts_of (trace (run true false flag_never (fails_then_ok 3) demo_job
                        (init_world ∅ 0)).1)
  = map (fun k => (url demo_job, k, false)) (range_from_1 3)
    ++ [("https://sound-effects.bbcrewind.co.uk/07070175.wav", 1, true)]
  /\ cut_short (schedule demo_job)
       (attempts_of (trace (run true false (flag_from 6) (fails_then_ok 3)
                              demo_job (init_world ∅ 0)).1)).
Proof.
  split.
  - apply (proj2 (proj2 (attempts_follow_schedule true false flag_never
                           (fails_then_ok 3) demo_job ∅ 0)
                    never_set_flag_never has_hosts_demo_job))
      with (rest := ["http://bbcsfx.acropolis.org.uk/assets/07070175.wav"]).
    + reflexivity.
    + intros i Hi.
      destruct i as [|[|[|i]]]; [reflexivity | reflexivity | reflexivity |].
      vm_compute in Hi. lia.
    + reflexivity.
  - apply (proj1 (attempts_follow_schedule true false (flag_from 6)
                    (fails_then_ok 3) demo_job ∅ 0)).
    apply stays_set_flag_from.
Defined.

(** C5 as stated fails: whatever the last error was, the message is the
    same fixed text. *)
Lemma failure_message_is_fixed :
  finished_of (trace (run true false flag_never
                        (fun _ => world_failing "HTTP Error 404: Not Found")
                        demo_job (init_world ∅ 0)).1)
  = [(false, filepath_str demo_job, "All download URLs failed")]
  /\ finished_of (trace (run true false flag_never
                           (fun _ => world_failing "Connection refused")
                           demo_job (init_world ∅ 0)).1)
     = [(false, filepath_str demo_job, "All download URLs failed")].
Proof. vm_compute. done. Qed.

Lemma failure_reported_once_witness :
  exists msg,
    finished_of (trace (run true false flag_never
                          (fun _ => world_failing "HTTP Error 404: Not Found")
                          demo_job (init_world ∅ 0)).1)
    = [(false, filepath_str demo_job, msg)]
    /\ (msg = "All download URLs failed"
        \/ (msg = "Thread error: list index out of range"
            /\ lacks_host demo_job)).
Proof.
  apply (proj2 (failure_reported_once true false flag_never
                  (fun _ => world_failing "HTTP Error 404: Not Found")
                  demo_job ∅ 0)).
  - intros n. reflexivity.
  - intros u i. reflexivity.
Defined.

(** C7 as stated fails: the transfer completes, the file is not empty,
    nothing is cancelled, but the move fails, and so does the attempt. *)
Lemma move_failure_fails_attempt :
  transfer_completes (url demo_job) world_no_move = true
  /\ file_nonempty world_no_move = true
  /\ unset_during flag_never 0 (reads_in_flight world_no_move)
  /\ (attempt_body true false flag_never demo_job (url demo_job)
        world_no_move (init_world ∅ 0)).2
     = Raise "Permission denied".
Proof.
  split_and!; [reflexivity | reflexivity | | by vm_compute].
  intros i _. reflexivity.
Qed.

Lemma attempt_succeeds_witness :
  (attempt_body true false flag_never demo_job (url demo_job) world_ok
     (init_world ∅ 0)).2 = Ok true.
Proof.
  apply (proj1 (attempt_succeeds_iff true false flag_never (fun _ => world_ok)
                  demo_job (url demo_job) world_ok (init_world ∅ 0) ∅ 0)).
  split_and!; [reflexivity | reflexivity | | reflexivity].
  intros i _. reflexivity.
Defined.


(** C10 at work: [chmod] fails, the attempt succeeds all the same. *)
Lemma chmod_failure_witness :
  exists w' m,
    attempt_body true false flag_never demo_job (url demo_job)
      world_no_chmod (init_world ∅ 0) = (w', Ok true)
    /\ fs w' !! dest demo_job = Some (mkFile [x52; x49; x46; x46] m)
    /\ finished_of (trace w') = [(true, filepath_str demo_job, "")].
Proof.
  apply (proj2 (chmod_does_not_matter true false flag_never demo_job false
                  (Some "Operation not permitted") (url demo_job) world_ok
                  (init_world ∅ 0))).
  - reflexivity.
  - reflexivity.
  - reflexivity.
  - intros i _. reflexivity.
Defined.

Lemma reachable_demo_loaded : reachable demo_loaded.
Proof.
  eapply reach_step; [eapply reach_step; [apply reach_init|]|].
  - apply step_threads.
  - apply step_load.
Qed.

Lemma reachable_demo_started : reachable demo_started.
Proof. eapply reach_step; [apply reachable_demo_loaded | apply step_start]. Qed.

Lemma loaded_demo_loaded : loaded demo_loaded.
Proof.
  unfold loaded. split_and!.
  - by vm_compute.
  - reflexivity.
  - refine (bool_decide_unpack _ _). by vm_compute.
  - apply sample_of_hosts.
  - reflexivity.
  - by vm_compute.
Qed.




Lemma reachable_demo_stopped : reachable demo_stopped.
Proof. eapply reach_step; [apply reachable_demo_started | apply step_stop]. Qed.

(** C9 as stated fails.  The configuration is valid, a limit of 1 and
    three samples with their URLs, and Start is pressed; but the output
    directory cannot be made.  Nothing is raised and no run starts: the
    error is shown in a box, no worker is started, the spin boxes and the
    Start button are enabled again.  Likewise after a stop, where Start is
    enabled over an empty backlog: pressing it only logs, and no run
    starts. *)
Lemma valid_configuration_not_started :
  (let r := start_downloads (Some "Permission denied") demo_loaded in
   reachable demo_loaded
   /\ limit demo_loaded = 1
   /\ length (samples demo_loaded) = 3%nat
   /\ hosts_ok (samples demo_loaded)
   /\ start_button demo_loaded = true
   /\ r.2 = None
   /\ starts_of (gui_trace r.1) = []
   /\ boxes_of (gui_trace r.1) =
        [("critical", "Error",
          "Error creating output directory: Permission denied")]
   /\ sb_enabled (thread_spinbox r.1) = true
   /\ start_button r.1 = true
   /\ stop_button r.1 = false)
  /\ (reachable demo_stopped
      /\ limit demo_stopped = 1
      /\ start_button demo_stopped = true
      /\ samples demo_stopped = []
      /\ start_downloads None demo_stopped
         = (log_message "No samples to download" demo_stopped, None)).
Proof.
  split; split_and!;
    try apply reachable_demo_loaded; try apply reachable_demo_stopped;
    try apply sample_of_hosts; by vm_compute.
Qed.

Lemma start_downloads_witness :
  (start_downloads None demo_loaded).2 = None
  /\ 1 <= limit demo_loaded <= 20.
Proof.
  destruct (start_downloads_never_raises None demo_loaded
              reachable_demo_loaded) as (H1 & H2 & _).
  split; [exact H1 | exact H2].
Defined.

(** * Names of folders and files *)

Lemma lstrip_idem s : lstrip (lstrip s) = lstrip s.
Proof.
  induction s as [|c s IH]; simpl; [done|].
  destruct (is_space c) eqn:E; [done|]. simpl. by rewrite E.
Qed.

Lemma rstrip_idem s : rstrip (rstrip s) = rstrip s.
Proof.
  induction s as [|c s IH]; simpl; [done|].
  destruct (rstrip s) as [|c' r] eqn:E.
  - destruct (is_space c) eqn:Ec; simpl; [done|]. by rewrite Ec.
  - simpl in *. by rewrite IH.
Qed.

Lemma rstrip_cons c s :
  rstrip s = s -> s <> EmptyString -> rstrip (String c s) = String c s.
Proof. intros E Hne. simpl. rewrite E. by destruct s. Qed.

Lemma rstrip_tail c s : rstrip (String c s) = String c s -> rstrip s = s.
Proof.
  simpl. destruct (rstrip s) as [|c' r] eqn:E.
  - destruct (is_space c); [done|]. by intros [= <-].
  - by intros [= <-].
Qed.

(** The left strip of a string with no blank at its end has none either. *)
Lemma rstrip_lstrip s : rstrip s = s -> rstrip (lstrip s) = lstrip s.
Proof.
  induction s as [|c s IH]; intros E; [done|].
  simpl. destruct (is_space c); [|done].
  apply IH. by apply rstrip_tail in E.
Qed.

Lemma strip_idem s : strip (strip s) = strip s.
Proof.
  unfold strip. rewrite (rstrip_lstrip (rstrip s)) by apply rstrip_idem.
  apply lstrip_idem.
Qed.

Lemma strip_fixed s : lstrip s = s -> rstrip s = s -> strip s = s.
Proof. intros L R. unfold strip. by rewrite R. Qed.

Lemma lstrip_strip s : lstrip (strip s) = strip s.
Proof. unfold strip. apply lstrip_idem. Qed.

Lemma rstrip_strip s : rstrip (strip s) = strip s.
Proof. unfold strip. apply rstrip_lstrip, rstrip_idem. Qed.

Lemma str_forall_lstrip p s : str_forall p s = true -> str_forall p (lstrip s) = true.
Proof.
  induction s as [|c s IH]; simpl; [done|].
  intros H. apply andb_true_iff in H as [Hc Hs].
  destruct (is_space c); [by apply IH|]. simpl. by rewrite Hc, Hs.
Qed.

Lemma str_forall_rstrip p s : str_forall p s = true -> str_forall p (rstrip s) = true.
Proof.
  induction s as [|c s IH]; simpl; [done|].
  intros H. apply andb_true_iff in H as [Hc Hs]. specialize (IH Hs).
  destruct (rstrip s) as [|c' r].
  - destruct (is_space c); simpl; [done|]. by rewrite Hc.
  - simpl in *. by rewrite Hc, IH.
Qed.

Lemma str_forall_strip p s : str_forall p s = true -> str_forall p (strip s) = true.
Proof. intros H. by apply str_forall_lstrip, str_forall_rstrip. Qed.

Lemma length_lstrip s : (String.length (lstrip s) <= String.length s)%nat.
Proof.
  induction s as [|c s IH]; simpl; [done|].
  destruct (is_space c); simpl; lia.
Qed.

Lemma length_rstrip s : (String.length (rstrip s) <= String.length s)%nat.
Proof.
  induction s as [|c s IH]; simpl; [done|].
  destruct (rstrip s) as [|c' r]; [destruct (is_space c)|]; simpl in *; lia.
Qed.

Lemma length_strip s : (String.length (strip s) <= String.length s)%nat.
Proof.
  unfold strip. pose proof (length_lstrip (rstrip s)).
  pose proof (length_rstrip s). lia.
Qed.

Lemma length_str_map f s : String.length (str_map f s) = String.length s.
Proof. induction s as [|c s IH]; simpl; [done|]. by rewrite IH. Qed.

(** A string is blank when [strip] leaves nothing of it. *)
Lemma lstrip_empty s :
  lstrip s = EmptyString <-> str_forall is_space s = true.
Proof.
  induction s as [|c s IH]; simpl; [done|].
  destruct (is_space c); simpl; [done|]. split; done.
Qed.

Lemma rstrip_empty s :
  rstrip s = EmptyString <-> str_forall is_space s = true.
Proof.
  induction s as [|c s IH]; simpl; [done|].
  destruct (rstrip s) as [|c' r].
  - destruct (is_space c); simpl; [|split; done].
    split; intros _; [by apply IH | done].
  - split; [done|]. intros H. apply andb_true_iff in H as [_ H].
    by apply IH in H.
Qed.

Lemma str_forall_impl (p q : ascii -> bool) s :
  (forall c, p c = true -> q c = true) ->
  str_forall p s = true -> str_forall q s = true.
Proof.
  intros Hpq. induction s as [|c s IH]; simpl; [done|].
  intros H. apply andb_true_iff in H as [Hc Hs].
  by rewrite (Hpq _ Hc), IH.
Qed.

Lemma strip_empty s : strip s = EmptyString <-> str_forall is_space s = true.
Proof.
  unfold strip. rewrite lstrip_empty. split.
  - intros H. destruct (rstrip s) as [|c r] eqn:E; [by apply rstrip_empty|].
    (* what is left of a string that is not blank does not end in a blank *)
    exfalso. assert (R : rstrip (String c r) = String c r)
      by (rewrite <- E; apply rstrip_idem).
    clear E. revert c R H. induction r as [|c' r IH]; intros c R H.
    + simpl in R, H. by destruct (is_space c).
    + simpl in H. apply andb_true_iff in H as [_ H].
      apply (IH c'); [by apply rstrip_tail in R | done].
  - intros H. apply rstrip_empty in H. by rewrite H.
Qed.

Lemma split_slash_none s :
  str_forall (fun c => negb (Ascii.eqb c slash)) s = true ->
  split_slash s = [s].
Proof.
  induction s as [|c s IH]; simpl; [done|].
  intros H. apply andb_true_iff in H as [Hc Hs].
  destruct (Ascii.eqb c slash); [done|]. by rewrite IH.
Qed.

Section SanitizeFacts.

Variable IS_WINDOWS : bool.
Variable unicode_word : ascii -> bool.

Local Abbreviation kept' := (kept unicode_word).
Local Abbreviation sanitize := (sanitize_path IS_WINDOWS unicode_word).

Lemma kept_underscore : kept' "_"%char = true.
Proof. reflexivity. Qed.

Lemma kept_replace_bad p :
  str_forall kept' (replace_bad unicode_word p) = true.
Proof.
  unfold replace_bad.
  induction p as [|c p IH]; cbn [str_map str_forall]; [done|].
  rewrite IH, andb_true_r.
  destruct (kept' c) eqn:E; [done | apply kept_underscore].
Qed.

Lemma replace_bad_kept s :
  str_forall kept' s = true -> replace_bad unicode_word s = s.
Proof.
  unfold replace_bad.
  induction s as [|c s IH]; cbn [str_map str_forall]; [done|].
  intros H. apply andb_true_iff in H as [Hc Hs]. by rewrite Hc, IH.
Qed.

Lemma kept_not_slash c : kept' c = true -> negb (Ascii.eqb c slash) = true.
Proof.
  intros H. destruct (Ascii.eqb c slash) eqn:E; [|done].
  apply Ascii.eqb_eq in E. subst c. by vm_compute in H.
Qed.

Lemma sanitize_kept p : str_forall kept' (sanitize p) = true.
Proof.
  unfold sanitize_path.
  pose proof (str_forall_strip _ _ (kept_replace_bad p)) as H.
  destruct (negb IS_WINDOWS); [|done].
  destruct (startswith_dot _); [|done]. simpl. by rewrite H.
Qed.

Lemma sanitize_stripped p :
  lstrip (sanitize p) = sanitize p /\ rstrip (sanitize p) = sanitize p.
Proof.
  unfold sanitize_path. set (t := strip (replace_bad unicode_word p)).
  assert (L : lstrip t = t) by apply lstrip_strip.
  assert (R : rstrip t = t) by apply rstrip_strip.
  destruct (negb IS_WINDOWS); [|done].
  destruct (startswith_dot t) eqn:D; [|done]. split; [done|].
  apply rstrip_cons; [done|]. by destruct t.
Qed.

(** X7.  Whatever the text, the sanitized name is made of the characters of
    the class and of underscores only, so it has no path separator and is
    one path component; it has no blank at either end; and off Windows it
    does not start with a dot, so it is never [.] or [..]. *)
Theorem sanitize_path_safe (p : string) :
  let r := sanitize_path IS_WINDOWS unicode_word p in
  str_forall (kept unicode_word) r = true
  /\ split_slash r = [r]
  /\ strip r = r
  /\ (IS_WINDOWS = false ->
      startswith_dot r = false /\ r <> "." /\ r <> "..").
Proof.
  intros r. subst r. pose proof (sanitize_kept p) as K.
  destruct (sanitize_stripped p) as [L R]. split_and!.
  - done.
  - apply split_slash_none.
    eapply str_forall_impl; [apply kept_not_slash | exact K].
  - by apply strip_fixed.
  - intros ->.
    assert (D : startswith_dot (sanitize_path false unicode_word p) = false).
    { unfold sanitize_path. simpl.
      destruct (startswith_dot (strip _)) eqn:D; [done | exact D]. }
    split_and!; [done | |]; intros E; by rewrite E in D.
Qed.

(** X8.  Sanitizing a name a second time changes nothing. *)
Theorem sanitize_path_idempotent (p : string) :
  sanitize_path IS_WINDOWS unicode_word
                (sanitize_path IS_WINDOWS unicode_word p)
  = sanitize_path IS_WINDOWS unicode_word p.
Proof.
  pose proof (sanitize_kept p) as K.
  destruct (sanitize_stripped p) as [L R].
  assert (D : negb IS_WINDOWS = true -> startswith_dot (sanitize p) = false).
  { unfold sanitize_path. intros ->.
    destruct (startswith_dot (strip _)) eqn:D; [done | exact D]. }
  unfold sanitize_path at 1.
  rewrite (replace_bad_kept _ K), (strip_fixed _ L R).
  destruct (negb IS_WINDOWS); [|done]. by rewrite D.
Qed.

(** X9.  The sanitized name is at most one character longer than the text
    (not longer at all on Windows), and it is empty exactly when the
    text is made of blanks that the class keeps: of spaces. *)
Theorem sanitize_path_length (p : string) :
  let r := sanitize_path IS_WINDOWS unicode_word p in
  (String.length r <= String.length p + 1)%nat
  /\ (IS_WINDOWS = true -> (String.length r <= String.length p)%nat)
  /\ (r = EmptyString <->
      str_forall (fun c => kept unicode_word c && is_space c) p = true).
Proof.
  intros r. subst r.
  pose proof (length_strip (replace_bad unicode_word p)) as Hl.
  unfold replace_bad in Hl. rewrite length_str_map in Hl.
  assert (E : strip (replace_bad unicode_word p) = EmptyString <->
              str_forall (fun c => kept' c && is_space c) p = true).
  { rewrite strip_empty. clear Hl.
    induction p as [|c p IH]; simpl; [done|].
    rewrite !andb_true_iff, IH.
    destruct (kept' c) eqn:K; [tauto|].
    split; [intros [H _]; by vm_compute in H | intros [[? _] _]; done]. }
  unfold sanitize_path, replace_bad in *. split_and!.
  - destruct (negb IS_WINDOWS); [|lia].
    destruct (startswith_dot _); simpl; lia.
  - intros ->. simpl. lia.
  - destruct (negb IS_WINDOWS); [|done].
    destruct (startswith_dot _) eqn:D; [|done].
    rewrite <- E. split; [done|]. intros E'. by rewrite E' in D.
Qed.

End SanitizeFacts.

(** * Loading the list *)

Lemma length_append_str s1 s2 :
  String.length (s1 +:+ s2) = (String.length s1 + String.length s2)%nat.
Proof. induction s1 as [|c s1 IH]; simpl; [done|]. by rewrite IH. Qed.

Lemma length_str_take n s :
  String.length (str_take n s) = (n `min` String.length s)%nat.
Proof.
  revert s. induction n as [|n IH]; intros [|c s]; simpl; try done.
  by rewrite IH.
Qed.

Lemma str_take_prefix n s : exists rest, s = str_take n s +:+ rest.
Proof.
  revert s. induction n as [|n IH]; intros [|c s]; simpl; eauto.
  destruct (IH s) as [rest E]. exists rest.
  change (String c s = String c (str_take n s +:+ rest)). by f_equal.
Qed.

Lemma set_samples_same g : set_samples (samples g) g = g.
Proof. by destruct g. Qed.

Section LoadFacts.

Variables IS_WINDOWS IS_MAC : bool.
Variable unicode_word : ascii -> bool.
Variable joinpath : string -> string -> Path.
Variables parent_exists path_exists : Path -> bool.
Variables sub_error concat_error : string.

Local Abbreviation MAXLEN := (DEFAULT_MAX_FILENAME_LENGTH IS_WINDOWS IS_MAC).
Local Abbreviation file_name' := (file_name IS_WINDOWS IS_MAC unicode_word).
Local Abbreviation load_row' :=
  (load_row IS_WINDOWS IS_MAC unicode_word joinpath parent_exists
            path_exists sub_error concat_error).
Local Abbreviation load_rows' :=
  (load_rows IS_WINDOWS IS_MAC unicode_word joinpath parent_exists
             path_exists sub_error concat_error).
Local Abbreviation load' :=
  (load_csv_data_from IS_WINDOWS IS_MAC unicode_word joinpath parent_exists
                      path_exists sub_error concat_error).

(** X10.  The name of a file keeps its whole suffix [.location] after a
    beginning of the sanitized description, and it is no longer than the
    limit of the platform when the suffix alone is not. *)
Theorem file_name_fits (description location : string) :
  let filename := file_name IS_WINDOWS IS_MAC unicode_word
                            description location in
  (exists pre rest,
      sanitize_path IS_WINDOWS unicode_word description = pre +:+ rest
      /\ filename = pre +:+ "." +:+ location)
  /\ (Z.of_nat (String.length location) + 1
      <= DEFAULT_MAX_FILENAME_LENGTH IS_WINDOWS IS_MAC ->
      Z.of_nat (String.length filename)
      <= DEFAULT_MAX_FILENAME_LENGTH IS_WINDOWS IS_MAC).
Proof.
  intros filename. subst filename. unfold file_name, slice_to. split.
  - match goal with |- context [if ?b then _ else _] => destruct b end;
      match goal with |- context [str_take ?n ?s] =>
        destruct (str_take_prefix n s) as [rest E]; exists (str_take n s), rest
      end; done.
  - intros H. change (String.length ("." +:+ location))
      with (S (String.length location)).
    replace (0 <=? MAXLEN - Z.of_nat (S (String.length location))) with true
      by (symmetry; apply Z.leb_le; lia).
    rewrite length_append_str, length_str_take.
    change (String.length ("." +:+ location))
      with (S (String.length location)). lia.
Qed.

Lemma load_row_wanted row s :
  load_row' row = Ok (Wanted s) ->
  exists dest location,
    s = sample_of (dest, location)
    /\ row !! "location" = Some (Some location).
Proof.
  unfold load_row. intros H.
  destruct (row !! "CDName") as [[cd|]|]; try done.
  - destruct (row !! "description") as [[d|]|]; try done;
      destruct (row !! "location") as [[l|]|]; try done.
    destruct (_ && _); [done|]. simplify_eq. eauto.
  - destruct (row !! "description") as [[d|]|]; try done;
      destruct (row !! "location") as [[l|]|]; try done.
Qed.

Lemma wanted_hosts rows :
  Forall (fun s => is_Some (url_host (sample_url s))
                   /\ forall u, In u (snd s) -> is_Some (url_host u))
         (wanted (map load_row' rows)).
Proof.
  induction rows as [|row rows IH]; [constructor|]. simpl. unfold wanted. csimpl.
  destruct (load_row' row) as [[| |s]|e|] eqn:E; try exact IH.
  constructor; [|exact IH].
  apply load_row_wanted in E as (dest & loc & -> & _).
  unfold sample_url, sample_of. simpl. split.
  - rewrite primary_url_host. eauto.
  - intros u Hu. by apply (fallbacks_host loc).
Qed.

Lemma load_rows_all rows : forall found_files g,
  all_read (map load_row' rows) ->
  load_rows' rows found_files g
  = (set_samples (samples g ++ wanted (map load_row' rows)) g,
     Ok (found_files + found (map load_row' rows))).
Proof.
  unfold all_read, found, wanted.
  induction rows as [|row rows IH]; intros f g H; simpl.
  { rewrite app_nil_r, set_samples_same. do 2 f_equal. lia. }
  apply Forall_cons in H as [[x Hx] H]. simpl in Hx. rewrite Hx. csimpl.
  destruct x as [| |s]; simpl; rewrite IH by done.
  - done.
  - do 2 f_equal. simpl. lia.
  - simpl. by rewrite <- app_assoc.
Qed.

Lemma load_rows_raise pre bad post e : forall found_files g,
  all_read (map load_row' pre) -> load_row' bad = Raise e ->
  load_rows' (pre ++ bad :: post) found_files g
  = (set_samples (samples g ++ wanted (map load_row' pre)) g, Raise e).
Proof.
  unfold all_read, wanted.
  induction pre as [|row pre IH]; intros f g H Hbad; simpl.
  { by rewrite Hbad, app_nil_r, set_samples_same. }
  apply Forall_cons in H as [[x Hx] H]. simpl in Hx. rewrite Hx. csimpl.
  destruct x as [| |s]; simpl; rewrite IH by done; try done.
  simpl. by rewrite <- app_assoc.
Qed.

(** X11.  A load that reads the whole file.  The backlog is replaced by the
    samples of the rows that have the three columns and whose file is
    not there yet, in the order of the file; [total_count] is their
    number and Start is enabled exactly when there is one; each sample
    has the three URLs made of its row's location, all with a host; the
    counters and the active set are not touched. *)
Theorem load_queues_wanted (path : string) (rows : list Row) (g : GUI) :
  all_read (map load_row' rows) ->
  let g' := load' (Some path) true rows None g in
  samples g' = wanted (map load_row' rows)
  /\ total_count g' = Z.of_nat (length (samples g'))
  /\ start_button g' = bool_decide (samples g' <> [])
  /\ Forall (fun s => exists dest location, s = sample_of (dest, location))
            (samples g')
  /\ hosts_ok (samples g')
  /\ finished_count g' = finished_count g
  /\ failed_count g' = failed_count g
  /\ active_downloads g' = active_downloads g
  /\ boxes_of (gui_trace g') = boxes_of (gui_trace g).
Proof.
  intros H g'. subst g'. unfold load_csv_data_from. simpl.
  rewrite load_rows_all by done. simpl.
  set (l := wanted (map load_row' rows)).
  assert (B : forall m, boxes_of ((gui_trace g ++ [Log m]))
                        = boxes_of (gui_trace g)).
  { intros m. unfold boxes_of. rewrite omap_app. simpl. by rewrite app_nil_r. }
  assert (B2 : forall m m', boxes_of ((gui_trace g ++ [Log m]) ++ [Log m'])
                        = boxes_of (gui_trace g)).
  { intros m m'. unfold boxes_of. rewrite !omap_app. simpl.
    by rewrite !app_nil_r. }
  assert (W : Forall (fun s => exists dest location,
                        s = sample_of (dest, location)) l).
  { subst l. clear. induction rows as [|row rows IH]; [constructor|].
    simpl. unfold wanted. csimpl.
    destruct (load_row' row) as [[| |s]|e|] eqn:E; try exact IH.
    constructor; [|exact IH].
    apply load_row_wanted in E as (dest & loc & -> & _). eauto. }
  assert (Hh : hosts_ok l).
  { subst l. unfold hosts_ok. eapply Forall_impl; [apply wanted_hosts|].
    by intros s [Hs _]. }
  destruct (0 <? Z.of_nat (length l)) eqn:E; simpl;
    (split_and!; try done).
  - apply Z.ltb_lt in E. symmetry. apply bool_decide_eq_true.
    intros El. rewrite El in E. simpl in E. lia.
  - apply Z.ltb_ge in E. symmetry. apply bool_decide_eq_false.
    intros Hl. destruct l; [done | simpl in E; lia].
Qed.

(** X12.  A load that fails on the way: a row with an empty field after
    [pre], or a reader that raises after [rows].  The backlog holds the
    samples of the rows read so far, while [total_count] and the Start
    button stay as they were before the load; the error is shown. *)
Theorem load_failure_keeps_partial (path : string) (g : GUI) :
  (forall pre bad post e read_error,
      all_read (map load_row' pre) -> load_row' bad = Raise e ->
      let g' := load' (Some path) true (pre ++ bad :: post) read_error g in
      samples g' = wanted (map load_row' pre)
      /\ total_count g' = total_count g
      /\ start_button g' = start_button g
      /\ boxes_of (gui_trace g') =
           boxes_of (gui_trace g)
           ++ [("critical", "Error", "Failed to load samples: " +:+ e)])
  /\ (forall rows e,
        all_read (map load_row' rows) ->
        let g' := load' (Some path) true rows (Some e) g in
        samples g' = wanted (map load_row' rows)
        /\ total_count g' = total_count g
        /\ start_button g' = start_button g
        /\ boxes_of (gui_trace g') =
             boxes_of (gui_trace g)
             ++ [("critical", "Error", "Failed to load samples: " +:+ e)]).
Proof.
  assert (B : forall m m' x,
             boxes_of (((gui_trace g ++ [Log m]) ++ [Log m'])
                         ++ [MessageBox "critical" "Error" x])
             = boxes_of (gui_trace g) ++ [("critical", "Error", x)]).
  { intros m m' x. unfold boxes_of. rewrite !omap_app. simpl.
    by rewrite !app_nil_r. }
  split.
  - intros pre bad post e rerr H Hbad g'. subst g'.
    unfold load_csv_data_from. simpl.
    rewrite (load_rows_raise pre bad post e) by done. simpl.
    split_and!; try done; apply B.
  - intros rows e H g'. subst g'. unfold load_csv_data_from. simpl.
    rewrite load_rows_all by done. simpl. split_and!; try done; apply B.
Qed.

End LoadFacts.

(** * The queue of results, stopping and closing *)

Lemma launch_set_queue q n : forall g,
  launch n (set_queue q g)
  = (set_queue q (launch n g).1, (launch n g).2).
Proof.
  induction n as [|n IH]; intros g; simpl; [done|].
  destruct (is_shutting_down g); [done|].
  destruct (samples g) as [|[[u p] f] rest]; [done|].
  destruct (url_host u) as [h|]; [|done].
  match goal with |- launch n ?x = _ =>
    match goal with |- _ = (set_queue q (launch n ?y).1, _) =>
      change x with (set_queue q y)
    end
  end.
  apply IH.
Qed.

Lemma start_next_downloads_set_queue q g :
  start_next_downloads (set_queue q g)
  = (set_queue q (start_next_downloads g).1, (start_next_downloads g).2).
Proof.
  unfold start_next_downloads. simpl.
  destruct (is_shutting_down g); [done|].
  change (available_threads (set_queue q g)) with (available_threads g).
  apply launch_set_queue.
Qed.

Lemma downloads_completed_set_queue q g :
  downloads_completed (set_queue q g) = set_queue q (downloads_completed g).
Proof.
  unfold downloads_completed. simpl.
  destruct (is_shutting_down g); [done|].
  destruct (0 <? finished_count g); [|done].
  by destruct (failed_count g =? 0).
Qed.

Lemma record_result_set_queue q success fp e g :
  record_result success fp e (set_queue q g)
  = set_queue q (record_result success fp e g).
Proof.
  unfold record_result.
  destruct success; simpl; by destruct (active_downloads g !! fp).
Qed.

Lemma handle_download_result_set_queue q success fp e g :
  handle_download_result success fp e (set_queue q g)
  = (set_queue q (handle_download_result success fp e g).1,
     (handle_download_result success fp e g).2).
Proof.
  unfold handle_download_result. simpl.
  destruct (is_shutting_down g); [done|].
  rewrite record_result_set_queue, start_next_downloads_set_queue.
  destruct (start_next_downloads (record_result success fp e g))
    as [g2 [x|]]; simpl; [done|].
  destruct (_ && _); [|done]. by rewrite downloads_completed_set_queue.
Qed.

Lemma record_result_queue success fp e g :
  download_results_queue (record_result success fp e g)
  = download_results_queue g
  /\ start_button (record_result success fp e g) = start_button g
  /\ stop_button (record_result success fp e g) = stop_button g.
Proof.
  unfold record_result.
  destruct success; simpl; by destruct (active_downloads g !! fp).
Qed.

Lemma downloads_completed_queue g :
  download_results_queue (downloads_completed g) = download_results_queue g.
Proof.
  unfold downloads_completed.
  destruct (is_shutting_down g); [done|]. simpl.
  destruct (0 <? finished_count g); [|done].
  by destruct (failed_count g =? 0).
Qed.

(** Handling a result where every sample has a host: no exception, and
    what the next result needs is kept. *)
Lemma handled_keeps success fp e g :
  is_shutting_down g = false -> hosts_ok (samples g) ->
  let x := handle_download_result success fp e g in
  x.2 = None
  /\ is_shutting_down x.1 = false
  /\ hosts_ok (samples x.1)
  /\ download_results_queue x.1 = download_results_queue g
  /\ finished_count x.1 = (if success then finished_count g + 1
                           else finished_count g)
  /\ failed_count x.1 = (if success then failed_count g
                         else failed_count g + 1).
Proof.
  intros Hsd Hh x. subst x.
  destruct (handle_download_result_spec success fp e g Hsd Hh)
    as (g2 & _ & S2 & _ & Same & _ & ->).
  destruct (record_result_spec success fp e g)
    as (_ & _ & Fi1 & Fa1 & _ & Sd1 & _).
  destruct (record_result_queue success fp e g) as (Q1 & _).
  destruct Same as (_ & Fi2 & Fa2 & Sd2 & _ & _ & _ & _ & _ & Q2 & _).
  assert (Hh2 : hosts_ok (samples g2)) by (rewrite S2; by apply hosts_ok_drop).
  destruct (downloads_completed_spec g2)
    as (Sc & _ & Fic & Fac & _ & Sdc & _).
  pose proof (downloads_completed_queue g2) as Qc.
  simpl. destruct (_ && _); simpl; split_and!; try done; congruence.
Qed.

Lemma foldl_handled_set_queue q l : forall g,
  foldl handled (set_queue q g) l = set_queue q (foldl handled g l).
Proof.
  induction l as [|r l IH]; intros g; simpl; [done|].
  assert (E : handled (set_queue q g) r = set_queue q (handled g r))
    by (unfold handled; by rewrite handle_download_result_set_queue).
  by rewrite E, IH.
Qed.

Lemma foldl_handled_keeps l : forall g,
  is_shutting_down g = false -> hosts_ok (samples g) ->
  is_shutting_down (foldl handled g l) = false
  /\ hosts_ok (samples (foldl handled g l))
  /\ download_results_queue (foldl handled g l) = download_results_queue g.
Proof.
  induction l as [|[[s fp] e] l IH]; intros g Hsd Hh; simpl; [done|].
  destruct (handled_keeps s fp e g Hsd Hh) as (_ & Sd & Hh' & Q & _).
  destruct (IH (handled g (s, fp, e)) Sd Hh') as (? & ? & Q').
  split_and!; try done. by rewrite Q'.
Qed.

Lemma set_queue_same g : set_queue (download_results_queue g) g = g.
Proof. by destruct g. Qed.

Lemma drain_handles n : forall g,
  is_shutting_down g = false -> hosts_ok (samples g) ->
  drain n g
  = set_queue (drop n (download_results_queue g))
              (foldl handled g (take n (download_results_queue g))).
Proof.
  induction n as [|n IH]; intros g Hsd Hh; simpl.
  { by rewrite drop_0, set_queue_same. }
  destruct (download_results_queue g) as [|[[s fp] e] rest] eqn:Eq.
  { simpl. by rewrite <- Eq, set_queue_same. }
  rewrite handle_download_result_set_queue.
  destruct (handled_keeps s fp e g Hsd Hh) as (N & Sd & Hh' & Q & _).
  rewrite N. simpl. fold (handled g (s, fp, e)).
  rewrite IH by done. simpl.
  by rewrite foldl_handled_set_queue.
Qed.

(** X13.  A tick of the timer handles the ten oldest results of the queue,
    oldest first, each as [handle_download_result] does, and leaves the
    others queued in their order; a signal that arrives joins the queue at
    its end.  (Every sample of the backlog has a host, as after a load.) *)
Theorem tick_handles_ten_in_order (g : GUI) :
  is_shutting_down g = false -> hosts_ok (samples g) ->
  let q := download_results_queue g in
  let g' := process_download_queue g in
  g' = set_queue (drop 10 q) (foldl handled g (take 10 q))
  /\ download_results_queue g' = drop 10 q
  /\ finished_count g' + failed_count g'
     = finished_count g + failed_count g + Z.of_nat (length (take 10 q))
  /\ (forall success fp e,
         download_results_queue (download_finished success fp e g)
         = q ++ [(success, fp, e)]).
Proof.
  intros Hsd Hh q g'. subst q g'. unfold process_download_queue.
  rewrite Hsd, drain_handles by done. split_and!; [done | done | |].
  - simpl. generalize (take 10 (download_results_queue g)).
    intros l. revert g Hsd Hh.
    induction l as [|[[s fp] e] l IH]; intros g Hsd Hh; simpl; [lia|].
    destruct (handled_keeps s fp e g Hsd Hh) as (_ & Sd & Hh' & _ & Fi & Fa).
    change (handle_download_result s fp e g).1
      with (handled g (s, fp, e)) in Sd, Hh', Fi, Fa.
    specialize (IH _ Sd Hh'). destruct s; lia.
  - intros s fp e. unfold download_finished. by rewrite Hsd.
Qed.

(** ** Stop *)

Lemma launch_nil n g : samples g = [] -> launch n g = (g, None).
Proof. intros E. destruct n; simpl; [done|]. rewrite E. by destruct (is_shutting_down g). Qed.

Lemma handle_empty_backlog success fp e g :
  samples g = [] ->
  let x := handle_download_result success fp e g in
  x.2 = None /\ samples x.1 = []
  /\ starts_of (gui_trace x.1) = starts_of (gui_trace g).
Proof.
  intros E x. subst x. unfold handle_download_result.
  destruct (is_shutting_down g) eqn:Hsd; [done|].
  destruct (record_result_spec success fp e g)
    as (S1 & _ & _ & _ & _ & Sd1 & _ & _ & _ & T1 & _).
  set (g1 := record_result success fp e g) in *.
  unfold start_next_downloads. rewrite Sd1, Hsd.
  rewrite launch_nil by congruence.
  destruct (downloads_completed_spec g1)
    as (Sc & _ & _ & _ & _ & _ & _ & _ & _ & Tc & _).
  destruct (_ && _); simpl; split_and!; congruence.
Qed.

(** X15.  After a confirmed stop every worker of the active set has its flag
    set and the backlog is empty.  Start is enabled again, but pressing it
    only logs that there is nothing to download; and the results that
    still come in are counted without any new worker being started. *)
Theorem stop_leaves_nothing_to_start (g : GUI) :
  let g' := stop_downloads true g in
  samples g' = []
  /\ (forall fp, w_is_cancelled <$> (active_downloads g' !! fp)
                 = (fun _ => true) <$> (active_downloads g !! fp))
  /\ start_button g' = true
  /\ (forall mkdir,
         start_downloads mkdir g'
         = (log_message "No samples to download" g', None))
  /\ (forall success fp e,
         let x := handle_download_result success fp e g' in
         x.2 = None /\ samples x.1 = []
         /\ starts_of (gui_trace x.1) = starts_of (gui_trace g')).
Proof.
  intros g'. split_and!.
  - done.
  - intros fp. subst g'. simpl. rewrite lookup_fmap.
    by destruct (active_downloads g !! fp).
  - done.
  - done.
  - intros success fp e. by apply handle_empty_backlog.
Qed.

(** ** Closing the window *)

Lemma arrives_frozen g g' :
  is_shutting_down g = true -> arrives g g' -> g' = g.
Proof.
  intros Hsd H. destruct H.
  - unfold download_finished. by rewrite Hsd.
  - unfold process_download_queue. by rewrite Hsd.
  - unfold handle_download_result. by rewrite Hsd.
  - unfold start_next_downloads. by rewrite Hsd.
  - unfold downloads_completed. by rewrite Hsd.
Qed.

Lemma arrivals_frozen g g' :
  is_shutting_down g = true -> arrivals g g' -> g' = g.
Proof.
  intros Hsd H. induction H as [|g0 g1 g2 _ IH H]; [done|].
  specialize (IH Hsd). subst g1. by apply arrives_frozen in H.
Qed.

(** X16.  Closing the window while downloads are active.  When the user
    confirms, every active worker has its flag set and from then on
    nothing that arrives from the workers or the timer changes the state:
    no result is queued or counted and no worker is started.  When the
    user declines, the window is as it was. *)
Theorem close_freezes_the_window (g : GUI) :
  active_downloads g <> ∅ ->
  (let g' := closeEvent true g in
   is_shutting_down g' = true
   /\ (forall fp, w_is_cancelled <$> (active_downloads g' !! fp)
                  = (fun _ => true) <$> (active_downloads g !! fp))
   /\ forall g'', arrivals g' g'' -> g'' = g')
  /\ (is_shutting_down g = false -> closeEvent false g = g).
Proof.
  intros Hne. unfold closeEvent. simpl.
  rewrite bool_decide_eq_false_2 by done. split.
  - split_and!.
    + done.
    + intros fp. simpl. rewrite lookup_fmap.
      by destruct (active_downloads g !! fp).
    + intros g'' H. by apply arrivals_frozen in H.
  - intros Hsd. destruct g. simpl in *. by subst.
Qed.

(** * More on the worker: its signals, its temporary files, its waits *)

Section WorkerMore.

Variables IS_LINUX IS_WINDOWS : bool.
Variable flag : nat -> bool.
Variable env : nat -> AttemptEnv.
Variable job : Job.

Local Abbreviation run' := (run IS_LINUX IS_WINDOWS flag env job).
Local Abbreviation ok := (fun w : World => Forall (ev_ok job) (trace w)).

Ltac ok_tac :=
  simpl; rewrite ?Forall_app, ?Forall_singleton; repeat split; try done.

(** ** Every signal names the job *)

Lemma report_progress_ok u bn ts w w' o :
  0 <= bn -> ok w ->
  report_progress flag job u bn ts w = (w', o) -> ok w'.
Proof.
  unfold report_progress, is_cancelled. intros Hbn Hw H.
  destruct (flag (reads w)); [simplify_eq; ok_tac|].
  destruct (0 <? ts) eqn:Hts; [|simplify_eq; ok_tac].
  apply Z.ltb_lt in Hts.
  destruct (url_host u); simplify_eq; ok_tac.
  - apply Z.min_glb; [|lia]. apply Z.div_pos; unfold block_size; lia.
  - apply Z.le_min_r.
Qed.

Lemma read_blocks_ok u tmp ts blocks : forall bn w w' o,
  0 <= bn -> ok w ->
  read_blocks flag job u tmp ts bn blocks w = (w', o) -> ok w'.
Proof.
  induction blocks as [|b rest IH]; simpl; intros bn w w' o Hbn Hw H.
  { by simplify_eq. }
  destruct (report_progress _ _ _ _ _ _) as [w1 o1] eqn:E.
  apply report_progress_ok in E; [|lia|ok_tac].
  destruct o1; [by simplify_eq|]. eapply IH; [|exact E|exact H]. lia.
Qed.

Lemma urlretrieve_ok u tmp t w w' o :
  ok w -> urlretrieve flag job u tmp t w = (w', o) -> ok w'.
Proof.
  unfold urlretrieve. intros Hw H.
  destruct t as [e|ts blocks ending]; [by simplify_eq|].
  destruct (report_progress _ _ _ _ _ _) as [w1 o1] eqn:E1.
  apply report_progress_ok in E1; [|lia|ok_tac].
  destruct o1; [by simplify_eq|].
  destruct (read_blocks _ _ _ _ _ _ _ _) as [w2 o2] eqn:E2.
  apply read_blocks_ok in E2; [|lia|done].
  assert (w' = w2) by (repeat case_match; by simplify_eq). by subst.
Qed.

Lemma remove_temp_ok a tmp w : ok w -> ok (remove_temp a tmp w).
Proof.
  intros Hw. unfold remove_temp.
  destruct (fs w !! tmp); [|done]. destruct (e_remove a); [done|]. ok_tac.
Qed.

Lemma inner_except_ok a tmp e w w' r :
  ok w -> inner_except flag a tmp e w = (w', r) -> ok w'.
Proof.
  unfold inner_except, is_cancelled. intros Hw H.
  pose proof (remove_temp_ok a tmp w Hw).
  destruct (flag _); simplify_eq; ok_tac.
Qed.

Lemma verify_and_move_ok a tmp w w' r :
  ok w -> verify_and_move IS_WINDOWS flag job a tmp w = (w', r) -> ok w'.
Proof.
  unfold verify_and_move. intros Hw H.
  destruct (getsize tmp (fs w)) as [size|];
    [|by eapply inner_except_ok].
  destruct (size =? 0); [by eapply inner_except_ok|].
  destruct (e_mkdir2 a); [by eapply inner_except_ok|].
  destruct (e_move a); [by eapply inner_except_ok|].
  unfold is_cancelled in H.
  destruct (negb IS_WINDOWS); [destruct (e_chmod_file a)|];
    simpl in H; destruct (flag _); simpl in H; simplify_eq; ok_tac.
Qed.

Lemma download_to_temp_ok u a tmp w w' r :
  ok w -> download_to_temp IS_WINDOWS flag job u a tmp w = (w', r) -> ok w'.
Proof.
  unfold download_to_temp, is_cancelled. intros Hw H.
  destruct (flag (reads w)); [simplify_eq; ok_tac|].
  destruct (urlretrieve _ _ _ _ _ _) as [w1 o1] eqn:E1.
  apply urlretrieve_ok in E1; [|ok_tac].
  destruct o1; [by eapply inner_except_ok|].
  destruct (flag (reads w1)).
  - simplify_eq. apply remove_temp_ok. ok_tac.
  - eapply verify_and_move_ok; [|exact H]. ok_tac.
Qed.

Lemma attempt_body_ok u a w w' r :
  ok w -> attempt_body IS_LINUX IS_WINDOWS flag job u a w = (w', r) -> ok w'.
Proof.
  unfold attempt_body. intros Hw H.
  destruct (e_mkdir a); [simplify_eq; ok_tac|].
  match type of H with context [if IS_LINUX then ?x else w] =>
    assert (H0 : ok (if IS_LINUX then x else w))
      by (destruct IS_LINUX; [destruct (e_chmod_dir a)|]; ok_tac);
    revert H H0; generalize (if IS_LINUX then x else w)
  end.
  intros w0 H H0.
  destruct (e_request a); [by simplify_eq|].
  destruct (e_mkstemp a); [by simplify_eq|].
  eapply download_to_temp_ok; [|exact H]. ok_tac.
Qed.

Lemma backoff_loop_ok fuel start ms : forall w w' r,
  ok w -> backoff_loop flag fuel start ms w = (w', r) -> ok w'.
Proof.
  induction fuel as [|fuel IH]; intros w w' r Hw H; simpl in H.
  - destruct (_ <? _); by simplify_eq.
  - destruct (_ <? _); [|by simplify_eq].
    unfold is_cancelled in H.
    destruct (flag (reads w)); [simplify_eq; ok_tac|].
    eapply IH; [|exact H]. ok_tac.
Qed.

Lemma outer_except_ok u attempt max w w' r :
  ok w -> outer_except flag job u attempt max w = (w', r) -> ok w'.
Proof.
  unfold outer_except, is_cancelled, backoff. intros Hw H.
  destruct (flag (reads w)); [simplify_eq; ok_tac|].
  destruct (url_host u); [|simplify_eq; ok_tac].
  destruct (attempt <? max); [|simplify_eq; ok_tac].
  destruct (backoff_loop _ _ _ _ _) as [w1 r1] eqn:E.
  apply backoff_loop_ok in E; [|ok_tac].
  destruct r1 as [[]|e|]; by simplify_eq.
Qed.

Lemma try_attempts_ok u max todo : forall w w' r,
  ok w ->
  try_attempts IS_LINUX IS_WINDOWS flag env job u max todo w = (w', r) ->
  ok w'.
Proof.
  induction todo as [|k rest IH]; intros w w' r Hw H; simpl in H.
  { by simplify_eq. }
  unfold is_cancelled in H.
  destruct (flag (reads w)); [simplify_eq; ok_tac|].
  destruct (attempt_body _ _ _ _ _ _ _) as [w2 rb] eqn:E.
  apply attempt_body_ok in E; [|ok_tac].
  destruct rb as [b|e|]; [simplify_eq; ok_tac| |by simplify_eq].
  destruct (outer_except _ _ _ _ _ _) as [w3 ro] eqn:Eo.
  apply outer_except_ok in Eo; [|ok_tac].
  destruct ro as [[]|e'|]; try by simplify_eq.
  by eapply IH.
Qed.

Lemma try_fallbacks_ok urls : forall w w' r,
  ok w ->
  try_fallbacks IS_LINUX IS_WINDOWS flag env job urls w = (w', r) -> ok w'.
Proof.
  induction urls as [|fu rest IH]; intros w w' r Hw H; simpl in H.
  { by simplify_eq. }
  unfold is_cancelled, _try_download in H.
  destruct (flag (reads w)); [simplify_eq; ok_tac|].
  destruct (try_attempts _ _ _ _ _ _ _ _ _) as [w1 r1] eqn:E.
  apply try_attempts_ok in E; [|ok_tac].
  destruct r1 as [[]|e|]; try by simplify_eq.
  by eapply IH.
Qed.

Lemma run_body_ok w w' r :
  ok w -> run_body IS_LINUX IS_WINDOWS flag env job w = (w', r) -> ok w'.
Proof.
  unfold run_body, is_cancelled, _try_download. intros Hw H. simpl in H.
  destruct (flag (reads w)); [simplify_eq; ok_tac|].
  destruct (try_attempts _ _ _ _ _ _ _ _ _) as [w1 r1] eqn:E.
  apply try_attempts_ok in E; [|ok_tac].
  destruct r1 as [[]|e|]; try by simplify_eq.
  destruct (flag (reads w1)); [simplify_eq; ok_tac|].
  match type of H with
    context [match fallback_urls job with [] => ?x | _ :: _ => ?y end] =>
    assert (A : forall w2 r2,
               match fallback_urls job with [] => x | _ :: _ => y end
               = (w2, r2) -> ok w2)
  end.
  { intros w2 r2 H2. destruct (fallback_urls job); [simplify_eq; ok_tac|].
    eapply try_fallbacks_ok; [|exact H2]. ok_tac. }
  destruct (match fallback_urls job with [] => _ | _ => _ end)
    as [w2 r2] eqn:E2.
  specialize (A _ _ eq_refl).
  destruct r2 as [[]|e|]; try by simplify_eq.
  destruct (flag (reads w2)); simpl in H; simplify_eq; ok_tac.
Qed.

(** X2.  Every signal a worker sends names the worker's own file
    ([str(self.filepath)]); every progress carries a
    percentage between 0 and 100; a success carries no error text. *)
Theorem signals_name_the_job (s : FS) (t : Z) :
  Forall (ev_ok job) (trace (run' (init_world s t)).1).
Proof.
  unfold run.
  destruct (run_body _ _ _ _ _ _) as [w1 r1] eqn:E.
  apply run_body_ok in E; [|constructor].
  destruct r1 as [x|e|]; simpl; [done| |done].
  unfold is_cancelled. destruct (flag (reads w1)); ok_tac.
Qed.

(** ** The temporary files that stay behind *)

Lemma verify_and_move_others a n w w' r k :
  k <> n ->
  verify_and_move IS_WINDOWS flag job a (Temp n) w = (w', r) ->
  fs w' !! Temp k = fs w !! Temp k.
Proof.
  intros Hk H. assert (Hne : Temp k <> Temp n) by congruence.
  assert (I : forall e, inner_except flag a (Temp n) e w = (w', r) ->
                        fs w' !! Temp k = fs w !! Temp k).
  { intros e He. apply inner_except_steps in He as (_ & _ & _ & F & _).
    by apply F. }
  unfold verify_and_move in H.
  destruct (getsize (Temp n) (fs w)) as [size|]; [|by eapply I].
  destruct (size =? 0); [by eapply I|].
  destruct (e_mkdir2 a); [by eapply I|].
  destruct (e_move a); [by eapply I|].
  unfold is_cancelled in H.
  destruct (negb IS_WINDOWS); [destruct (e_chmod_file a)|];
    simpl in H; destruct (flag _); simpl in H; simplify_eq; simpl;
    rewrite ?chmod_ne by done; by rewrite move_ne.
Qed.

Lemma download_to_temp_others u a n w w' r k :
  k <> n ->
  download_to_temp IS_WINDOWS flag job u a (Temp n) w = (w', r) ->
  fs w' !! Temp k = fs w !! Temp k.
Proof.
  intros Hk H. assert (Hne : Temp k <> Temp n) by congruence.
  unfold download_to_temp, is_cancelled in H.
  destruct (flag (reads w)); [by simplify_eq|].
  destruct (urlretrieve _ _ _ _ _ _) as [w1 o1] eqn:E1.
  apply urlretrieve_steps in E1 as (_ & _ & _ & F1).
  specialize (F1 _ Hne). simpl in F1.
  destruct o1 as [e|].
  { apply inner_except_steps in H as (_ & _ & _ & F & _).
    by rewrite F, F1. }
  destruct (flag (reads w1)).
  - simplify_eq.
    match goal with |- fs (remove_temp a ?t ?w0) !! _ = _ =>
      destruct (remove_temp_steps a t w0) as (_ & _ & _ & F)
    end.
    by rewrite F, <- F1.
  - apply (verify_and_move_others _ _ _ _ _ k) in H; [|done].
    by rewrite H, <- F1.
Qed.

(** One attempt: no temporary file is left, but for the one that the
    first look at the flag inside the inner [try] leaves. *)
Lemma attempt_body_temps u a w w' r :
  e_remove a = None -> clean (fs w) ->
  attempt_body IS_LINUX IS_WINDOWS flag job u a w = (w', r) ->
  clean (fs w')
  \/ (one_temp (fs w') /\ r = Ok false
      /\ exists i, (i < reads w')%nat /\ flag i = true).
Proof.
  intros Hrm Hc H. unfold attempt_body in H.
  destruct (e_mkdir a); [simplify_eq; by left|].
  match type of H with context [if IS_LINUX then ?x else w] =>
    assert (H0 : fs (if IS_LINUX then x else w) = fs w)
      by (destruct IS_LINUX; [destruct (e_chmod_dir a)|]; done);
    revert H H0; generalize (if IS_LINUX then x else w)
  end.
  intros w0 H H0. rewrite <- H0 in Hc. clear H0.
  destruct (e_request a); [simplify_eq; by left|].
  destruct (e_mkstemp a); [simplify_eq; by left|].
  set (n := temps w0) in *.
  match type of H with download_to_temp _ _ _ _ _ _ ?x = _ =>
    set (w1 := x) in *
  end.
  assert (F1 : fs w1 !! Temp n = Some (mkFile [] 384))
    by (subst w1; simpl; apply lookup_insert_eq).
  assert (O1 : forall k, k <> n -> fs w1 !! Temp k = None).
  { intros k Hk. subst w1. simpl.
    rewrite lookup_insert_ne by congruence. apply Hc. }
  assert (O : forall k, k <> n -> fs w' !! Temp k = None).
  { intros k Hk. rewrite (download_to_temp_others _ _ _ _ _ _ k Hk H).
    by apply O1. }
  destruct (flag (reads w1)) eqn:Hfl.
  - right. unfold download_to_temp, is_cancelled in H. rewrite Hfl in H.
    simplify_eq. simpl. split_and!; [|done|].
    + exists n. split; [exact F1 | exact O1].
    + exists (reads w1). split; [subst w1; simpl; lia | done].
  - left. intros k. destruct (decide (k = n)) as [->|Hk]; [|by apply O].
    assert (Hr : r = Ok true \/ r <> Ok true)
      by (destruct r as [[]|e|]; auto).
    destruct Hr as [->|Hr].
    + eapply download_to_temp_true in H as (ts & bl & H); [|exact F1].
      by destruct H as (_ & _ & _ & _ & _ & _ & _ & _ & G & _).
    + apply download_to_temp_frame in H as (_ & _ & G & _); [|done].
      by apply G.
Qed.

Lemma try_attempts_temps u max todo :
  remove_works env ->
  forall w w' r,
    clean (fs w) ->
    try_attempts IS_LINUX IS_WINDOWS flag env job u max todo w = (w', r) ->
    clean (fs w')
    \/ (one_temp (fs w') /\ r = Ok false
        /\ exists i, (i < reads w')%nat /\ flag i = true).
Proof.
  intros Hrm. induction todo as [|k rest IH]; intros w w' r Hc H;
    simpl in H.
  { simplify_eq. by left. }
  unfold is_cancelled in H.
  destruct (flag (reads w)); [simplify_eq; by left|].
  destruct (attempt_body _ _ _ _ _ _ _) as [w2 rb] eqn:E.
  apply attempt_body_temps in E; [|apply Hrm|done].
  destruct rb as [b|e|].
  - simplify_eq. destruct E as [E|(E & -> & i & Hi & Hfi)]; [by left|].
    right. split_and!; [done | done |]. exists i. simpl. by split.
  - destruct E as [E|(_ & ? & _)]; [|done].
    destruct (outer_except _ _ _ _ _ _) as [w3 ro] eqn:Eo.
    apply outer_except_steps in Eo as (_ & F3 & _).
    simpl in F3. rewrite <- F3 in E.
    destruct ro as [[]|e'|]; simplify_eq; try by left.
    by eapply IH.
  - destruct E as [E|(_ & ? & _)]; [|done]. simplify_eq. by left.
Qed.

Lemma try_fallbacks_seen urls w :
  flag (reads w) = true ->
  fs (try_fallbacks IS_LINUX IS_WINDOWS flag env job urls w).1 = fs w
  /\ (reads w <=
       reads (try_fallbacks IS_LINUX IS_WINDOWS flag env job urls w).1)%nat.
Proof.
  intros Hfl. destruct urls as [|fu rest]; simpl; [done|].
  unfold is_cancelled. rewrite Hfl. simpl. split; [done | lia].
Qed.

Lemma try_fallbacks_temps urls :
  stays_set flag -> remove_works env ->
  forall w w' r,
    clean (fs w) ->
    try_fallbacks IS_LINUX IS_WINDOWS flag env job urls w = (w', r) ->
    clean (fs w')
    \/ (one_temp (fs w') /\ exists i, (i < reads w')%nat /\ flag i = true).
Proof.
  intros Hm Hrm. induction urls as [|fu rest IH]; intros w w' r Hc H;
    simpl in H.
  { simplify_eq. by left. }
  unfold is_cancelled, _try_download in H.
  destruct (flag (reads w)); [simplify_eq; by left|].
  destruct (try_attempts _ _ _ _ _ _ _ _ _) as [w1 r1] eqn:E.
  apply try_attempts_temps in E; [|done|done].
  destruct E as [E|(E & -> & i & Hi & Hfi)].
  - destruct r1 as [[]|e|]; simplify_eq; try by left. by eapply IH.
  - right.
    assert (Hfl : flag (reads w1) = true).
    { apply (stays_set_later flag i); [done | lia | done]. }
    destruct (try_fallbacks_seen rest w1 Hfl) as [F R].
    rewrite H in F, R. simpl in F, R. rewrite F. split; [done|].
    exists i. split; [lia | done].
Qed.

Lemma run_body_temps w w' r :
  stays_set flag -> remove_works env -> clean (fs w) ->
  run_body IS_LINUX IS_WINDOWS flag env job w = (w', r) ->
  clean (fs w')
  \/ (one_temp (fs w') /\ exists i, (i < reads w')%nat /\ flag i = true).
Proof.
  intros Hm Hrm Hc H.
  unfold run_body, is_cancelled, _try_download in H. simpl in H.
  destruct (flag (reads w)); [simplify_eq; by left|].
  destruct (try_attempts _ _ _ _ _ _ _ _ _) as [w1 r1] eqn:E.
  apply try_attempts_temps in E; [|done|done].
  destruct E as [E|(E & -> & i & Hi & Hfi)].
  2:{ right.
      assert (Hfl : flag (reads w1) = true)
        by (apply (stays_set_later flag i); [done | lia | done]).
      rewrite Hfl in H. simplify_eq. simpl. split; [done|].
      exists i. split; [lia | done]. }
  destruct r1 as [[]|e|]; simplify_eq; try by left.
  destruct (flag (reads w1)); [simplify_eq; by left|].
  match type of H with
    context [match fallback_urls job with [] => ?x | _ :: _ => ?y end] =>
    destruct (match fallback_urls job with [] => x | _ :: _ => y end)
      as [w2 r2] eqn:E2
  end.
  assert (A : clean (fs w2)
              \/ (one_temp (fs w2)
                  /\ exists i, (i < reads w2)%nat /\ flag i = true)).
  { destruct (fallback_urls job); [simplify_eq; by left|].
    eapply try_fallbacks_temps; [done | done | | exact E2]. exact E. }
  assert (fs w' = fs w2 /\ (reads w2 <= reads w')%nat) as [F R].
  { destruct r2 as [[]|e|]; simplify_eq; try done.
    destruct (flag (reads w2)); simpl in H; simplify_eq; simpl;
      (split; [done | lia]). }
  rewrite F. destruct A as [A|(A & i & Hi & Hfi)]; [by left|].
  right. split; [done|]. exists i. split; [lia | done].
Qed.

(** X3.  When [os.remove] works, a run that starts with no temporary file on
    disk ends with none, unless the worker saw its flag set: then one
    may stay behind, as [mkstemp] made it, empty, and never more than
    one.  (The flag, once set, stays set.) *)
Theorem at_most_one_temp_file_left (s : FS) (t : Z) :
  stays_set flag -> remove_works env -> clean s ->
  let w' := (run' (init_world s t)).1 in
  (clean (fs w')
   \/ (one_temp (fs w') /\ exists i, (i < reads w')%nat /\ flag i = true))
  /\ (never_set flag -> clean (fs w')).
Proof.
  intros Hm Hrm Hc w'.
  assert (A : clean (fs w')
              \/ (one_temp (fs w')
                  /\ exists i, (i < reads w')%nat /\ flag i = true)).
  { subst w'. unfold run.
    destruct (run_body _ _ _ _ _ _) as [w1 r1] eqn:E.
    apply run_body_temps in E; [|done|done|done].
    destruct r1 as [x|e|]; simpl; [done| |done].
    unfold is_cancelled.
    destruct E as [E|(E & i & Hi & Hfi)];
      destruct (flag (reads w1)); simpl; try by left.
    - right. split; [done|]. exists i. simpl. split; [lia | done].
    - right. split; [done|]. exists i. simpl. split; [lia | done]. }
  split; [done|]. intros Hns.
  destruct A as [A|(_ & i & _ & Hfi)]; [done|]. by rewrite Hns in Hfi.
Qed.

(** ** How long a run can wait *)

Lemma backoff_loop_now fuel start ms : forall w w' r (j : nat),
  backoff_loop flag fuel start ms w = (w', r) ->
  ms - (now w - start) = 100 * Z.of_nat j ->
  now w <= now w' /\ now w' - start <= ms.
Proof.
  induction fuel as [|fuel IH]; intros w w' r j H Hj; simpl in H.
  - destruct (_ <? _); simplify_eq; lia.
  - destruct (now w - start <? ms) eqn:Hlt; [|simplify_eq; lia].
    apply Z.ltb_lt in Hlt. unfold is_cancelled in H.
    destruct (flag (reads w)); [simplify_eq; simpl; lia|].
    apply (IH _ _ _ (pred j)) in H; simpl in *; lia.
Qed.

Lemma outer_except_now u attempt max w w' r :
  outer_except flag job u attempt max w = (w', r) ->
  now w <= now w'
  /\ now w' <= now w + (if attempt <? max then 1000 * 2 ^ attempt else 0).
Proof.
  unfold outer_except, is_cancelled, backoff. intros H.
  assert (0 <= 2 ^ attempt).
  { destruct (Z.le_gt_cases 0 attempt).
    - apply Z.pow_nonneg. lia.
    - rewrite Z.pow_neg_r by lia. lia. }
  destruct (flag (reads w)); [simplify_eq; simpl; destruct (_ <? _); lia|].
  destruct (url_host u); [|simplify_eq; simpl; destruct (_ <? _); lia].
  destruct (attempt <? max); [|simplify_eq; simpl; lia].
  destruct (backoff_loop _ _ _ _ _) as [w1 r1] eqn:E.
  apply (backoff_loop_now _ _ _ _ _ _ (Z.to_nat (10 * 2 ^ attempt))) in E;
    [|simpl; lia].
  simpl in E. destruct r1 as [[]|e|]; simplify_eq; lia.
Qed.

Lemma try_attempts_now u max todo : forall w w' r,
  try_attempts IS_LINUX IS_WINDOWS flag env job u max todo w = (w', r) ->
  now w <= now w' /\ now w' <= now w + wait_bound max todo.
Proof.
  induction todo as [|k rest IH]; intros w w' r H; simpl in H.
  { simplify_eq. simpl. lia. }
  assert (0 <= wait_bound max rest).
  { clear. induction rest as [|k' rest IH]; simpl; [lia|].
    destruct (k' <? max); [|lia].
    assert (0 <= 2 ^ k'); [|lia].
    destruct (Z.le_gt_cases 0 k').
    - apply Z.pow_nonneg. lia.
    - rewrite Z.pow_neg_r by lia. lia. }
  assert (0 <= (if k <? max then 1000 * 2 ^ k else 0)).
  { destruct (k <? max); [|lia].
    assert (0 <= 2 ^ k); [|lia].
    destruct (Z.le_gt_cases 0 k).
    - apply Z.pow_nonneg. lia.
    - rewrite Z.pow_neg_r by lia. lia. }
  unfold is_cancelled in H. simpl.
  destruct (flag (reads w)); [simplify_eq; simpl; lia|].
  destruct (attempt_body _ _ _ _ _ _ _) as [w2 rb] eqn:E.
  apply attempt_body_steps in E as (_ & N2 & _). simpl in N2.
  destruct rb as [b|e|]; [simplify_eq; simpl; lia| |simplify_eq; lia].
  destruct (outer_except _ _ _ _ _ _) as [w3 ro] eqn:Eo.
  apply outer_except_now in Eo. simpl in Eo.
  destruct ro as [[]|e'|]; simplify_eq; try lia.
  apply IH in H. lia.
Qed.

Lemma try_fallbacks_now urls : forall w w' r,
  try_fallbacks IS_LINUX IS_WINDOWS flag env job urls w = (w', r) ->
  now w' = now w.
Proof.
  induction urls as [|fu rest IH]; intros w w' r H; simpl in H.
  { by simplify_eq. }
  unfold is_cancelled, _try_download in H.
  destruct (flag (reads w)); [by simplify_eq|].
  destruct (try_attempts _ _ _ _ _ _ _ _ _) as [w1 r1] eqn:E.
  apply try_attempts_now in E. simpl in E.
  destruct r1 as [[]|e|]; simplify_eq; try lia.
  apply IH in H. lia.
Qed.

Lemma wait_bound_seq max n : forall a : nat,
  (1 <= n)%nat -> Z.of_nat (a + n) = max + 1 ->
  wait_bound max (map Z.of_nat (seq a n))
  = 1000 * (2 ^ max - 2 ^ Z.of_nat a).
Proof.
  induction n as [|n IH]; intros a Hn Ha; [lia|]. simpl.
  destruct n as [|n].
  - simpl. replace (Z.of_nat a <? max) with false
      by (symmetry; apply Z.ltb_ge; lia).
    replace max with (Z.of_nat a) by lia. lia.
  - replace (Z.of_nat a <? max) with true
      by (symmetry; apply Z.ltb_lt; lia).
    rewrite (IH (S a)) by lia.
    replace (Z.of_nat (S a)) with (Z.of_nat a + 1) by lia.
    rewrite Z.pow_add_r by lia. lia.
Qed.

Lemma wait_bound_range max :
  wait_bound max (range_from_1 max) = 1000 * (2 ^ Z.max 1 max - 2).
Proof.
  unfold range_from_1. destruct (Z.le_gt_cases 1 max).
  - rewrite (wait_bound_seq max) by lia.
    rewrite Z.max_r by lia. done.
  - replace (Z.to_nat max) with 0%nat by lia.
    rewrite Z.max_l by lia. done.
Qed.

Lemma run_body_now w w' r :
  run_body IS_LINUX IS_WINDOWS flag env job w = (w', r) ->
  now w <= now w'
  /\ now w' <= now w + 1000 * (2 ^ Z.max 1 (retry_count job) - 2).
Proof.
  intros H. unfold run_body, is_cancelled, _try_download in H. simpl in H.
  pose proof (wait_bound_range (retry_count job)) as B.
  assert (0 <= wait_bound (retry_count job)
                          (range_from_1 (retry_count job))).
  { rewrite B. assert (2 ^ 1 <= 2 ^ Z.max 1 (retry_count job)); [|lia].
    apply Z.pow_le_mono_r; lia. }
  destruct (flag (reads w)); [simplify_eq; simpl; lia|].
  destruct (try_attempts _ _ _ _ _ _ _ _ _) as [w1 r1] eqn:E.
  apply try_attempts_now in E. simpl in E.
  destruct r1 as [[]|e|]; simplify_eq; try lia.
  destruct (flag (reads w1)); [simplify_eq; simpl; lia|].
  match type of H with
    context [match fallback_urls job with [] => ?x | _ :: _ => ?y end] =>
    destruct (match fallback_urls job with [] => x | _ :: _ => y end)
      as [w2 r2] eqn:E2
  end.
  assert (N2 : now w2 = now w1).
  { destruct (fallback_urls job); [by simplify_eq|].
    by apply try_fallbacks_now in E2. }
  assert (now w' = now w2).
  { destruct r2 as [[]|e|]; simplify_eq; try done.
    by destruct (flag (reads w2)); simpl in H; simplify_eq. }
  lia.
Qed.

Lemma outer_except_now_exact u attempt max w w' r :
  never_set flag -> is_Some (url_host u) ->
  outer_except flag job u attempt max w = (w', r) ->
  r = Ok true
  /\ now w' = now w + (if attempt <? max then 1000 * 2 ^ attempt else 0).
Proof.
  intros Hns [h Hh]. unfold outer_except, is_cancelled, backoff.
  rewrite Hns, Hh. destruct (attempt <? max).
  - match goal with |- context [backoff_loop _ ?f ?st ?ms ?w0] =>
      destruct (backoff_loop_full flag f st ms w0) as (w1 & E & _ & N & _)
    end.
    { rewrite <- pow2_slices. lia. }
    { by apply never_set_unset. }
    rewrite E. intros H. simplify_eq. split; [done|].
    rewrite N. simpl. rewrite <- pow2_slices. lia.
  - intros H. simplify_eq. simpl. split; [done | lia].
Qed.

Lemma try_attempts_now_exact u max todo :
  never_set flag -> is_Some (url_host u) -> all_attempts_fail env ->
  forall w w' r,
    try_attempts IS_LINUX IS_WINDOWS flag env job u max todo w = (w', r) ->
    r = Ok false /\ now w' = now w + wait_bound max todo.
Proof.
  intros Hns Hh Hfail.
  induction todo as [|k rest IH]; intros w w' r H; simpl in H.
  { simplify_eq. simpl. split; [done | lia]. }
  unfold is_cancelled in H. rewrite Hns in H.
  destruct (attempt_body _ _ _ _ _ _ _) as [w2 rb] eqn:E.
  pose proof (attempt_body_never_set _ _ _ _ _ _ _ _ _ Hns E) as Hr.
  rewrite Hfail in Hr. destruct Hr as [e ->].
  apply attempt_body_steps in E as (_ & N2 & _). simpl in N2.
  destruct (outer_except _ _ _ _ _ _) as [w3 ro] eqn:Eo.
  apply outer_except_now_exact in Eo as [-> N3]; [|done|done].
  simpl in N3. apply IH in H as [-> N]. split; [done|]. simpl. lia.
Qed.

Lemma try_fallbacks_never_true urls :
  never_set flag -> (forall u, In u urls -> is_Some (url_host u)) ->
  all_attempts_fail env ->
  forall w w' r,
    try_fallbacks IS_LINUX IS_WINDOWS flag env job urls w = (w', r) ->
    r = Ok false.
Proof.
  intros Hns Hh Hfail.
  induction urls as [|fu rest IH]; intros w w' r H; simpl in H.
  { by simplify_eq. }
  unfold is_cancelled, _try_download in H. rewrite Hns in H.
  destruct (try_attempts _ _ _ _ _ _ _ _ _) as [w1 r1] eqn:E.
  apply try_attempts_now_exact in E as [-> _];
    [|done|apply Hh; by left|done].
  eapply IH; [|exact H]. intros u Hu. apply Hh. by right.
Qed.

(** X4.  On the clock of the model, where only [time.sleep] takes time: a
    run never waits longer than [2 ** 1 + ... + 2 ** (retry_count - 1)]
    seconds in all, that is [2 ** retry_count - 2]: nothing with one
    attempt, 6 seconds with three, 1022 with ten.  A run in which every
    attempt fails and the flag is never set waits exactly that long. *)
Theorem total_wait_is_bounded (s : FS) (t : Z) :
  let w' := (run' (init_world s t)).1 in
  let longest := 1000 * (2 ^ Z.max 1 (retry_count job) - 2) in
  t <= now w' /\ now w' <= t + longest
  /\ (never_set flag -> has_hosts job -> all_attempts_fail env ->
      now w' = t + longest).
Proof.
  intros w' longest. subst w' longest. unfold run.
  destruct (run_body _ _ _ _ _ _) as [w1 r1] eqn:E.
  assert (N : now (match r1 with
                   | Raise e =>
                       let '(c, w) := is_cancelled flag w1 in
                       if negb c then
                         (emit (Finished false (filepath_str job)
                                  ("Thread error: " +:+ e))
                            (emit (Progress (filepath_str job)
                                     ("Error in download thread: "
                                        +:+ name (filepath job)) 0) w),
                          Ok tt)
                       else (w, Ok tt)
                   | _ => (w1, r1)
                   end).1 = now w1).
  { destruct r1 as [x|e|]; simpl; [done| |done].
    unfold is_cancelled. by destruct (flag (reads w1)). }
  rewrite N. pose proof (run_body_now _ _ _ E) as B. simpl in B.
  split_and!; [lia | lia |].
  intros Hns [Hu Hf] Hfail. clear N B.
  unfold run_body, is_cancelled, _try_download in E. simpl in E.
  rewrite Hns in E.
  destruct (try_attempts _ _ _ _ _ _ _ _ _) as [w2 r2] eqn:E2.
  apply try_attempts_now_exact in E2 as [-> N2]; [|done|done|done].
  simpl in N2. rewrite wait_bound_range in N2. rewrite Hns in E.
  match type of E with
    context [match fallback_urls job with [] => ?x | _ :: _ => ?y end] =>
    destruct (match fallback_urls job with [] => x | _ :: _ => y end)
      as [w3 r3] eqn:E3
  end.
  assert (N3 : now w3 = now w2 /\ r3 = Ok false).
  { destruct (fallback_urls job) as [|fu rest] eqn:Ef; [by simplify_eq|].
    split.
    - by apply try_fallbacks_now in E3.
    - eapply try_fallbacks_never_true; [done | | done | exact E3]. done. }
  destruct N3 as [N3 ->]. rewrite Hns in E. simpl in E. simplify_eq.
  simpl. lia.
Qed.

End WorkerMore.

(** * The message at the end of a run *)

Lemma downloads_completed_boxes g :
  is_shutting_down g = false ->
  boxes_of (gui_trace (downloads_completed g))
  = boxes_of (gui_trace g)
    ++ completion_box (finished_count g) (failed_count g).
Proof.
  intros Hsd. unfold downloads_completed, completion_box. rewrite Hsd. simpl.
  destruct (0 <? finished_count g); [destruct (failed_count g =? 0)|];
    simpl; unfold boxes_of; rewrite !omap_app; simpl;
    by rewrite ?app_nil_r.
Qed.

Lemma record_result_boxes success fp e g :
  boxes_of (gui_trace (record_result success fp e g))
  = boxes_of (gui_trace g).
Proof.
  unfold record_result.
  destruct success; simpl; destruct (active_downloads g !! fp); simpl;
    unfold boxes_of; rewrite !omap_app; simpl; by rewrite app_nil_r.
Qed.


(** * The host of a URL, the order of the starts *)

Lemma length_split_slash s : length (split_slash s) = S (count_slash s).
Proof.
  induction s as [|c s IH]; simpl; [done|].
  destruct (Ascii.eqb c slash); simpl; [by rewrite IH|].
  destruct (split_slash s); simpl in *; [done | lia].
Qed.

Lemma split_slash_no_slash s : no_slash s -> split_slash s = [s].
Proof.
  unfold no_slash. induction s as [|c s IH]; simpl; [done|].
  destruct (Ascii.eqb c slash); [done|]. intros H. by rewrite IH.
Qed.

Lemma split_slash_app a b :
  no_slash a -> split_slash (a +:+ String slash b) = a :: split_slash b.
Proof.
  unfold no_slash. induction a as [|c a IH]; intros H.
  - reflexivity.
  - change (String c a +:+ String slash b)
      with (String c (a +:+ String slash b)).
    simpl in *. destruct (Ascii.eqb c slash); [done|]. by rewrite IH.
Qed.

(** X6.  [url.split('/')[2]], which the worker and the window put in their
    messages, raises [IndexError] exactly on a URL with fewer than two
    slashes; on a URL [scheme//host] or [scheme//host/path] it is the
    host. *)
Theorem url_host_is_the_host :
  (forall u, url_host u = None <-> (count_slash u < 2)%nat)
  /\ (forall scheme host,
        no_slash scheme -> no_slash host ->
        url_host (scheme +:+ "//" +:+ host) = Some host)
  /\ (forall scheme host path,
        no_slash scheme -> no_slash host ->
        url_host (scheme +:+ "//" +:+ host +:+ "/" +:+ path) = Some host).
Proof.
  split_and!.
  - intros u. unfold url_host. rewrite nth_error_None, length_split_slash. lia.
  - intros scheme host Hs Hh. unfold url_host.
    change (scheme +:+ "//" +:+ host)
      with (scheme +:+ String slash (EmptyString +:+ String slash host)).
    rewrite split_slash_app by done.
    rewrite split_slash_app by done.
    by rewrite split_slash_no_slash.
  - intros scheme host path Hs Hh. unfold url_host.
    change (scheme +:+ "//" +:+ host +:+ "/" +:+ path)
      with (scheme +:+ String slash
              (EmptyString +:+ String slash (host +:+ String slash path))).
    rewrite split_slash_app by done.
    rewrite split_slash_app by done.
    by rewrite split_slash_app.
Qed.

Lemma downloads_completed_retry g :
  sb_value (retry_spinbox (downloads_completed g))
  = sb_value (retry_spinbox g).
Proof.
  unfold downloads_completed. destruct (is_shutting_down g); [done|]. simpl.
  destruct (0 <? finished_count g); [|done].
  by destruct (failed_count g =? 0).
Qed.



(** * More of the program at work on concrete worlds *)

Lemma remove_works_world_ok : remove_works (fun _ => world_ok).
Proof. intros i. reflexivity. Qed.

Lemma clean_empty : clean ∅.
Proof. intros k. apply lookup_empty. Qed.

Lemma all_fail_world_failing e : all_attempts_fail (fun _ => world_failing e).
Proof. intros u i. reflexivity. Qed.

(** Cancelled between the first and the second look at the flag of the
    first attempt: at most the one empty file stays. *)
Lemma at_most_one_temp_file_left_witness :
  let w' := (run true false (flag_from 2) (fun _ => world_ok) demo_job
                 (init_world ∅ 0)).1 in
  (clean (fs w')
   \/ (one_temp (fs w')
       /\ exists i, (i < reads w')%nat /\ flag_from 2 i = true))
  /\ (never_set (flag_from 2) -> clean (fs w')).
Proof.
  apply (at_most_one_temp_file_left true false (flag_from 2)
           (fun _ => world_ok) demo_job ∅ 0).
  - apply stays_set_flag_from.
  - apply remove_works_world_ok.
  - apply clean_empty.
Defined.

(** Three attempts that fail: 2 + 4 seconds of waiting. *)
Lemma total_wait_witness :
  now (run true false flag_never (fun _ => world_failing "HTTP Error 404")
           demo_job (init_world ∅ 0)).1
  = 0 + 1000 * (2 ^ Z.max 1 (retry_count demo_job) - 2).
Proof.
  apply (proj2 (proj2 (total_wait_is_bounded true false flag_never
                         (fun _ => world_failing "HTTP Error 404")
                         demo_job ∅ 0))).
  - apply never_set_flag_never.
  - apply has_hosts_demo_job.
  - apply all_fail_world_failing.
Defined.

Lemma url_host_witness :
  url_host ("https:" +:+ "//" +:+ "sound-effects.bbcrewind.co.uk" +:+ "/"
              +:+ "assets/07070175.wav")
  = Some "sound-effects.bbcrewind.co.uk".
Proof.
  apply (proj2 (proj2 url_host_is_the_host)); reflexivity.
Defined.

(** Off Windows the parent directory is not a name. *)
Lemma sanitize_path_safe_witness :
  startswith_dot (sanitize_path false (fun _ => false) "..") = false
  /\ sanitize_path false (fun _ => false) ".." <> "."
  /\ sanitize_path false (fun _ => false) ".." <> "..".
Proof.
  apply (proj2 (proj2 (proj2
           (sanitize_path_safe false (fun _ => false) "..")))).
  reflexivity.
Defined.

Lemma sanitize_path_length_witness :
  (String.length (sanitize_path true (fun _ => false) " a/b ")
   <= String.length " a/b ")%nat.
Proof.
  apply (proj1 (proj2 (sanitize_path_length true (fun _ => false) " a/b "))).
  reflexivity.
Defined.

Lemma file_name_fits_witness :
  Z.of_nat (String.length
              (file_name false false (fun _ => false)
                         "Jet taking off" "07070175.wav"))
  <= DEFAULT_MAX_FILENAME_LENGTH false false.
Proof.
  apply (proj2 (file_name_fits false false (fun _ => false)
                  "Jet taking off" "07070175.wav")).
  vm_compute. discriminate.
Defined.

Lemma all_read_demo :
  all_read (map demo_load_row [row_jet; row_no_location; row_blackbird]).
Proof. repeat constructor; eexists; vm_compute; reflexivity. Qed.

(** Three rows: one is queued, one has no location, one is there
    already. *)
Lemma load_queues_wanted_witness :
  let g' := demo_load [row_jet; row_no_location; row_blackbird] None
                      init_gui in
  samples g'
  = wanted (map demo_load_row [row_jet; row_no_location; row_blackbird])
  /\ total_count g' = Z.of_nat (length (samples g'))
  /\ start_button g' = bool_decide (samples g' <> [])
  /\ Forall (fun s => exists dest location, s = sample_of (dest, location))
            (samples g')
  /\ hosts_ok (samples g')
  /\ finished_count g' = finished_count init_gui
  /\ failed_count g' = failed_count init_gui
  /\ active_downloads g' = active_downloads init_gui
  /\ boxes_of (gui_trace g') = boxes_of (gui_trace init_gui).
Proof.
  apply (load_queues_wanted false false (fun _ => false) demo_joinpath
           (fun _ => true) demo_exists
           "expected string or bytes-like object"
           "can only concatenate str (not NoneType) to str"
           "/home/user/BBCSoundEffects.csv"
           [row_jet; row_no_location; row_blackbird] init_gui).
  apply all_read_demo.
Defined.

Lemma all_read_demo_pre :
  all_read (map demo_load_row [row_jet; row_no_location]).
Proof. repeat constructor; eexists; vm_compute; reflexivity. Qed.

(** A second load, of a list whose third line is too short, after a first
    load of three samples: one sample in the backlog, a total of three. *)
Lemma load_failure_witness :
  let g := load_csv_data demo_rows init_gui in
  let g' := demo_load [row_jet; row_no_location; row_short; row_blackbird]
                      None g in
  samples g' = wanted (map demo_load_row [row_jet; row_no_location])
  /\ total_count g' = total_count g
  /\ start_button g' = start_button g
  /\ boxes_of (gui_trace g') =
       boxes_of (gui_trace g)
       ++ [("critical", "Error",
            "Failed to load samples: "
              +:+ "expected string or bytes-like object")].
Proof.
  apply (proj1 (load_failure_keeps_partial false false (fun _ => false)
                  demo_joinpath (fun _ => true) demo_exists
                  "expected string or bytes-like object"
                  "can only concatenate str (not NoneType) to str"
                  "/home/user/BBCSoundEffects.csv"
                  (load_csv_data demo_rows init_gui))
           [row_jet; row_no_location] row_short [row_blackbird]
           "expected string or bytes-like object" None).
  - apply all_read_demo_pre.
  - vm_compute. reflexivity.
Defined.

Lemma hosts_ok_demo_signalled : hosts_ok (samples demo_signalled).
Proof. repeat constructor; vm_compute; eauto. Qed.

Lemma tick_witness :
  let q := download_results_queue demo_signalled in
  let g' := process_download_queue demo_signalled in
  g' = set_queue (drop 10 q) (foldl handled demo_signalled (take 10 q))
  /\ download_results_queue g' = drop 10 q
  /\ finished_count g' + failed_count g'
     = finished_count demo_signalled + failed_count demo_signalled
       + Z.of_nat (length (take 10 q))
  /\ (forall success fp e,
         download_results_queue (download_finished success fp e demo_signalled)
         = q ++ [(success, fp, e)]).
Proof.
  apply (tick_handles_ten_in_order demo_signalled).
  - reflexivity.
  - apply hosts_ok_demo_signalled.
Defined.


Lemma active_demo_started : active_downloads demo_started <> ∅.
Proof.
  intros E. apply (f_equal size) in E. vm_compute in E. discriminate.
Qed.

Lemma close_witness :
  (let g' := closeEvent true demo_started in
   is_shutting_down g' = true
   /\ (forall fp, w_is_cancelled <$> (active_downloads g' !! fp)
                  = (fun _ => true) <$> (active_downloads demo_started !! fp))
   /\ forall g'', arrivals g' g'' -> g'' = g')
  /\ (is_shutting_down demo_started = false ->
      closeEvent false demo_started = demo_started).
Proof.
  apply (close_freezes_the_window demo_started).
  apply active_demo_started.
Defined.


(** A run started after a load that failed on the way: one sample in the
    backlog, a total of three left by the load before, and Start enabled.
    The sum is 1 where the total is 3. *)
Lemma stale_total_after_failed_load :
  let g := demo_load [row_jet; row_no_location; row_short; row_blackbird]
                     None (load_csv_data demo_rows init_gui) in
  let g' := (start_downloads None g).1 in
  start_button g = true
  /\ length (samples g) = 1%nat
  /\ total_count g = 3
  /\ aggregate g' = 1
  /\ total_count g' = 3.
Proof. by vm_compute. Qed.
